(** * twopence: the plugin dispatch layer, the output sink and the SSH transport

    A shallow embedding of [library/twopence.c] and [library/ssh.c].

    Conventions of the embedding.
    - A C [int], [long] or [size_t] is a [Z]; the few places where the
      source narrows a value are written out.
    - A C string is a [string]: the bytes before the terminating NUL.
    - A pointer is a [Z], [NULL] is [0].  Caller supplied character buffers
      live in a byte-addressed memory, a [gmap Z ascii].
    - Everything the two files call but do not define (libssh, libc, the
      dynamic loader, the iostream helpers of the library) is an external
      call: it is appended to a trace and answered by an environment that
      sees the calls made so far. *)

From Stdlib Require Import ZArith Lia Ascii String List.
From stdpp Require Import base numbers option list strings gmap pretty.

Open Scope string_scope.
Open Scope list_scope.
Open Scope Z_scope.

(** ** Constants of [twopence.h]

    The header is not one of the two files.  Its constants are taken as
    parameters: the result codes, the plugin types and the API version. *)
Class twopence_h := {
  TWOPENCE_PARAMETER_ERROR : Z;
  TWOPENCE_OPEN_SESSION_ERROR : Z;
  TWOPENCE_SEND_COMMAND_ERROR : Z;
  TWOPENCE_FORWARD_INPUT_ERROR : Z;
  TWOPENCE_RECEIVE_RESULTS_ERROR : Z;
  TWOPENCE_COMMAND_TIMEOUT_ERROR : Z;
  TWOPENCE_LOCAL_FILE_ERROR : Z;
  TWOPENCE_SEND_FILE_ERROR : Z;
  TWOPENCE_REMOTE_FILE_ERROR : Z;
  TWOPENCE_RECEIVE_FILE_ERROR : Z;
  TWOPENCE_INTERRUPT_COMMAND_ERROR : Z;
  TWOPENCE_INVALID_TARGET_SPEC : Z;
  TWOPENCE_UNKNOWN_PLUGIN : Z;
  TWOPENCE_INCOMPATIBLE_PLUGIN : Z;
  TWOPENCE_NOT_SUPPORTED : Z;
  TWOPENCE_PLUGIN_UNKNOWN : Z;
  TWOPENCE_PLUGIN_VIRTIO : Z;
  TWOPENCE_PLUGIN_SSH : Z;
  TWOPENCE_PLUGIN_SERIAL : Z;
  __TWOPENCE_PLUGIN_MAX : Z;
  TWOPENCE_API_MAJOR_VERSION : Z;
}.

(** The closed set of result codes (spec 4.8). *)
Definition twopence_result_codes `{twopence_h} : list Z :=
  [ TWOPENCE_PARAMETER_ERROR; TWOPENCE_OPEN_SESSION_ERROR;
    TWOPENCE_SEND_COMMAND_ERROR; TWOPENCE_FORWARD_INPUT_ERROR;
    TWOPENCE_RECEIVE_RESULTS_ERROR; TWOPENCE_COMMAND_TIMEOUT_ERROR;
    TWOPENCE_LOCAL_FILE_ERROR; TWOPENCE_SEND_FILE_ERROR;
    TWOPENCE_REMOTE_FILE_ERROR; TWOPENCE_RECEIVE_FILE_ERROR;
    TWOPENCE_INTERRUPT_COMMAND_ERROR; TWOPENCE_INVALID_TARGET_SPEC;
    TWOPENCE_UNKNOWN_PLUGIN; TWOPENCE_INCOMPATIBLE_PLUGIN;
    TWOPENCE_NOT_SUPPORTED ].

(** What the code relies on: the result codes are negative (callers test
    [rc < 0], [__twopence_ssh_command_ssh] asserts it) and pairwise distinct
    (the cases of the switch in [twopence_strerror]). *)
Definition twopence_h_ok `{twopence_h} : Prop :=
  NoDup twopence_result_codes ∧ Forall (λ rc, rc < 0) twopence_result_codes.

#[global] Instance twopence_h_ok_dec `{twopence_h} : Decision twopence_h_ok.
Proof. unfold twopence_h_ok. apply _. Defined.

(** One numbering that satisfies [twopence_h_ok], used where a statement is
    evaluated: the codes count down from -1 in the order above. *)
Definition twopence_h_sample : twopence_h := {|
  TWOPENCE_PARAMETER_ERROR := -1;
  TWOPENCE_OPEN_SESSION_ERROR := -2;
  TWOPENCE_SEND_COMMAND_ERROR := -3;
  TWOPENCE_FORWARD_INPUT_ERROR := -4;
  TWOPENCE_RECEIVE_RESULTS_ERROR := -5;
  TWOPENCE_COMMAND_TIMEOUT_ERROR := -6;
  TWOPENCE_LOCAL_FILE_ERROR := -7;
  TWOPENCE_SEND_FILE_ERROR := -8;
  TWOPENCE_REMOTE_FILE_ERROR := -9;
  TWOPENCE_RECEIVE_FILE_ERROR := -10;
  TWOPENCE_INTERRUPT_COMMAND_ERROR := -11;
  TWOPENCE_INVALID_TARGET_SPEC := -12;
  TWOPENCE_UNKNOWN_PLUGIN := -13;
  TWOPENCE_INCOMPATIBLE_PLUGIN := -14;
  TWOPENCE_NOT_SUPPORTED := -15;
  TWOPENCE_PLUGIN_UNKNOWN := -1;
  TWOPENCE_PLUGIN_VIRTIO := 0;
  TWOPENCE_PLUGIN_SSH := 1;
  TWOPENCE_PLUGIN_SERIAL := 2;
  __TWOPENCE_PLUGIN_MAX := 3;
  TWOPENCE_API_MAJOR_VERSION := 0;
|}.

(** ** Pointers, integers and C strings *)
Definition NULL : Z := 0.

(** The conversion of a value to [int] (32 bits, two's complement). *)
Definition to_int (z : Z) : Z := (z + 2 ^ 31) mod 2 ^ 32 - 2 ^ 31.

(** [ULONG_MAX] where [unsigned long] has 64 bits. *)
Definition ULONG_MAX : Z := 2 ^ 64 - 1.

(** [strcspn(s, ":")]: the length of the prefix of [s] free of [':']. *)
Fixpoint strcspn_colon (s : string) : nat :=
  match s with
  | EmptyString => 0%nat
  | String c rest => if Ascii.eqb c ":" then 0%nat else S (strcspn_colon rest)
  end.

(** [strrchr(s, ':')]: the offset of the last [':'] of [s], if any. *)
Fixpoint strrchr_colon (s : string) : option nat :=
  match s with
  | EmptyString => None
  | String c rest =>
      match strrchr_colon rest with
      | Some i => Some (S i)
      | None => if Ascii.eqb c ":" then Some 0%nat else None
      end
  end.

(** [s + n] for [n <= strlen(s)], and the first [n] bytes of [s]. *)
Definition str_drop (n : nat) (s : string) : string := String.substring n (String.length s - n) s.
Definition str_take (n : nat) (s : string) : string := String.substring 0 n s.

(** [strtoul(s, &end, 10)] as the C standard describes it: white space is
    skipped, a sign is accepted, the decimal digits that follow are the
    number; without a digit nothing is converted, the value is 0 and [end]
    is [s]; a number above [ULONG_MAX] gives [ULONG_MAX]; after a minus sign
    the value is negated as an [unsigned long].  The result is the value
    and the string [end] points to. *)
Definition isspace (c : ascii) : bool :=
  let n := nat_of_ascii c in
  ((n =? 32) || ((9 <=? n) && (n <=? 13)))%nat.

Definition digit_of (c : ascii) : option Z :=
  let n := Z.of_nat (nat_of_ascii c) in
  if (48 <=? n) && (n <=? 57) then Some (n - 48) else None.

Fixpoint skip_space (s : string) : string :=
  match s with
  | String c rest => if isspace c then skip_space rest else s
  | EmptyString => s
  end.

Fixpoint strtoul_digits (s : string) (acc : Z) (any : bool) : Z * bool * string :=
  match s with
  | String c rest =>
      match digit_of c with
      | Some d => strtoul_digits rest (10 * acc + d) true
      | None => (acc, any, s)
      end
  | EmptyString => (acc, any, s)
  end.

Definition strtoul10 (s : string) : Z * string :=
  let t := skip_space s in
  let '(neg, t) :=
    match t with
    | String c rest =>
        if Ascii.eqb c "-" then (true, rest)
        else if Ascii.eqb c "+" then (false, rest)
        else (false, t)
    | EmptyString => (false, t)
    end in
  let '(v, any, rest) := strtoul_digits t 0 false in
  if negb any then (0, s)
  else if ULONG_MAX <? v then (ULONG_MAX, rest)
  else if (neg : bool) then ((ULONG_MAX + 1 - v) mod (ULONG_MAX + 1), rest)
  else (v, rest).

(** ** External calls

    Every function the two files use without defining it.  The arguments
    are kept so that a trace tells what was done to which object. *)
Inductive ssh_option := SSH_OPTIONS_HOST | SSH_OPTIONS_PORT | SSH_OPTIONS_USER.

Inductive call : Type :=
  (* libc and the dynamic loader *)
  | calloc
  | free (p : Z)
  | write (fd : Z) (c : ascii)
  | printf (msg : string)
  | fprintf_stderr (msg : string)
  | gettimeofday
  | errno
  | dlopen (libname : string)
  | dlsym (dl_handle : Z) (sym_name : string)
  (* libssh: sessions *)
  | ssh_new
  | ssh_free (session : Z)
  | ssh_options_copy (src : Z)
  | ssh_options_set_str (session : Z) (opt : ssh_option) (value : string)
  | ssh_options_set_uint (session : Z) (opt : ssh_option) (value : Z)
  | ssh_connect (session : Z)
  | ssh_userauth_autopubkey (session : Z)
  | ssh_disconnect (session : Z)
  | ssh_get_error_code (session : Z)
  (* libssh: channels *)
  | ssh_channel_new (session : Z)
  | ssh_channel_open_session (channel : Z)
  | ssh_channel_request_pty (channel : Z)
  | ssh_channel_request_exec (channel : Z) (command : string)
  | ssh_set_channel_callbacks (channel : Z)
  | ssh_channel_write (channel : Z) (data : string)
  | ssh_channel_send_eof (channel : Z)
  | ssh_channel_poll (channel : Z) (is_stderr : Z)
  | ssh_channel_read_nonblocking (channel : Z) (count : Z) (is_stderr : Z)
  | ssh_channel_get_exit_status (channel : Z)
  | ssh_channel_close (channel : Z)
  | ssh_channel_free (channel : Z)
  | ssh_event_dopoll (channel : Z) (stdin_fd : Z) (timeout : Z)
  (* libssh: scp *)
  | ssh_scp_new (session : Z) (mode : Z) (location : string)
  | ssh_scp_init (scp : Z)
  | ssh_scp_close (scp : Z)
  | ssh_scp_free (scp : Z)
  | ssh_scp_pull_request (scp : Z)
  | ssh_scp_request_get_size (scp : Z)
  | ssh_scp_accept_request (scp : Z)
  | ssh_scp_push_file (scp : Z) (filename : string) (size : Z) (perms : Z)
  | ssh_scp_read (scp : Z) (size : Z)
  | ssh_scp_write (scp : Z) (data : string)
  | ssh_dirname (path : string)
  | ssh_basename (path : string)
  (* the iostream and target helpers of the library *)
  | twopence_iostream_set_blocking (stream : Z) (blocking : Z)
  | twopence_iostream_eof (stream : Z)
  | twopence_iostream_read (stream : Z) (count : Z)
  | twopence_iostream_write (stream : Z) (data : string)
  | twopence_iostream_poll (stream : Z)
  | twopence_iostream_filesize (stream : Z)
  | twopence_iostream_read_all (stream : Z)
  | twopence_iostream_wrap_buffer (bp : Z)
  | twopence_iostream_free (stream : Z)
  | twopence_target_putc (is_error : bool) (c : ascii).

(** What an external call gives back: its return value, what it stores
    through a pointer argument (a pointer, a second integer or bytes), and
    the remote exit signals libssh hands to the registered callback while
    the call runs. *)
Record reply := {
  ret : Z;
  out : Z;
  bytes : string;
  exit_signals : list string;
}.

Definition trace := list call.

(** The environment answers a call knowing the calls made before it. *)
Definition env := trace → call → reply.

(** A computation reads the environment and extends the trace. *)
Definition M (A : Type) : Type := env → trace → A * trace.

#[global] Instance M_ret : MRet M := λ A x _ h, (x, h).
#[global] Instance M_bind : MBind M :=
  λ A B f m e h, let '(a, h') := m e h in f a e h'.

Definition ext (c : call) : M reply := λ e h, (e h c, h ++ [c]).

(** A call of which only the return value is used. *)
Definition ext_ret (c : call) : M Z := r ← ext c; mret (ret r).

(** A call whose result is dropped. *)
Definition ext_ (c : call) : M unit := _ ← ext c; mret tt.

(** ** Types of [twopence.h] that the two files use *)

(** [twopence_status_t]. *)
Record twopence_status_t := {
  major : Z;
  minor : Z;
}.

(** [twopence_command_t]: [iostream] holds the three stream slots, each
    named by its address. *)
Record twopence_command_t := {
  command : option string;
  user : option string;
  timeout : Z;
  request_tty : bool;
  iostream_stdin : Z;
  iostream_stdout : Z;
  iostream_stderr : Z;
}.

(** [twopence_file_xfer_t]. *)
Record twopence_file_xfer_t := {
  xfer_user : option string;
  local_stream : Z;
  remote_name : string;
  remote_mode : Z;
}.

(** [twopence_output_t]; a value outside the enumeration is kept, as the
    switches of the sink have a path for it. *)
Inductive twopence_output_t :=
  | TWOPENCE_OUTPUT_NONE
  | TWOPENCE_OUTPUT_SCREEN
  | TWOPENCE_OUTPUT_BUFFER
  | TWOPENCE_OUTPUT_BUFFER_SEPARATELY
  | TWOPENCE_OUTPUT_other (mode : Z).

(** [struct twopence_buffer]: [tail] is the cursor, [end] the bound. *)
Record twopence_buffer := {
  tail : Z;
  end_ : Z;
}.

(** [struct twopence_sink]. *)
Record twopence_sink := {
  mode : twopence_output_t;
  outbuf : twopence_buffer;
  errbuf : twopence_buffer;
}.

(** [struct twopence_plugin], the function vector of a transport, over the
    type [T] of its targets.  The entries are those [ssh.c] fills in; an
    absent entry is [None].  An entry whose code loops takes the number of
    iterations it may run, and an entry gives [None] when the call does not
    return (the iterations are used up, or an [assert] stops the program). *)
Record twopence_plugin (T : Type) := {
  name : string;
  init : option (option string → M (option T));
  run_test : option (nat → T → twopence_command_t → twopence_status_t →
                     M (option (Z * T * twopence_status_t)));
  inject_file : option (nat → T → twopence_file_xfer_t → twopence_status_t →
                        M (option (Z * twopence_status_t)));
  extract_file : option (T → twopence_file_xfer_t → twopence_status_t →
                         M (option (Z * twopence_status_t)));
  exit_remote : option (T → M (Z * T));
  interrupt_command : option (T → M (Z * T));
  end_target : option (T → M unit);
}.
Arguments name {T}.
Arguments init {T}.
Arguments run_test {T}.
Arguments inject_file {T}.
Arguments extract_file {T}.
Arguments exit_remote {T}.
Arguments interrupt_command {T}.
Arguments end_target {T}.

(** What the dispatch layer reads of a target: [target->ops], the function
    vector it is bound to, and its address. *)
Class Target (T : Type) := {
  target_ops : T → twopence_plugin T;
  target_ptr : T → Z;
}.

(** Byte-addressed memory holding the caller's buffers. *)
Abbreviation mem := (gmap Z ascii).

Definition newline : string := String (ascii_of_nat 10) EmptyString.
Definition dquote : string := String (ascii_of_nat 34) EmptyString.

(** * library/twopence.c *)
Section twopence_c.
Context `{twopence_h}.

Definition twopence_plugin_type (plugin_name : string) : Z :=
  if String.eqb plugin_name "virtio" then TWOPENCE_PLUGIN_VIRTIO
  else if String.eqb plugin_name "ssh" then TWOPENCE_PLUGIN_SSH
  else if String.eqb plugin_name "serial" then TWOPENCE_PLUGIN_SERIAL
  else TWOPENCE_PLUGIN_UNKNOWN.

Definition twopence_plugin_name_is_valid (name : string) : bool :=
  negb (twopence_plugin_type name =? TWOPENCE_PLUGIN_UNKNOWN).

(** Splits ["plugin:specstring"].  The argument is [*target_spec_p]; the
    result is the returned plugin name and the new [*target_spec_p]. *)
Definition twopence_target_split (target_spec : option string)
  : option string * option string :=
  match target_spec with
  | None => (None, None)
  | Some plugin =>
      let len := strcspn_colon plugin in
      if (len =? 0)%nat then (None, Some plugin)
      else
        let '(plugin', rest) :=
          if (len <? String.length plugin)%nat
          then (str_take len plugin, Some (str_drop (S len) plugin))
          else (plugin, None) in
        if negb (twopence_plugin_name_is_valid plugin') then (None, rest)
        else (Some plugin', rest)
  end.

Definition twopence_load_library (plugin : string) : M Z :=
  let libname :=
    str_take 255 ("libtwopence_" +:+ plugin +:+ ".so." +:+ pretty TWOPENCE_API_MAJOR_VERSION) in
  dl_handle ← ext_ret (dlopen libname);
  if dl_handle =? NULL
  then _ ← ext (fprintf_stderr ("Cannot open shared library " +:+ dquote +:+ libname
                                 +:+ dquote +:+ newline));
       mret dl_handle
  else mret dl_handle.

Definition twopence_get_symbol (dl_handle : Z) (sym_name : string) : M Z :=
  ext_ret (dlsym dl_handle sym_name).

Section plugins.
Context {T : Type}.
(** The function vector stored at an address [dlsym] returned. *)
Variable plugin_at : Z → twopence_plugin T.

(** [handles] is the static array [plugin_dl_handles], zero initialised.
    The function vector is returned exactly when the return value is 0;
    every other return value is one of the negative result codes. *)
Definition __twopence_get_plugin_ops (name : string) (handles : gmap Z Z)
  : M (Z * option (twopence_plugin T) * gmap Z Z) :=
  let type := twopence_plugin_type name in
  if (type =? TWOPENCE_PLUGIN_UNKNOWN) || (__TWOPENCE_PLUGIN_MAX <=? type)
  then mret (TWOPENCE_UNKNOWN_PLUGIN, None, handles)
  else
    let dl_handle := default NULL (handles !! type) in
    '(dl_handle, handles, loaded) ←
      (if dl_handle =? NULL
       then dl_handle ← twopence_load_library name;
            if dl_handle =? NULL then mret (dl_handle, handles, false)
            else mret (dl_handle, <[type := dl_handle]> handles, true)
       else mret (dl_handle, handles, true));
    if negb loaded then mret (TWOPENCE_UNKNOWN_PLUGIN, None, handles)
    else
      plugin ← twopence_get_symbol dl_handle "twopence_plugin";
      plugin ← (if plugin =? NULL
                then twopence_get_symbol dl_handle
                       (str_take 127 ("twopence_" +:+ name +:+ "_ops"))
                else mret plugin);
      if plugin =? NULL
      then _ ← ext (fprintf_stderr ("plugin " +:+ dquote +:+ name +:+ dquote
                                     +:+ " does not provide a function vector" +:+ newline));
           mret (TWOPENCE_INCOMPATIBLE_PLUGIN, None, handles)
      else mret (0, Some (plugin_at plugin), handles).

Definition __twopence_target_new (target_spec : option string) (handles : gmap Z Z)
  : M (Z * option T * gmap Z Z) :=
  let '(name, target_spec) := twopence_target_split target_spec in
  match name with
  | None => mret (TWOPENCE_INVALID_TARGET_SPEC, None, handles)
  | Some name =>
      '(rc, plugin, handles) ← __twopence_get_plugin_ops name handles;
      if rc <? 0 then mret (rc, None, handles)
      else
        match plugin with
        | Some plugin =>
            match init plugin with
            | None => mret (TWOPENCE_INCOMPATIBLE_PLUGIN, None, handles)
            | Some init =>
                target ← init target_spec;
                match target with
                | None => mret (TWOPENCE_UNKNOWN_PLUGIN, None, handles)
                | Some target => mret (0, Some target, handles)
                end
            end
        | None => mret (rc, None, handles)
        end
  end.

(** The function works on a copy of the specification, which it releases
    at the end. *)
Definition twopence_target_new (target_spec : string) (handles : gmap Z Z)
  : M (Z * option T * gmap Z Z) :=
  __twopence_target_new (Some target_spec) handles.

End plugins.

(** The dispatchers whose entry of the function vector has the same
    signature in both files.  The other dispatchers of this file
    ([twopence_test_and_print_results] and its three siblings,
    [twopence_inject_file], [twopence_extract_file]) call entries that
    [ssh.c] does not fill in, or fills in with other arguments; they follow
    the same pattern and are left out, as is [twopence_tune_stdin]. *)
Section dispatch.
Context `{Target T}.

Definition twopence_target_free (target : T) : M unit :=
  match end_target (target_ops target) with
  | None => ext_ (free (target_ptr target))
  | Some f => f target
  end.

Definition twopence_exit_remote (target : T) : M (Z * T) :=
  match exit_remote (target_ops target) with
  | None => mret (TWOPENCE_NOT_SUPPORTED, target)
  | Some f => f target
  end.

Definition twopence_interrupt_command (target : T) : M (Z * T) :=
  match interrupt_command (target_ops target) with
  | None => mret (TWOPENCE_NOT_SUPPORTED, target)
  | Some f => f target
  end.

End dispatch.

(** The switch of [twopence_strerror]: the cases in their order. *)
Definition twopence_strerror (rc : Z) : string :=
  if rc =? TWOPENCE_PARAMETER_ERROR then "Invalid command parameter"
  else if rc =? TWOPENCE_OPEN_SESSION_ERROR
    then "Error opening the communication with the system under test"
  else if rc =? TWOPENCE_SEND_COMMAND_ERROR
    then "Error sending command to the system under test"
  else if rc =? TWOPENCE_FORWARD_INPUT_ERROR then "Error forwarding keyboard input"
  else if rc =? TWOPENCE_RECEIVE_RESULTS_ERROR then "Error receiving the results of action"
  else if rc =? TWOPENCE_LOCAL_FILE_ERROR then "Local error while transferring file"
  else if rc =? TWOPENCE_SEND_FILE_ERROR then "Error sending file to the system under test"
  else if rc =? TWOPENCE_REMOTE_FILE_ERROR then "Remote error while transferring file"
  else if rc =? TWOPENCE_RECEIVE_FILE_ERROR
    then "Error receiving file from the system under test"
  else if rc =? TWOPENCE_INTERRUPT_COMMAND_ERROR then "Failed to interrupt command"
  else if rc =? TWOPENCE_INVALID_TARGET_SPEC then "Invalid target spec"
  else if rc =? TWOPENCE_UNKNOWN_PLUGIN then "Unknown plugin"
  else if rc =? TWOPENCE_INCOMPATIBLE_PLUGIN then "Incompatible plugin"
  else "Unknow error".

Definition twopence_perror (msg : string) (rc : Z) : M unit :=
  ext_ (fprintf_stderr (msg +:+ ": " +:+ twopence_strerror rc +:+ "." +:+ newline)).

(** [O_NONBLOCK] of [fcntl.h] (Linux, octal 04000). *)
Definition O_NONBLOCK : Z := 2048.

(** [twopence_tune_stdin].  The two [fcntl] calls on the descriptor 0 are
    given as arguments: [getfl] is the answer of [F_GETFL], [setfl] the
    answer of [F_SETFL] to the flags it is handed.  The result is the
    return value and the flags handed to [F_SETFL], if it was called. *)
Definition twopence_tune_stdin (blocking : bool) (getfl : Z) (setfl : Z → Z)
  : Z * option Z :=
  let flags := getfl in
  if flags =? -1 then (-1, None)
  else
    let flags := Z.land flags (Z.lnot O_NONBLOCK) in
    let flags := if blocking then Z.lor flags O_NONBLOCK else flags in
    (setfl flags, Some flags).

(** *** Output handling *)

Definition __twopence_buffer_init (head size : Z) : twopence_buffer :=
  {| tail := head; end_ := head + size |}.

(** The [memset] of the whole sink to zero, followed by the store of the mode. *)
Definition twopence_sink_zero (mode : twopence_output_t) : twopence_sink :=
  {| mode := mode;
     outbuf := {| tail := NULL; end_ := NULL |};
     errbuf := {| tail := NULL; end_ := NULL |} |}.

Definition with_outbuf (sink : twopence_sink) (bp : twopence_buffer) : twopence_sink :=
  {| mode := mode sink; outbuf := bp; errbuf := errbuf sink |}.
Definition with_errbuf (sink : twopence_sink) (bp : twopence_buffer) : twopence_sink :=
  {| mode := mode sink; outbuf := outbuf sink; errbuf := bp |}.

Definition twopence_sink_init (mode : twopence_output_t) (outbuf errbuf bufsize : Z)
  : M twopence_sink :=
  let sink := twopence_sink_zero mode in
  match mode with
  | TWOPENCE_OUTPUT_NONE | TWOPENCE_OUTPUT_SCREEN => mret sink
  | TWOPENCE_OUTPUT_BUFFER =>
      if negb (outbuf =? NULL) && negb (bufsize =? 0)
      then mret (with_outbuf sink (__twopence_buffer_init outbuf bufsize))
      else _ ← ext (fprintf_stderr
                      ("twopence_sink_init: no buffer supplied for buffered output mode, falling back to OUTPUT_NONE"
                       +:+ newline));
           mret (twopence_sink_zero TWOPENCE_OUTPUT_NONE)
  | TWOPENCE_OUTPUT_BUFFER_SEPARATELY =>
      if negb (outbuf =? NULL) && negb (errbuf =? NULL) && negb (bufsize =? 0)
      then mret (with_errbuf (with_outbuf sink (__twopence_buffer_init outbuf bufsize))
                             (__twopence_buffer_init errbuf bufsize))
      else _ ← ext (fprintf_stderr
                      ("twopence_sink_init: no buffers supplied for separately buffered output mode, falling back to OUTPUT_NONE"
                       +:+ newline));
           mret (twopence_sink_zero TWOPENCE_OUTPUT_NONE)
  | TWOPENCE_OUTPUT_other m =>
      _ ← ext (fprintf_stderr
                 ("twopence_sink_init: unsupported output mode " +:+ pretty m
                  +:+ ", assuming OUTPUT_NONE" +:+ newline));
      mret (twopence_sink_zero TWOPENCE_OUTPUT_NONE)
  end.

Definition twopence_sink_init_none : twopence_sink :=
  twopence_sink_zero TWOPENCE_OUTPUT_NONE.

(** The result is the return value, the buffer and the memory. *)
Definition __twopence_buffer_putc (bp : twopence_buffer) (c : ascii) (m : mem)
  : Z * twopence_buffer * mem :=
  if end_ bp <=? tail bp then (0, bp, m)
  else (1, {| tail := tail bp + 1; end_ := end_ bp |}, <[tail bp := c]> m).

Definition __twopence_sink_write_stdout (sink : twopence_sink) (c : ascii) (m : mem)
  : M (Z * twopence_sink * mem) :=
  match mode sink with
  | TWOPENCE_OUTPUT_NONE => mret (0, sink, m)
  | TWOPENCE_OUTPUT_SCREEN =>
      written ← ext_ret (write 1 c);
      mret (if negb (written =? 1) then -1 else 0, sink, m)
  | TWOPENCE_OUTPUT_BUFFER | TWOPENCE_OUTPUT_BUFFER_SEPARATELY =>
      let '(written, bp, m) := __twopence_buffer_putc (outbuf sink) c m in
      mret (if negb (written =? 1) then -1 else 0, with_outbuf sink bp, m)
  | TWOPENCE_OUTPUT_other _ => mret (-1, sink, m)
  end.

Definition __twopence_sink_write_stderr (sink : twopence_sink) (c : ascii) (m : mem)
  : M (Z * twopence_sink * mem) :=
  match mode sink with
  | TWOPENCE_OUTPUT_NONE => mret (0, sink, m)
  | TWOPENCE_OUTPUT_SCREEN =>
      written ← ext_ret (write 2 c);
      mret (if negb (written =? 1) then -1 else 0, sink, m)
  | TWOPENCE_OUTPUT_BUFFER =>
      let '(written, bp, m) := __twopence_buffer_putc (outbuf sink) c m in
      mret (if negb (written =? 1) then -1 else 0, with_outbuf sink bp, m)
  | TWOPENCE_OUTPUT_BUFFER_SEPARATELY =>
      let '(written, bp, m) := __twopence_buffer_putc (errbuf sink) c m in
      mret (if negb (written =? 1) then -1 else 0, with_errbuf sink bp, m)
  | TWOPENCE_OUTPUT_other _ => mret (-1, sink, m)
  end.

Definition twopence_sink_putc (sink : twopence_sink) (is_error : bool) (c : ascii) (m : mem)
  : M (Z * twopence_sink * mem) :=
  if is_error then __twopence_sink_write_stderr sink c m
  else __twopence_sink_write_stdout sink c m.

(** One of the two [while (len--)] loops of [twopence_sink_write]. *)
Fixpoint twopence_sink_write_loop
    (putc : twopence_sink → ascii → mem → M (Z * twopence_sink * mem))
    (data : list ascii) (count : Z) (sink : twopence_sink) (m : mem)
  : M (Z * twopence_sink * mem) :=
  match data with
  | [] => mret (count, sink, m)
  | c :: data =>
      '(rc, sink, m) ← putc sink c m;
      if rc <? 0 then mret (rc, sink, m)
      else twopence_sink_write_loop putc data (count + 1) sink m
  end.

Definition twopence_sink_write (sink : twopence_sink) (is_error : bool)
    (data : list ascii) (m : mem) : M (Z * twopence_sink * mem) :=
  if is_error then twopence_sink_write_loop __twopence_sink_write_stderr data 0 sink m
  else twopence_sink_write_loop __twopence_sink_write_stdout data 0 sink m.

End twopence_c.

(** * library/ssh.c *)

(** ** Constants of libssh, errno.h, poll.h and signal.h (Linux) *)
Definition SSH_OK : Z := 0.
Definition SSH_ERROR : Z := -1.
Definition SSH_EOF : Z := -127.
Definition SSH_AUTH_SUCCESS : Z := 0.
Definition SSH_SCP_WRITE : Z := 0.
Definition SSH_SCP_READ : Z := 1.
Definition SSH_SCP_RECURSIVE : Z := 16.
Definition SSH_SCP_REQUEST_NEWDIR : Z := 1.
Definition SSH_SCP_REQUEST_NEWFILE : Z := 2.
Definition SSH_SCP_REQUEST_EOF : Z := 3.
Definition EAGAIN : Z := 11.
Definition EFAULT : Z := 14.
Definition POLLIN : Z := 1.
Definition POLLHUP : Z := 16.

Definition NSIG : Z := 65.
Definition SIGHUP : Z := 1.
Definition SIGINT : Z := 2.
Definition SIGQUIT : Z := 3.
Definition SIGILL : Z := 4.
Definition SIGTRAP : Z := 5.
Definition SIGABRT : Z := 6.
Definition SIGIOT : Z := 6.
Definition SIGBUS : Z := 7.
Definition SIGFPE : Z := 8.
Definition SIGKILL : Z := 9.
Definition SIGUSR1 : Z := 10.
Definition SIGSEGV : Z := 11.
Definition SIGUSR2 : Z := 12.
Definition SIGPIPE : Z := 13.
Definition SIGALRM : Z := 14.
Definition SIGTERM : Z := 15.
Definition SIGSTKFLT : Z := 16.
Definition SIGCHLD : Z := 17.
Definition SIGCONT : Z := 18.
Definition SIGSTOP : Z := 19.
Definition SIGTSTP : Z := 20.
Definition SIGTTIN : Z := 21.
Definition SIGTTOU : Z := 22.
Definition SIGURG : Z := 23.
Definition SIGXCPU : Z := 24.
Definition SIGXFSZ : Z := 25.
Definition SIGVTALRM : Z := 26.
Definition SIGPROF : Z := 27.
Definition SIGWINCH : Z := 28.
Definition SIGIO : Z := 29.
Definition SIGPWR : Z := 30.
Definition SIGSYS : Z := 31.

Definition BUFFER_SIZE : Z := 16384.

(** ** Data *)

(** The [stdin] member of a transaction; [pfd] is flattened. *)
Record twopence_ssh_stdin := {
  stdin_stream : Z;
  pfd_fd : Z;
  pfd_events : Z;
  pfd_revents : Z;
  stdin_eof : bool;
  was_blocking : Z;
}.

(** [struct twopence_ssh_output]. *)
Record twopence_ssh_output := {
  index : Z;
  stream : Z;
  eof : bool;
}.

Record timeval := {
  tv_sec : Z;
  tv_usec : Z;
}.

(** [struct twopence_ssh_transaction].
    - [addr] is the address [calloc] gave the structure.
    - [handle], the back pointer to the target, is kept as the target's
      session template, the one field read through it; [None] is [NULL].
    - [status_ret] tells whether the pointer is set; when it is, it points
      to the caller's status, which the functions take and give back.
    - [callbacks_size] is [callbacks.size]. *)
Record twopence_ssh_transaction_t := {
  addr : Z;
  handle : option Z;
  session : Z;
  channel : Z;
  exception : Z;
  status_ret : bool;
  stdin : twopence_ssh_stdin;
  stdout : twopence_ssh_output;
  stderr : twopence_ssh_output;
  command_timeout : timeval;
  eof_sent : bool;
  use_tty : bool;
  interrupted : bool;
  exit_signal : Z;
  callbacks_size : Z;
}.

(** [struct twopence_scp_transaction]. *)
Record twopence_scp_transaction_t := {
  scp_handle : option Z;
  scp_session : Z;
  scp : Z;
  scp_local_stream : Z;
  remaining : Z;
}.

(** [struct twopence_ssh_target]; [target_addr] is the address [calloc] gave
    it, [base.ops] is given by the [Target] instance below. *)
Record twopence_ssh_target := {
  target_addr : Z;
  base_plugin_type : Z;
  base_current_io : Z;
  template : Z;
  foreground : option twopence_ssh_transaction_t;
}.

(** Field updates. *)
Definition set_session (t : twopence_ssh_transaction_t) (v : Z) :=
  {| addr := addr t; handle := handle t; session := v; channel := channel t; exception := exception t;
     status_ret := status_ret t; stdin := stdin t; stdout := stdout t; stderr := stderr t;
     command_timeout := command_timeout t; eof_sent := eof_sent t; use_tty := use_tty t;
     interrupted := interrupted t; exit_signal := exit_signal t;
     callbacks_size := callbacks_size t |}.
Definition set_channel (t : twopence_ssh_transaction_t) (v : Z) :=
  {| addr := addr t; handle := handle t; session := session t; channel := v; exception := exception t;
     status_ret := status_ret t; stdin := stdin t; stdout := stdout t; stderr := stderr t;
     command_timeout := command_timeout t; eof_sent := eof_sent t; use_tty := use_tty t;
     interrupted := interrupted t; exit_signal := exit_signal t;
     callbacks_size := callbacks_size t |}.
Definition set_exception (t : twopence_ssh_transaction_t) (v : Z) :=
  {| addr := addr t; handle := handle t; session := session t; channel := channel t; exception := v;
     status_ret := status_ret t; stdin := stdin t; stdout := stdout t; stderr := stderr t;
     command_timeout := command_timeout t; eof_sent := eof_sent t; use_tty := use_tty t;
     interrupted := interrupted t; exit_signal := exit_signal t;
     callbacks_size := callbacks_size t |}.
Definition set_status_ret (t : twopence_ssh_transaction_t) (v : bool) :=
  {| addr := addr t; handle := handle t; session := session t; channel := channel t; exception := exception t;
     status_ret := v; stdin := stdin t; stdout := stdout t; stderr := stderr t;
     command_timeout := command_timeout t; eof_sent := eof_sent t; use_tty := use_tty t;
     interrupted := interrupted t; exit_signal := exit_signal t;
     callbacks_size := callbacks_size t |}.
Definition set_stdin (t : twopence_ssh_transaction_t) (v : twopence_ssh_stdin) :=
  {| addr := addr t; handle := handle t; session := session t; channel := channel t; exception := exception t;
     status_ret := status_ret t; stdin := v; stdout := stdout t; stderr := stderr t;
     command_timeout := command_timeout t; eof_sent := eof_sent t; use_tty := use_tty t;
     interrupted := interrupted t; exit_signal := exit_signal t;
     callbacks_size := callbacks_size t |}.
Definition set_stdout (t : twopence_ssh_transaction_t) (v : twopence_ssh_output) :=
  {| addr := addr t; handle := handle t; session := session t; channel := channel t; exception := exception t;
     status_ret := status_ret t; stdin := stdin t; stdout := v; stderr := stderr t;
     command_timeout := command_timeout t; eof_sent := eof_sent t; use_tty := use_tty t;
     interrupted := interrupted t; exit_signal := exit_signal t;
     callbacks_size := callbacks_size t |}.
Definition set_stderr (t : twopence_ssh_transaction_t) (v : twopence_ssh_output) :=
  {| addr := addr t; handle := handle t; session := session t; channel := channel t; exception := exception t;
     status_ret := status_ret t; stdin := stdin t; stdout := stdout t; stderr := v;
     command_timeout := command_timeout t; eof_sent := eof_sent t; use_tty := use_tty t;
     interrupted := interrupted t; exit_signal := exit_signal t;
     callbacks_size := callbacks_size t |}.
Definition set_command_timeout (t : twopence_ssh_transaction_t) (v : timeval) :=
  {| addr := addr t; handle := handle t; session := session t; channel := channel t; exception := exception t;
     status_ret := status_ret t; stdin := stdin t; stdout := stdout t; stderr := stderr t;
     command_timeout := v; eof_sent := eof_sent t; use_tty := use_tty t;
     interrupted := interrupted t; exit_signal := exit_signal t;
     callbacks_size := callbacks_size t |}.
Definition set_eof_sent (t : twopence_ssh_transaction_t) (v : bool) :=
  {| addr := addr t; handle := handle t; session := session t; channel := channel t; exception := exception t;
     status_ret := status_ret t; stdin := stdin t; stdout := stdout t; stderr := stderr t;
     command_timeout := command_timeout t; eof_sent := v; use_tty := use_tty t;
     interrupted := interrupted t; exit_signal := exit_signal t;
     callbacks_size := callbacks_size t |}.
Definition set_use_tty (t : twopence_ssh_transaction_t) (v : bool) :=
  {| addr := addr t; handle := handle t; session := session t; channel := channel t; exception := exception t;
     status_ret := status_ret t; stdin := stdin t; stdout := stdout t; stderr := stderr t;
     command_timeout := command_timeout t; eof_sent := eof_sent t; use_tty := v;
     interrupted := interrupted t; exit_signal := exit_signal t;
     callbacks_size := callbacks_size t |}.
Definition set_interrupted (t : twopence_ssh_transaction_t) (v : bool) :=
  {| addr := addr t; handle := handle t; session := session t; channel := channel t; exception := exception t;
     status_ret := status_ret t; stdin := stdin t; stdout := stdout t; stderr := stderr t;
     command_timeout := command_timeout t; eof_sent := eof_sent t; use_tty := use_tty t;
     interrupted := v; exit_signal := exit_signal t;
     callbacks_size := callbacks_size t |}.
Definition set_exit_signal (t : twopence_ssh_transaction_t) (v : Z) :=
  {| addr := addr t; handle := handle t; session := session t; channel := channel t; exception := exception t;
     status_ret := status_ret t; stdin := stdin t; stdout := stdout t; stderr := stderr t;
     command_timeout := command_timeout t; eof_sent := eof_sent t; use_tty := use_tty t;
     interrupted := interrupted t; exit_signal := v;
     callbacks_size := callbacks_size t |}.
Definition set_callbacks_size (t : twopence_ssh_transaction_t) (v : Z) :=
  {| addr := addr t; handle := handle t; session := session t; channel := channel t; exception := exception t;
     status_ret := status_ret t; stdin := stdin t; stdout := stdout t; stderr := stderr t;
     command_timeout := command_timeout t; eof_sent := eof_sent t; use_tty := use_tty t;
     interrupted := interrupted t; exit_signal := exit_signal t;
     callbacks_size := v |}.

Definition set_stdin_eof (i : twopence_ssh_stdin) (v : bool) :=
  {| stdin_stream := stdin_stream i; pfd_fd := pfd_fd i; pfd_events := pfd_events i;
     pfd_revents := pfd_revents i; stdin_eof := v; was_blocking := was_blocking i |}.
Definition set_pfd_fd (i : twopence_ssh_stdin) (v : Z) :=
  {| stdin_stream := stdin_stream i; pfd_fd := v; pfd_events := pfd_events i;
     pfd_revents := pfd_revents i; stdin_eof := stdin_eof i; was_blocking := was_blocking i |}.
Definition set_pfd_events (i : twopence_ssh_stdin) (v : Z) :=
  {| stdin_stream := stdin_stream i; pfd_fd := pfd_fd i; pfd_events := v;
     pfd_revents := pfd_revents i; stdin_eof := stdin_eof i; was_blocking := was_blocking i |}.
Definition set_pfd_revents (i : twopence_ssh_stdin) (v : Z) :=
  {| stdin_stream := stdin_stream i; pfd_fd := pfd_fd i; pfd_events := pfd_events i;
     pfd_revents := v; stdin_eof := stdin_eof i; was_blocking := was_blocking i |}.
Definition set_eof (o : twopence_ssh_output) (v : bool) :=
  {| index := index o; stream := stream o; eof := v |}.

Definition set_foreground (h : twopence_ssh_target) (v : option twopence_ssh_transaction_t) :=
  {| target_addr := target_addr h; base_plugin_type := base_plugin_type h; base_current_io := base_current_io h;
     template := template h; foreground := v |}.
Definition set_base_current_io (h : twopence_ssh_target) (v : Z) :=
  {| target_addr := target_addr h; base_plugin_type := base_plugin_type h; base_current_io := v;
     template := template h; foreground := foreground h |}.

Definition set_scp_session (t : twopence_scp_transaction_t) (v : Z) :=
  {| scp_handle := scp_handle t; scp_session := v; scp := scp t;
     scp_local_stream := scp_local_stream t; remaining := remaining t |}.
Definition set_scp (t : twopence_scp_transaction_t) (v : Z) :=
  {| scp_handle := scp_handle t; scp_session := scp_session t; scp := v;
     scp_local_stream := scp_local_stream t; remaining := remaining t |}.
Definition set_scp_local_stream (t : twopence_scp_transaction_t) (v : Z) :=
  {| scp_handle := scp_handle t; scp_session := scp_session t; scp := scp t;
     scp_local_stream := v; remaining := remaining t |}.
Definition set_remaining (t : twopence_scp_transaction_t) (v : Z) :=
  {| scp_handle := scp_handle t; scp_session := scp_session t; scp := scp t;
     scp_local_stream := scp_local_stream t; remaining := v |}.
Definition set_major (s : twopence_status_t) (v : Z) := {| major := v; minor := minor s |}.
Definition set_minor (s : twopence_status_t) (v : Z) := {| major := major s; minor := v |}.

Section ssh_c.
Context `{twopence_h}.

(** ** Lower layer *)

Definition __twopence_ssh_output (c : ascii) : M Z :=
  ext_ret (twopence_target_putc false c).

Definition __twopence_ssh_error (c : ascii) : M Z :=
  ext_ret (twopence_target_putc true c).

(** The initialiser of [signames], entry by entry in the order of the
    source. *)
Definition signames_init : list (Z * string) :=
  [ (SIGHUP, "HUP"); (SIGINT, "INT"); (SIGQUIT, "QUIT"); (SIGILL, "ILL");
    (SIGTRAP, "TRAP"); (SIGABRT, "ABRT"); (SIGIOT, "IOT"); (SIGBUS, "BUS");
    (SIGFPE, "FPE"); (SIGKILL, "KILL"); (SIGUSR1, "USR1"); (SIGSEGV, "SEGV");
    (SIGUSR2, "USR2"); (SIGPIPE, "PIPE"); (SIGALRM, "ALRM"); (SIGTERM, "TERM");
    (SIGSTKFLT, "STKFLT"); (SIGCHLD, "CHLD"); (SIGCONT, "CONT"); (SIGSTOP, "STOP");
    (SIGTSTP, "TSTP"); (SIGTTIN, "TTIN"); (SIGTTOU, "TTOU"); (SIGURG, "URG");
    (SIGXCPU, "XCPU"); (SIGXFSZ, "XFSZ"); (SIGVTALRM, "VTALRM"); (SIGPROF, "PROF");
    (SIGWINCH, "WINCH"); (SIGIO, "IO"); (SIGPWR, "PWR"); (SIGSYS, "SYS") ].

(** [signames[NSIG]]: an array of [NSIG] null pointers in which each
    designated initialiser is stored in turn, a later one for the same
    index replacing an earlier one. *)
Definition signames : list (option string) :=
  foldl (λ tbl '(signo, name), <[Z.to_nat signo := Some name]> tbl)
        (replicate (Z.to_nat NSIG) None) signames_init.

(** The loop of the callback from [signo] on, over the rest of the table. *)
Fixpoint signames_lookup (tbl : list (option string)) (signo : Z) (signal : string)
  : option Z :=
  match tbl with
  | [] => None
  | name :: tbl =>
      match name with
      | Some name =>
          if String.eqb name signal then Some signo
          else signames_lookup tbl (signo + 1) signal
      | None => signames_lookup tbl (signo + 1) signal
      end
  end.

Definition __twopence_ssh_exit_signal_callback
    (trans : twopence_ssh_transaction_t) (signal : string) : twopence_ssh_transaction_t :=
  match signames_lookup signames 0 signal with
  | Some signo => set_exit_signal trans signo
  | None => set_exit_signal trans (-1)
  end.

(** A libssh call on the channel of a transaction: while it runs libssh
    hands the exit signals it received to the callback. *)
Definition chan (trans : twopence_ssh_transaction_t) (c : call)
  : M (reply * twopence_ssh_transaction_t) :=
  r ← ext c;
  mret (r, foldl __twopence_ssh_exit_signal_callback trans (exit_signals r)).

Definition ctrl_d : string := String (ascii_of_nat 4) EmptyString.
Definition ctrl_c : string := String (ascii_of_nat 3) EmptyString.

Definition __twopence_ssh_transaction_send_eof (trans : twopence_ssh_transaction_t)
  : M (Z * twopence_ssh_transaction_t) :=
  if (channel trans =? NULL) || eof_sent trans then mret (SSH_OK, trans)
  else
    '(rc, trans) ←
      (if use_tty trans
       then '(r, trans) ← chan trans (ssh_channel_write (channel trans) ctrl_d);
            mret (ret r, trans)
       else mret (SSH_OK, trans));
    '(rc, trans) ←
      (if rc =? SSH_OK
       then '(r, trans) ← chan trans (ssh_channel_send_eof (channel trans));
            mret (ret r, trans)
       else mret (rc, trans));
    if rc =? SSH_OK then mret (rc, set_eof_sent trans true)
    else mret (rc, trans).

Definition __twopence_ssh_transaction_close_channel (trans : twopence_ssh_transaction_t)
  : M twopence_ssh_transaction_t :=
  trans ← (if negb (channel trans =? NULL)
           then _ ← ext (ssh_channel_close (channel trans));
                _ ← ext (ssh_channel_free (channel trans));
                mret (set_channel trans NULL)
           else mret trans);
  if negb (session trans =? NULL)
  then _ ← ext (ssh_disconnect (session trans));
       _ ← ext (ssh_free (session trans));
       mret (set_session trans NULL)
  else mret trans.

(** What [calloc] leaves at address [p]. *)
Definition transaction_zero (p : Z) : twopence_ssh_transaction_t :=
  {| addr := p; handle := None; session := NULL; channel := NULL; exception := 0;
     status_ret := false;
     stdin := {| stdin_stream := NULL; pfd_fd := 0; pfd_events := 0; pfd_revents := 0;
                 stdin_eof := false; was_blocking := 0 |};
     stdout := {| index := 0; stream := NULL; eof := false |};
     stderr := {| index := 0; stream := NULL; eof := false |};
     command_timeout := {| tv_sec := 0; tv_usec := 0 |};
     eof_sent := false; use_tty := false; interrupted := false; exit_signal := 0;
     callbacks_size := 0 |}.

(** [handle] is the target's session template; [gettimeofday] answers the
    seconds as its value and the microseconds through [out]. *)
Definition __twopence_ssh_transaction_new (handle : Z) (timeout : Z)
  : M (option twopence_ssh_transaction_t) :=
  p ← ext_ret calloc;
  if p =? NULL then mret None
  else
    let trans := transaction_zero p in
    let trans :=
      {| addr := p; handle := Some handle; session := session trans; channel := NULL;
         exception := exception trans; status_ret := status_ret trans;
         stdin := set_pfd_fd (stdin trans) (-1);
         stdout := stdout trans; stderr := stderr trans;
         command_timeout := command_timeout trans; eof_sent := eof_sent trans;
         use_tty := use_tty trans; interrupted := interrupted trans;
         exit_signal := exit_signal trans; callbacks_size := callbacks_size trans |} in
    now ← ext gettimeofday;
    mret (Some (set_command_timeout trans
                  {| tv_sec := ret now + timeout; tv_usec := out now |})).

Definition __twopence_ssh_transaction_free (trans : twopence_ssh_transaction_t)
  : M twopence_ssh_transaction_t :=
  _ ← (if negb (stdin_stream (stdin trans) =? NULL) && (0 <=? was_blocking (stdin trans))
       then ext_ (twopence_iostream_set_blocking (stdin_stream (stdin trans))
                                                 (was_blocking (stdin trans)))
       else mret tt);
  trans ← __twopence_ssh_transaction_close_channel trans;
  _ ← ext (free (addr trans));
  mret trans.

Definition __twopence_ssh_transaction_fail (trans : twopence_ssh_transaction_t) (error : Z)
  : twopence_ssh_transaction_t :=
  if exception trans =? 0 then set_exception trans error else trans.

Definition __twopence_ssh_transaction_setup_stdio (trans : twopence_ssh_transaction_t)
    (stdin_stream stdout_stream stderr_stream : Z) : M twopence_ssh_transaction_t :=
  trans ← (if negb (stdin_stream =? NULL)
           then was ← ext_ret (twopence_iostream_set_blocking stdin_stream 0);
                mret (set_stdin trans
                        {| stdin_stream := stdin_stream; pfd_fd := -1;
                           pfd_events := pfd_events (stdin trans); pfd_revents := 0;
                           stdin_eof := stdin_eof (stdin trans); was_blocking := was |})
           else mret trans);
  let trans := set_stdout trans
                 {| index := 0; stream := stdout_stream; eof := eof (stdout trans) |} in
  let trans := set_stderr trans
                 {| index := 1; stream := stderr_stream; eof := eof (stderr trans) |} in
  mret trans.

(** [ssh_callbacks_init] stores the size of the structure, which is not
    zero; the model stores 1. *)
Definition __twopence_ssh_init_callbacks (trans : twopence_ssh_transaction_t)
  : M twopence_ssh_transaction_t :=
  let trans := if callbacks_size trans =? 0 then set_callbacks_size trans 1 else trans in
  if channel trans =? NULL then mret trans
  else _ ← ext (ssh_set_channel_callbacks (channel trans)); mret trans.

(** Opens a session as some user, from the session template of the
    target.  [ssh_options_copy] is given the address of [session]: the
    [out] of its reply is the value of [session] after the call. *)
Definition __twopence_ssh_open_session (template : Z) (username : option string) : M Z :=
  let username := default "root" username in
  session ← ext_ret ssh_new;
  if session =? NULL then mret NULL
  else
    r ← ext (ssh_options_copy template);
    let session := out r in
    if ret r <? 0 then _ ← ext (ssh_free session); mret NULL
    else
      rc ← ext_ret (ssh_options_set_str session SSH_OPTIONS_USER username);
      if rc <? 0 then _ ← ext (ssh_free session); mret NULL
      else
        rc ← ext_ret (ssh_connect session);
        if negb (rc =? SSH_OK) then _ ← ext (ssh_free session); mret NULL
        else
          rc ← ext_ret (ssh_userauth_autopubkey session);
          if negb (rc =? SSH_AUTH_SUCCESS)
          then _ ← ext (ssh_disconnect session); _ ← ext (ssh_free session); mret NULL
          else mret session.

Definition __twopence_ssh_transaction_open_session (trans : twopence_ssh_transaction_t)
    (username : option string) : M (Z * twopence_ssh_transaction_t) :=
  match handle trans with
  | None => mret (TWOPENCE_OPEN_SESSION_ERROR, trans)
  | Some template =>
      session ← __twopence_ssh_open_session template username;
      let trans := set_session trans session in
      if session =? NULL then mret (TWOPENCE_OPEN_SESSION_ERROR, trans)
      else
        channel ← ext_ret (ssh_channel_new session);
        let trans := set_channel trans channel in
        if channel =? NULL then mret (TWOPENCE_OPEN_SESSION_ERROR, trans)
        else
          rc ← ext_ret (ssh_channel_open_session channel);
          if negb (rc =? SSH_OK) then mret (TWOPENCE_OPEN_SESSION_ERROR, trans)
          else mret (0, trans)
  end.

Definition __twopence_ssh_transaction_execute_command (trans : twopence_ssh_transaction_t)
    (cmd : twopence_command_t) : M (Z * twopence_ssh_transaction_t) :=
  if channel trans =? NULL then mret (TWOPENCE_OPEN_SESSION_ERROR, trans)
  else
    trans ← __twopence_ssh_init_callbacks trans;
    '(pty_ok, trans) ←
      (if request_tty cmd
       then '(r, trans) ← chan trans (ssh_channel_request_pty (channel trans));
            if negb (ret r =? SSH_OK) then mret (false, trans)
            else mret (true, set_use_tty trans true)
       else mret (true, trans));
    if negb pty_ok
    then trans ← __twopence_ssh_transaction_free trans;
         mret (TWOPENCE_OPEN_SESSION_ERROR, trans)
    else
      trans ← __twopence_ssh_transaction_setup_stdio trans
                (iostream_stdin cmd) (iostream_stdout cmd) (iostream_stderr cmd);
      '(r, trans) ← chan trans (ssh_channel_request_exec (channel trans)
                                  (default "" (command cmd)));
      if negb (ret r =? SSH_OK)
      then trans ← __twopence_ssh_transaction_free trans;
           mret (TWOPENCE_SEND_COMMAND_ERROR, trans)
      else mret (0, set_status_ret trans true).

(** [status] is the caller's status, the object [trans->status_ret] points
    to when it is set. *)
Definition __twopence_ssh_transaction_get_exit_status (trans : twopence_ssh_transaction_t)
    (status : twopence_status_t)
  : M (Z * twopence_ssh_transaction_t * twopence_status_t) :=
  if negb (status_ret trans) then mret (0, trans, status)
  else if channel trans =? NULL then mret (0, trans, status)
  else
    '(rc, trans) ← __twopence_ssh_transaction_send_eof trans;
    if rc =? SSH_ERROR
    then mret (-1, __twopence_ssh_transaction_fail trans TWOPENCE_RECEIVE_RESULTS_ERROR, status)
    else
      '(r, trans) ← chan trans (ssh_channel_get_exit_status (channel trans));
      let status := set_minor status (ret r) in
      let status :=
        if (minor status =? SSH_ERROR) && negb (exit_signal trans =? 0)
        then {| major := EFAULT; minor := exit_signal trans |}
        else status in
      mret (0, set_status_ret trans false, status).

(** ** Middle layer *)

Definition __twopence_ssh_transaction_mark_stdin_eof (trans : twopence_ssh_transaction_t)
  : M (Z * twopence_ssh_transaction_t) :=
  let trans := set_stdin trans (set_stdin_eof (stdin trans) true) in
  '(rc, trans) ← __twopence_ssh_transaction_send_eof trans;
  if rc =? SSH_ERROR then mret (-1, trans)
  else mret (0, set_stdin trans (set_pfd_fd (stdin trans) (-1))).

(** Reads from stdin and forwards to the remote command. *)
Definition __twopence_ssh_transaction_forward_stdin (trans : twopence_ssh_transaction_t)
  : M (Z * twopence_ssh_transaction_t) :=
  let stream := stdin_stream (stdin trans) in
  at_eof ← (if stream =? NULL then mret true
            else e ← ext_ret (twopence_iostream_eof stream); mret (negb (e =? 0)));
  if (at_eof : bool) then __twopence_ssh_transaction_mark_stdin_eof trans
  else
    r ← ext (twopence_iostream_read stream BUFFER_SIZE);
    let size := ret r in
    if size <? 0
    then err ← ext_ret errno;
         if negb (err =? EAGAIN) then mret (-1, trans) else mret (0, trans)
    else if size =? 0 then __twopence_ssh_transaction_mark_stdin_eof trans
    else
      '(w, trans) ← chan trans (ssh_channel_write (channel trans)
                                  (str_take (Z.to_nat size) (bytes r)));
      if negb (ret w =? size) then mret (-1, trans) else mret (0, trans).

(** [out] is [&trans->stdout] when [is_stderr] is false, [&trans->stderr]
    otherwise. *)
Definition __twopence_ssh_transaction_forward_output (trans : twopence_ssh_transaction_t)
    (is_stderr : bool) : M (Z * twopence_ssh_transaction_t) :=
  let out := if is_stderr then stderr trans else stdout trans in
  '(p, trans) ← chan trans (ssh_channel_poll (channel trans) (index out));
  if negb (ret p =? 0)
  then
    '(r, trans) ← chan trans (ssh_channel_read_nonblocking (channel trans)
                                BUFFER_SIZE (index out));
    let size := ret r in
    if size =? SSH_ERROR
    then mret (-1, __twopence_ssh_transaction_fail trans TWOPENCE_RECEIVE_RESULTS_ERROR)
    else
      let trans :=
        if size =? SSH_EOF
        then (if is_stderr then set_stderr trans (set_eof (stderr trans) true)
              else set_stdout trans (set_eof (stdout trans) true))
        else trans in
      if (0 <? size) && negb (stream out =? NULL)
      then w ← ext_ret (twopence_iostream_write (stream out)
                          (str_take (Z.to_nat size) (bytes r)));
           if w <? 0
           then mret (-1, __twopence_ssh_transaction_fail trans TWOPENCE_RECEIVE_RESULTS_ERROR)
           else mret (0, trans)
      else mret (0, trans)
  else mret (0, trans).

(** The [while (!trans->stdin.eof)] loop of
    [__twopence_ssh_transaction_poll_stdin], for at most [fuel] iterations.
    [twopence_iostream_poll] answers [n] and, when [n > 0], the descriptor
    it stored in [pfd] through [out]. *)
Fixpoint poll_stdin_loop (fuel : nat) (trans : twopence_ssh_transaction_t)
  : M (option (Z * twopence_ssh_transaction_t)) :=
  match fuel with
  | O => mret None
  | S fuel =>
      if stdin_eof (stdin trans) then mret (Some (0, trans))
      else if stdin_stream (stdin trans) =? NULL
      then '(_, trans) ← __twopence_ssh_transaction_mark_stdin_eof trans;
           mret (Some (0, trans))
      else
        r ← ext (twopence_iostream_poll (stdin_stream (stdin trans)));
        let n := ret r in
        if n =? 0
        then '(rc, trans) ← __twopence_ssh_transaction_forward_stdin trans;
             if rc <? 0
             then mret (Some (-1, __twopence_ssh_transaction_fail trans
                                    TWOPENCE_FORWARD_INPUT_ERROR))
             else poll_stdin_loop fuel trans
        else if n <? 0
        then '(_, trans) ← __twopence_ssh_transaction_mark_stdin_eof trans;
             mret (Some (0, trans))
        else
          let trans := set_stdin trans
                         (set_pfd_events (set_pfd_fd (stdin trans) (out r)) POLLIN) in
          if pfd_fd (stdin trans) <? 0 then mret None
          else mret (Some (0, trans))
  end.

Definition __twopence_ssh_transaction_poll_stdin (fuel : nat)
    (trans : twopence_ssh_transaction_t) : M (option (Z * twopence_ssh_transaction_t)) :=
  let trans := set_stdin trans (set_pfd_fd (set_pfd_events (stdin trans) 0) (-1)) in
  poll_stdin_loop fuel trans.

(** [None] is [false]; otherwise the new value of [*msec]. *)
Definition __twopence_ssh_check_timeout (now expires : timeval) (msec : Z) : option Z :=
  if (tv_sec expires <? tv_sec now)
     || ((tv_sec expires =? tv_sec now) && (tv_usec expires <? tv_usec now))
  then None
  else
    let until :=
      if tv_usec expires - tv_usec now <? 0
      then {| tv_sec := tv_sec expires - tv_sec now - 1;
              tv_usec := tv_usec expires - tv_usec now + 1000000 |}
      else {| tv_sec := tv_sec expires - tv_sec now;
              tv_usec := tv_usec expires - tv_usec now |} in
    let until_ms := 1000 * tv_sec until + tv_usec until ÷ 1000 in
    if (msec <? 0) || (until_ms <? msec) then Some (to_int until_ms) else Some msec.

(** The body of the [do ... while (true)] loop of [__twopence_ssh_poll], for
    at most [fuel] iterations.  The event object lives for one
    [ssh_event_dopoll], which is called with what was added to it; when
    the descriptor of stdin is ready libssh runs [__twopence_ssh_stdin_cb],
    with the [revents] given through [out]. *)
Fixpoint poll_loop (fuel : nat) (trans : twopence_ssh_transaction_t)
    (status : twopence_status_t)
  : M (option (Z * twopence_ssh_transaction_t * twopence_status_t)) :=
  match fuel with
  | O => mret None
  | S fuel =>
      '(rc, trans) ←
        (if negb (Z.land (pfd_revents (stdin trans)) (Z.lor POLLIN POLLHUP) =? 0)
         then __twopence_ssh_transaction_forward_stdin trans
         else mret (0, trans));
      if rc <? 0
      then mret (Some (-1, __twopence_ssh_transaction_fail trans
                             TWOPENCE_FORWARD_INPUT_ERROR, status))
      else
        let trans := set_stdin trans (set_pfd_revents (stdin trans) 0) in
        '(rc, trans) ← __twopence_ssh_transaction_forward_output trans false;
        if rc <? 0 then mret (Some (-1, trans, status))
        else
          '(rc, trans) ← __twopence_ssh_transaction_forward_output trans true;
          if rc <? 0 then mret (Some (-1, trans, status))
          else if eof (stdout trans) && eof (stderr trans)
          then r ← __twopence_ssh_transaction_get_exit_status trans status; mret (Some r)
          else
            now ← ext gettimeofday;
            match __twopence_ssh_check_timeout
                    {| tv_sec := ret now; tv_usec := out now |}
                    (command_timeout trans) (-1) with
            | None =>
                mret (Some (-1, __twopence_ssh_transaction_fail trans
                                  TWOPENCE_COMMAND_TIMEOUT_ERROR, status))
            | Some timeout =>
                '(_, trans) ←
                  (if stdin_stream (stdin trans) =? NULL
                   then __twopence_ssh_transaction_mark_stdin_eof trans
                   else mret (0, trans));
                '(r, trans) ← chan trans (ssh_event_dopoll (channel trans)
                                           (pfd_fd (stdin trans)) timeout);
                let trans :=
                  if (0 <=? pfd_fd (stdin trans)) && negb (out r =? 0)
                  then set_stdin trans (set_pfd_revents (stdin trans) (out r))
                  else trans in
                if ret r =? SSH_ERROR
                then mret (Some (-1, __twopence_ssh_transaction_fail trans
                                       TWOPENCE_RECEIVE_RESULTS_ERROR, status))
                else poll_loop fuel trans status
            end
  end.

Definition __twopence_ssh_poll (fuel : nat) (trans : twopence_ssh_transaction_t)
    (status : twopence_status_t)
  : M (option (Z * twopence_ssh_transaction_t * twopence_status_t)) :=
  r ← __twopence_ssh_transaction_poll_stdin fuel trans;
  match r with
  | None => mret None
  | Some (rc, trans) =>
      if rc <? 0 then mret (Some (-1, trans, status))
      else poll_loop fuel trans status
  end.

(** The [while (trans->remaining > 0)] loop of [__twopence_ssh_send_file],
    for at most [fuel] iterations. *)
Fixpoint __twopence_ssh_send_file (fuel : nat) (trans : twopence_scp_transaction_t)
    (status : twopence_status_t)
  : M (option (Z * twopence_scp_transaction_t * twopence_status_t)) :=
  if remaining trans <=? 0
  then _ ← __twopence_ssh_output (ascii_of_nat 10); mret (Some (0, trans, status))
  else
    match fuel with
    | O => mret None
    | S fuel =>
        let size := to_int (remaining trans) in
        let size := if BUFFER_SIZE <? size then BUFFER_SIZE else size in
        r ← ext (twopence_iostream_read (scp_local_stream trans) size);
        if negb (ret r =? size)
        then _ ← __twopence_ssh_output (ascii_of_nat 10);
             mret (Some (TWOPENCE_LOCAL_FILE_ERROR, trans, status))
        else
          w ← ext_ret (ssh_scp_write (scp trans) (str_take (Z.to_nat size) (bytes r)));
          if negb (w =? SSH_OK)
          then code ← ext_ret (ssh_get_error_code (scp_session trans));
               _ ← __twopence_ssh_output (ascii_of_nat 10);
               mret (Some (TWOPENCE_SEND_FILE_ERROR, trans, set_major status code))
          else
            _ ← __twopence_ssh_output ".";
            __twopence_ssh_send_file fuel (set_remaining trans (remaining trans - size)) status
    end.

(** The loop of [__twopence_ssh_receive_file], likewise. *)
Fixpoint __twopence_ssh_receive_file (fuel : nat) (trans : twopence_scp_transaction_t)
    (status : twopence_status_t)
  : M (option (Z * twopence_scp_transaction_t * twopence_status_t)) :=
  if remaining trans <=? 0
  then _ ← __twopence_ssh_output (ascii_of_nat 10); mret (Some (0, trans, status))
  else
    match fuel with
    | O => mret None
    | S fuel =>
        let size := to_int (remaining trans) in
        let size := if BUFFER_SIZE <? size then BUFFER_SIZE else size in
        r ← ext (ssh_scp_read (scp trans) size);
        if negb (ret r =? size)
        then code ← ext_ret (ssh_get_error_code (scp_session trans));
             _ ← __twopence_ssh_output (ascii_of_nat 10);
             mret (Some (TWOPENCE_RECEIVE_FILE_ERROR, trans, set_major status code))
        else
          w ← ext_ret (twopence_iostream_write (scp_local_stream trans)
                         (str_take (Z.to_nat size) (bytes r)));
          if negb (w =? size)
          then _ ← __twopence_ssh_output (ascii_of_nat 10);
               mret (Some (TWOPENCE_LOCAL_FILE_ERROR, trans, status))
          else
            _ ← __twopence_ssh_output ".";
            __twopence_ssh_receive_file fuel
              (set_remaining trans (remaining trans - size)) status
    end.

(** ** Top layer *)

(** Submits a command to the remote host.  When the call returns early the
    target keeps its pointer to the released transaction: it is left as
    the transaction was at its release. *)
Definition __twopence_ssh_command_ssh (fuel : nat) (handle : twopence_ssh_target)
    (cmd : twopence_command_t) (status_ret : twopence_status_t)
  : M (option (Z * twopence_ssh_target * twopence_status_t)) :=
  trans ← __twopence_ssh_transaction_new (template handle) (timeout cmd);
  match trans with
  | None => mret (Some (TWOPENCE_OPEN_SESSION_ERROR, handle, status_ret))
  | Some trans =>
      '(rc, trans) ← __twopence_ssh_transaction_open_session trans (user cmd);
      if negb (rc =? 0)
      then trans ← __twopence_ssh_transaction_free trans;
           mret (Some (rc, set_foreground handle (Some trans), status_ret))
      else
        let status_ret := set_minor status_ret 0 in
        '(rc, trans) ← __twopence_ssh_transaction_execute_command trans cmd;
        if negb (rc =? 0)
        then trans ← __twopence_ssh_transaction_free trans;
             mret (Some (rc, set_foreground handle (Some trans), status_ret))
        else
          r ← __twopence_ssh_poll fuel trans status_ret;
          match r with
          | None => mret None
          | Some (rc, trans, status_ret) =>
              if (rc <? 0) && negb (exception trans <? 0) then mret None
              else
                let rc := if rc <? 0 then exception trans else rc in
                _ ← __twopence_ssh_transaction_free trans;
                mret (Some (rc, set_foreground handle None, status_ret))
          end
  end.

(** *** SCP transaction functions *)

Definition twopence_scp_transfer_init (handle : twopence_ssh_target)
  : twopence_scp_transaction_t :=
  {| scp_handle := Some (template handle); scp_session := NULL; scp := NULL;
     scp_local_stream := NULL; remaining := 0 |}.

Definition twopence_scp_transfer_destroy (trans : twopence_scp_transaction_t)
  : M twopence_scp_transaction_t :=
  trans ← (if negb (scp trans =? NULL)
           then _ ← ext (ssh_scp_close (scp trans));
                _ ← ext (ssh_scp_free (scp trans));
                mret (set_scp trans NULL)
           else mret trans);
  if negb (scp_session trans =? NULL)
  then _ ← ext (ssh_disconnect (scp_session trans));
       _ ← ext (ssh_free (scp_session trans));
       mret (set_scp_session trans NULL)
  else mret trans.

Definition twopence_scp_transfer_open_session (trans : twopence_scp_transaction_t)
    (username : option string) : M (Z * twopence_scp_transaction_t) :=
  session ← __twopence_ssh_open_session (default NULL (scp_handle trans)) username;
  let trans := set_scp_session trans session in
  if session =? NULL then mret (TWOPENCE_OPEN_SESSION_ERROR, trans)
  else mret (0, trans).

Definition twopence_scp_transfer_init_copy (trans : twopence_scp_transaction_t)
    (direction : Z) (remote_name : string) : M (Z * twopence_scp_transaction_t) :=
  p ← ext_ret (ssh_scp_new (scp_session trans) direction remote_name);
  let trans := set_scp trans p in
  if p =? NULL then mret (TWOPENCE_OPEN_SESSION_ERROR, trans)
  else
    rc ← ext_ret (ssh_scp_init p);
    if negb (rc =? SSH_OK) then mret (TWOPENCE_OPEN_SESSION_ERROR, trans)
    else mret (0, trans).

Definition __twopence_ssh_check_remote_dir (session : Z) (remote_dirname : string)
  : M bool :=
  p ← ext_ret (ssh_scp_new session (Z.lor SSH_SCP_READ SSH_SCP_RECURSIVE) remote_dirname);
  exists_ ←
    (if p =? NULL then mret false
     else rc ← ext_ret (ssh_scp_init p);
          if negb (rc =? SSH_OK) then mret false
          else rq ← ext_ret (ssh_scp_pull_request p);
               mret (rq =? SSH_SCP_REQUEST_NEWDIR));
  if negb (p =? NULL)
  then _ ← ext (ssh_scp_close p); _ ← ext (ssh_scp_free p); mret exists_
  else mret exists_.

(** Injects a file into the remote host through SSH.  [None]: the
    [assert] on the file size fails, or the loop does not end in [fuel]
    iterations. *)
Definition __twopence_ssh_inject_ssh (fuel : nat) (trans : twopence_scp_transaction_t)
    (xfer : twopence_file_xfer_t) (remote_dirname remote_basename : string)
    (status : twopence_status_t)
  : M (option (Z * twopence_scp_transaction_t * twopence_status_t)) :=
  filesize ← ext_ret (twopence_iostream_filesize (local_stream xfer));
  if filesize <? 0 then mret None
  else
    exists_ ← __twopence_ssh_check_remote_dir (scp_session trans) remote_dirname;
    if negb exists_ then mret (Some (TWOPENCE_SEND_FILE_ERROR, trans, status))
    else
      '(rc, trans) ← twopence_scp_transfer_init_copy trans SSH_SCP_WRITE remote_dirname;
      if rc <? 0 then mret (Some (rc, trans, status))
      else
        rc ← ext_ret (ssh_scp_push_file (scp trans) remote_basename filesize
                        (remote_mode xfer));
        if negb (rc =? SSH_OK)
        then code ← ext_ret (ssh_get_error_code (scp_session trans));
             mret (Some (TWOPENCE_SEND_FILE_ERROR, trans, set_major status code))
        else
          let trans := set_scp_local_stream trans (local_stream xfer) in
          let trans := set_remaining trans filesize in
          __twopence_ssh_send_file fuel trans status.

(** Extracts a file from the remote host through SSH. *)
Definition __twopence_ssh_extract_ssh (trans : twopence_scp_transaction_t)
    (xfer : twopence_file_xfer_t) (status : twopence_status_t)
  : M (option (Z * twopence_scp_transaction_t * twopence_status_t)) :=
  let receive_file_error (trans : twopence_scp_transaction_t)
    : M (option (Z * twopence_scp_transaction_t * twopence_status_t)) :=
    code ← ext_ret (ssh_get_error_code (scp_session trans));
    mret (Some (TWOPENCE_RECEIVE_FILE_ERROR, trans, set_major status code)) in
  '(rc, trans) ← twopence_scp_transfer_init_copy trans SSH_SCP_READ (remote_name xfer);
  if rc <? 0 then mret (Some (rc, trans, status))
  else
    rq ← ext_ret (ssh_scp_pull_request (scp trans));
    if negb (rq =? SSH_SCP_REQUEST_NEWFILE) then receive_file_error trans
    else
      sz ← ext_ret (ssh_scp_request_get_size (scp trans));
      let size := to_int sz in
      if size =? 0 then mret (Some (0, trans, status))
      else
        rc ← ext_ret (ssh_scp_accept_request (scp trans));
        if negb (rc =? SSH_OK) then receive_file_error trans
        else
          let trans := set_scp_local_stream trans (local_stream xfer) in
          let trans := set_remaining trans size in
          r ← __twopence_ssh_receive_file (Z.to_nat size) trans status;
          match r with
          | None => mret None
          | Some (rc, trans, status') =>
              if rc <? 0 then mret (Some (rc, trans, status'))
              else
                rq ← ext_ret (ssh_scp_pull_request (scp trans));
                if negb (rq =? SSH_SCP_REQUEST_EOF)
                then code ← ext_ret (ssh_get_error_code (scp_session trans));
                     mret (Some (TWOPENCE_RECEIVE_FILE_ERROR, trans, set_major status' code))
                else mret (Some (0, trans, status'))
          end.

(** Interrupts the current command.  The foreground transaction is
    changed in place. *)
Definition __twopence_ssh_interrupt_ssh (handle : twopence_ssh_target)
  : M (Z * twopence_ssh_target) :=
  match foreground handle with
  | None => mret (TWOPENCE_OPEN_SESSION_ERROR, handle)
  | Some trans =>
      let channel := channel trans in
      if channel =? NULL then mret (TWOPENCE_OPEN_SESSION_ERROR, handle)
      else if use_tty trans
      then
        if eof_sent trans
        then _ ← ext (printf ("Cannot send Ctrl-C, channel already closed for writing" +:+ newline));
             mret (TWOPENCE_INTERRUPT_COMMAND_ERROR, handle)
        else
          '(w, trans) ← chan trans (ssh_channel_write channel ctrl_c);
          let handle := set_foreground handle (Some trans) in
          if negb (ret w =? 1) then mret (TWOPENCE_INTERRUPT_COMMAND_ERROR, handle)
          else mret (0, handle)
      else
        _ ← ext (printf ("Command not being run in tty, cannot interrupt it" +:+ newline));
        mret (0, set_foreground handle (Some (set_interrupted trans true)))
  end.

(** ** Public interface *)

(** Initialises a handle for a host name and a port. *)
Definition __twopence_ssh_init (hostname : string) (port : Z)
  : M (option twopence_ssh_target) :=
  handle ← ext_ret calloc;
  if handle =? NULL then mret None
  else
    template ← ext_ret ssh_new;
    if template =? NULL then _ ← ext (free handle); mret None
    else
      rc ← ext_ret (ssh_options_set_str template SSH_OPTIONS_HOST hostname);
      failed ← (if rc <? 0 then mret true
                else rc ← ext_ret (ssh_options_set_uint template SSH_OPTIONS_PORT port);
                     mret (rc <? 0));
      if (failed : bool)
      then _ ← ext (ssh_free template); _ ← ext (free handle); mret None
      else mret (Some {| target_addr := handle;
                         base_plugin_type := TWOPENCE_PLUGIN_SSH;
                         base_current_io := NULL;
                         template := template;
                         foreground := None |}).

(** The host name without its outer brackets, when it has both. *)
Definition strip_brackets (hostname : string) : string :=
  match hostname with
  | String c _ =>
      if Ascii.eqb c "["
      then
        let n := String.length hostname in
        match String.get (n - 1) hostname with
        | Some c' =>
            if Ascii.eqb c' "]" then String.substring 1 (n - 2) hostname else hostname
        | None => hostname
        end
      else hostname
  | EmptyString => hostname
  end.

(** Takes the part of the target spec that follows ["ssh:"].  The dispatch
    layer passes a null pointer for a spec without a colon; [strrchr] on
    it is undefined, and the model gives no handle. *)
Definition twopence_ssh_init (arg : option string) : M (option twopence_ssh_target) :=
  match arg with
  | None => mret None
  | Some arg =>
      match strrchr_colon arg with
      | None => __twopence_ssh_init arg 22
      | Some i =>
          let copy_spec := str_take i arg in
          let '(port, s) := strtoul10 (str_drop (S i) arg) in
          if negb (String.eqb s "") || (65535 <=? port) then mret None
          else __twopence_ssh_init (strip_brackets copy_spec) port
      end
  end.

Definition twopence_ssh_run_test (fuel : nat) (handle : twopence_ssh_target)
    (cmd : twopence_command_t) (status_ret : twopence_status_t)
  : M (option (Z * twopence_ssh_target * twopence_status_t)) :=
  match command cmd with
  | None => mret (Some (TWOPENCE_PARAMETER_ERROR, handle, status_ret))
  | Some _ =>
      let status_ret := {| major := 0; minor := 0 |} in
      let handle := set_base_current_io handle NULL in
      __twopence_ssh_command_ssh fuel handle cmd status_ret
  end.

(** The end of [twopence_ssh_inject_file], from the test of the status on. *)
Definition inject_file_finish (rc : Z) (state : twopence_scp_transaction_t)
    (status : twopence_status_t) (dirname basename : Z) : M (option (Z * twopence_status_t)) :=
  let rc := if (rc =? 0) && (negb (major status =? 0) || negb (minor status =? 0))
            then TWOPENCE_REMOTE_FILE_ERROR else rc in
  _ ← twopence_scp_transfer_destroy state;
  _ ← ext (free basename);
  _ ← ext (free dirname);
  mret (Some (rc, status)).

(** Injects a file into the remote host.  [ssh_dirname] and [ssh_basename]
    answer the address of the string and its bytes. *)
Definition twopence_ssh_inject_file (fuel : nat) (handle : twopence_ssh_target)
    (xfer : twopence_file_xfer_t) (status : twopence_status_t)
  : M (option (Z * twopence_status_t)) :=
  let state := twopence_scp_transfer_init handle in
  '(rc, state) ← twopence_scp_transfer_open_session state (xfer_user xfer);
  if rc <? 0 then mret (Some (rc, status))
  else
    dirname ← ext (ssh_dirname (remote_name xfer));
    basename ← ext (ssh_basename (remote_name xfer));
    filesize ← ext_ret (twopence_iostream_filesize (local_stream xfer));
    if filesize <? 0
    then
      bp ← ext_ret (twopence_iostream_read_all (local_stream xfer));
      if bp =? NULL then mret (Some (TWOPENCE_LOCAL_FILE_ERROR, status))
      else
        w ← ext (twopence_iostream_wrap_buffer bp);
        let tmp_xfer := {| xfer_user := xfer_user xfer; local_stream := out w;
                           remote_name := remote_name xfer;
                           remote_mode := remote_mode xfer |} in
        r ← __twopence_ssh_inject_ssh fuel state tmp_xfer (bytes dirname) (bytes basename)
              status;
        match r with
        | None => mret None
        | Some (rc, state, status) =>
            _ ← ext (twopence_iostream_free (local_stream tmp_xfer));
            inject_file_finish rc state status (ret dirname) (ret basename)
        end
    else
      r ← __twopence_ssh_inject_ssh fuel state xfer (bytes dirname) (bytes basename) status;
      match r with
      | None => mret None
      | Some (rc, state, status) =>
          inject_file_finish rc state status (ret dirname) (ret basename)
      end.

(** Extracts a file from the remote host. *)
Definition twopence_ssh_extract_file (handle : twopence_ssh_target)
    (xfer : twopence_file_xfer_t) (status : twopence_status_t)
  : M (option (Z * twopence_status_t)) :=
  let state := twopence_scp_transfer_init handle in
  '(rc, state) ← twopence_scp_transfer_open_session state (xfer_user xfer);
  if rc <? 0 then mret (Some (rc, status))
  else
    r ← __twopence_ssh_extract_ssh state xfer status;
    match r with
    | None => mret None
    | Some (rc, state, status) =>
        let rc := if (rc =? 0) && (negb (major status =? 0) || negb (minor status =? 0))
                  then TWOPENCE_REMOTE_FILE_ERROR else rc in
        mret (Some (rc, status))
    end.

Definition twopence_ssh_interrupt_command (handle : twopence_ssh_target)
  : M (Z * twopence_ssh_target) :=
  __twopence_ssh_interrupt_ssh handle.

(** Tells the remote test server to exit: makes no sense with SSH. *)
Definition twopence_ssh_exit_remote (handle : twopence_ssh_target)
  : M (Z * twopence_ssh_target) :=
  mret (-1, handle).

Definition twopence_ssh_end (handle : twopence_ssh_target) : M unit :=
  _ ← ext (ssh_free (template handle));
  ext_ (free (target_addr handle)).

(** The plugin ops vector. *)
Definition twopence_ssh_ops : twopence_plugin twopence_ssh_target := {|
  name := "ssh";
  init := Some twopence_ssh_init;
  run_test := Some twopence_ssh_run_test;
  inject_file := Some twopence_ssh_inject_file;
  extract_file := Some twopence_ssh_extract_file;
  exit_remote := Some twopence_ssh_exit_remote;
  interrupt_command := Some twopence_ssh_interrupt_command;
  end_target := Some twopence_ssh_end;
|}.

(** [__twopence_ssh_init] binds every handle it makes to this vector. *)
#[global] Instance twopence_ssh_target_ops : Target twopence_ssh_target := {|
  target_ops _ := twopence_ssh_ops;
  target_ptr := target_addr;
|}.

End ssh_c.

(** * Vocabulary of the statements, and scenarios

    What the statements below are written with: sequences of operations,
    the reading of a trace, and the concrete transactions, targets and
    environments on which the code is evaluated. *)

(** The reply that carries a return value and nothing else, and the
    environment that gives it to every call. *)
Definition reply_of (v : Z) : reply :=
  {| ret := v; out := 0; bytes := ""; exit_signals := [] |}.
Definition env_const (v : Z) : env := λ _ _, reply_of v.

(** The first error code of a list that is not zero, zero if there is none. *)
Fixpoint first_nonzero (errors : list Z) : Z :=
  match errors with
  | [] => 0
  | error :: errors => if error =? 0 then first_nonzero errors else error
  end.

(** The plugin-name component of a target specification: what stands
    before the first colon. *)
Definition spec_plugin_name (target_spec : string) : string :=
  str_take (strcspn_colon target_spec) target_spec.

(** A foreground transaction that runs without a tty on channel 7. *)
Definition trans_no_tty : twopence_ssh_transaction_t :=
  set_channel (transaction_zero 1) 7.
Definition target_no_tty : twopence_ssh_target :=
  {| target_addr := 2; base_plugin_type := 1; base_current_io := NULL; template := 3;
     foreground := Some trans_no_tty |}.

(** The routine invoked [n] times in a row. *)
Fixpoint send_eof_times (n : nat) (trans : twopence_ssh_transaction_t)
  : M twopence_ssh_transaction_t :=
  match n with
  | O => mret trans
  | S n => '(_, trans) ← __twopence_ssh_transaction_send_eof trans; send_eof_times n trans
  end.

(** Every write is answered by the number of bytes given, every other
    call by zero. *)
Definition env_writes_all : env :=
  λ _ c,
    match c with
    | ssh_channel_write _ data => reply_of (Z.of_nat (String.length data))
    | _ => reply_of 0
    end.

(** A transaction that runs a command without a tty on channel 7. *)
Definition trans_no_tty_running : twopence_ssh_transaction_t :=
  set_status_ret (set_channel (transaction_zero 1) 7) true.

(** A transaction that runs under a tty on channel 7. *)
Definition trans_tty : twopence_ssh_transaction_t :=
  set_status_ret (set_use_tty (set_channel (transaction_zero 1) 7) true) true.

(** Kills the remote command with SIGTERM: the exit status reads as
    [SSH_ERROR] and libssh hands the signal name to the callback. *)
Definition env_killed : env :=
  λ _ c,
    match c with
    | ssh_channel_get_exit_status _ =>
        {| ret := SSH_ERROR; out := 0; bytes := ""; exit_signals := ["TERM"] |}
    | _ => reply_of 0
    end.

(** A sequence of byte writes, each to stdout or to stderr; the results
    are dropped, as the callers of the sink do. *)
Fixpoint sink_putcs (ws : list (bool * ascii)) (sink : twopence_sink) (m : mem)
  : M (twopence_sink * mem) :=
  match ws with
  | [] => mret (sink, m)
  | (is_error, c) :: ws =>
      '(_, sink, m) ← twopence_sink_putc sink is_error c m;
      sink_putcs ws sink m
  end.

(** The two buffer modes. *)
Definition buffer_mode (mode : twopence_output_t) : Prop :=
  mode = TWOPENCE_OUTPUT_BUFFER ∨ mode = TWOPENCE_OUTPUT_BUFFER_SEPARATELY.

(** Whether a write goes to the stderr buffer, and the buffer it goes to. *)
Definition aims_at_errbuf (mode : twopence_output_t) (is_error : bool) : bool :=
  match mode with
  | TWOPENCE_OUTPUT_BUFFER_SEPARATELY => is_error
  | _ => false
  end.

Definition sink_target (sink : twopence_sink) (is_error : bool) : twopence_buffer :=
  if aims_at_errbuf (mode sink) is_error then errbuf sink else outbuf sink.

(** The bytes a sequence of writes aims at the stdout buffer
    ([to_err] false) or at the stderr buffer. *)
Fixpoint writes_to (mode : twopence_output_t) (to_err : bool) (ws : list (bool * ascii))
  : list ascii :=
  match ws with
  | [] => []
  | (is_error, c) :: ws =>
      if Bool.eqb (aims_at_errbuf mode is_error) to_err then c :: writes_to mode to_err ws
      else writes_to mode to_err ws
  end.

(** The sink with the cursor of the aimed buffer moved by one. *)
Definition sink_advance (sink : twopence_sink) (is_error : bool) : twopence_sink :=
  if aims_at_errbuf (mode sink) is_error
  then with_errbuf sink {| tail := tail (errbuf sink) + 1; end_ := end_ (errbuf sink) |}
  else with_outbuf sink {| tail := tail (outbuf sink) + 1; end_ := end_ (outbuf sink) |}.

(** [calloc] and [ssh_new] give memory, everything else answers zero. *)
Definition env_alloc : env :=
  λ _ c,
    match c with
    | calloc => reply_of 1000
    | ssh_new => reply_of 2000
    | _ => reply_of 0
    end.

(** The calls that tear a transfer down: closing and freeing the SCP
    handle, disconnecting and freeing the session. *)
Definition teardown (c : call) : bool :=
  match c with
  | ssh_scp_close _ | ssh_scp_free _ | ssh_disconnect _ | ssh_free _ => true
  | _ => false
  end.

(** A computation that makes no teardown call, whatever the environment. *)
Definition quiet {A : Type} (m : M A) : Prop :=
  ∀ e h, ∃ l, (m e h).2 = h ++ l ∧ Forall (λ c, teardown c = false) l.

(** A target and a transfer descriptor to evaluate the transfers on. *)
Definition target_idle : twopence_ssh_target :=
  {| target_addr := 2; base_plugin_type := 1; base_current_io := NULL; template := 3;
     foreground := None |}.
Definition xfer_motd : twopence_file_xfer_t :=
  {| xfer_user := None; local_stream := 40; remote_name := "/etc/motd";
     remote_mode := 420 |}.
Definition status_zero : twopence_status_t := {| major := 0; minor := 0 |}.

(** A remote side on which every step of a download succeeds: the session
    opens, the remote file has [size] bytes, every read and every write is
    complete, and the request after the first is the end of file. *)
Definition env_download (size : Z) : env :=
  λ h c,
    match c with
    | ssh_new => reply_of 500
    | ssh_options_copy _ => {| ret := 0; out := 501; bytes := ""; exit_signals := [] |}
    | ssh_scp_new _ _ _ => reply_of 600
    | ssh_scp_pull_request _ =>
        if existsb (λ c', match c' with ssh_scp_pull_request _ => true | _ => false end) h
        then reply_of SSH_SCP_REQUEST_EOF
        else reply_of SSH_SCP_REQUEST_NEWFILE
    | ssh_scp_request_get_size _ => reply_of size
    | ssh_scp_read _ n => {| ret := n; out := 0; bytes := "abc"; exit_signals := [] |}
    | twopence_iostream_write _ data => reply_of (Z.of_nat (String.length data))
    | _ => reply_of 0
    end.

(** A remote side on which every step of an upload of a local file of
    [size] bytes succeeds; a negative [size] stands for a local stream
    that cannot tell its size and cannot be read either. *)
Definition env_upload (size : Z) : env :=
  λ h c,
    match c with
    | ssh_new => reply_of 500
    | ssh_options_copy _ => {| ret := 0; out := 501; bytes := ""; exit_signals := [] |}
    | ssh_dirname _ => {| ret := 700; out := 0; bytes := "/etc"; exit_signals := [] |}
    | ssh_basename _ => {| ret := 701; out := 0; bytes := "motd"; exit_signals := [] |}
    | twopence_iostream_filesize _ => reply_of size
    | ssh_scp_new _ _ _ => reply_of (600 + Z.of_nat (length h))
    | ssh_scp_pull_request _ => reply_of SSH_SCP_REQUEST_NEWDIR
    | twopence_iostream_read _ n =>
        {| ret := n; out := 0; bytes := "abc"; exit_signals := [] |}
    | _ => reply_of 0
    end.

(** The teardown calls of a transfer, in their order. *)
Definition teardown_calls (trans : twopence_scp_transaction_t) : list call :=
  (if scp trans =? NULL then [] else [ssh_scp_close (scp trans); ssh_scp_free (scp trans)])
  ++ (if scp_session trans =? NULL then []
      else [ssh_disconnect (scp_session trans); ssh_free (scp_session trans)]).

(** A postcondition on the value of a computation, whatever the
    environment and the trace it starts from. *)
Definition post {A : Type} (m : M A) (Q : A → Prop) : Prop := ∀ e h, Q (m e h).1.

(** [t'] has the exception of [t] if that one is set. *)
Definition sticky (t t' : twopence_ssh_transaction_t) : Prop :=
  exception t ≠ 0 → exception t' = exception t.

(** [sticky] on the transaction a computation returns, for the shapes of
    value the functions of the engine return. *)
Definition keeps {A : Type} (t0 : twopence_ssh_transaction_t)
    (p : A * twopence_ssh_transaction_t) : Prop :=
  sticky t0 p.2.
Definition keeps3 {A B : Type} (t0 : twopence_ssh_transaction_t)
    (p : A * twopence_ssh_transaction_t * B) : Prop :=
  sticky t0 p.1.2.
Definition okeeps {A : Type} (t0 : twopence_ssh_transaction_t)
    (p : option (A * twopence_ssh_transaction_t)) : Prop :=
  match p with Some p => sticky t0 p.2 | None => True end.
Definition okeeps3 {A B : Type} (t0 : twopence_ssh_transaction_t)
    (p : option (A * twopence_ssh_transaction_t * B)) : Prop :=
  match p with Some p => sticky t0 p.1.2 | None => True end.

(** The call that loads a shared library. *)
Definition is_dlopen (c : call) : bool :=
  match c with
  | dlopen _ => true
  | _ => false
  end.

(** The sink with the cursor of the aimed buffer moved by [k]. *)
Definition sink_moved (sink : twopence_sink) (is_error : bool) (k : Z) : twopence_sink :=
  if aims_at_errbuf (mode sink) is_error
  then with_errbuf sink {| tail := tail (errbuf sink) + k; end_ := end_ (errbuf sink) |}
  else with_outbuf sink {| tail := tail (outbuf sink) + k; end_ := end_ (outbuf sink) |}.

(** The file descriptor a write in screen mode goes to. *)
Definition screen_fd (is_error : bool) : Z := if is_error then 2 else 1.

(** [INT_MAX], the largest value of the counter of [twopence_sink_write]. *)
Definition INT_MAX : Z := 2147483647.

(** Whether every byte of a string is a decimal digit. *)
Fixpoint all_digits (s : string) : bool :=
  match s with
  | EmptyString => true
  | String c rest =>
      match digit_of c with
      | Some _ => all_digits rest
      | None => false
      end
  end.

(** How many times a trace releases the memory at [p] with [free]. *)
Fixpoint frees (p : Z) (l : trace) : nat :=
  match l with
  | [] => 0
  | free q :: l => if q =? p then S (frees p l) else frees p l
  | _ :: l => frees p l
  end.

(** A server that opens the session and the channel and refuses to run
    the command, and a command without a tty and without streams. *)
Definition env_exec_refused : env :=
  λ _ c,
    match c with
    | calloc => reply_of 1000
    | ssh_new => reply_of 500
    | ssh_options_copy _ => {| ret := 0; out := 501; bytes := ""; exit_signals := [] |}
    | ssh_channel_new _ => reply_of 550
    | ssh_channel_request_exec _ _ => reply_of (-1)
    | _ => reply_of 0
    end.
Definition cmd_true : twopence_command_t :=
  {| command := Some "true"; user := None; timeout := 60; request_tty := false;
     iostream_stdin := NULL; iostream_stdout := NULL; iostream_stderr := NULL |}.

(** The codes the transaction engine records as the exception. *)
Definition engine_codes `{twopence_h} : list Z :=
  [ TWOPENCE_FORWARD_INPUT_ERROR; TWOPENCE_RECEIVE_RESULTS_ERROR;
    TWOPENCE_COMMAND_TIMEOUT_ERROR ].

(** The transaction a computation returns has the exception [x]. *)
Definition has_exception {A : Type} (x : Z) (p : A * twopence_ssh_transaction_t) : Prop :=
  exception p.2 = x.

(** The two outcomes of a step of the engine: 0 and no exception, or -1
    and one of the codes of the engine as the exception; for the shapes of
    value the functions of the engine return. *)
Definition verdict `{twopence_h} (p : Z * twopence_ssh_transaction_t) : Prop :=
  p.1 = 0 ∧ exception p.2 = 0 ∨ p.1 = -1 ∧ exception p.2 ∈ engine_codes.
Definition verdict3 `{twopence_h} {B : Type} (p : Z * twopence_ssh_transaction_t * B)
  : Prop :=
  verdict p.1.
Definition overdict `{twopence_h} (p : option (Z * twopence_ssh_transaction_t)) : Prop :=
  match p with Some p => verdict p | None => True end.
Definition overdict3 `{twopence_h} {B : Type}
    (p : option (Z * twopence_ssh_transaction_t * B)) : Prop :=
  match p with Some p => verdict p.1 | None => True end.

(** A transaction on an open channel whose three streams are at their
    end. *)
Definition trans_drained : twopence_ssh_transaction_t :=
  let t := set_channel (transaction_zero 1000) 550 in
  let t := set_stdin t (set_stdin_eof (stdin t) true) in
  let t := set_stdout t {| index := 0; stream := NULL; eof := true |} in
  set_stderr t {| index := 1; stream := NULL; eof := true |}.

(** The bytes a trace asks of the remote file with [ssh_scp_read], and of
    a local stream with [twopence_iostream_read]. *)
Fixpoint scp_read_total (l : trace) : Z :=
  match l with
  | [] => 0
  | ssh_scp_read _ n :: l => n + scp_read_total l
  | _ :: l => scp_read_total l
  end.
Fixpoint stream_read_total (l : trace) : Z :=
  match l with
  | [] => 0
  | twopence_iostream_read _ n :: l => n + stream_read_total l
  | _ :: l => stream_read_total l
  end.

(** What the [write] for the byte at place [i] of [data] returns, in a run
    that started at the trace [h] and has written the bytes before it to
    the descriptor [fd]. *)
Definition screen_write_ret (e : env) (h : trace) (fd : Z) (data : list ascii) (i : nat)
  : option Z :=
  (λ c, ret (e (h ++ map (write fd) (take i data)) (write fd c))) <$> data !! i.

(** Kills the remote command with SIGABRT: the exit status reads as
    [SSH_ERROR] and libssh hands the name of the signal, ABRT, to the
    callback. *)
Definition env_aborted : env :=
  λ _ c,
    match c with
    | ssh_channel_get_exit_status _ =>
        {| ret := SSH_ERROR; out := 0; bytes := ""; exit_signals := ["ABRT"] |}
    | _ => reply_of 0
    end.

(** The allocations succeed and the options are taken, but for a port that
    is not positive, which [ssh_options_set] refuses. *)
Definition env_port_checked : env :=
  λ _ c,
    match c with
    | calloc => reply_of 1000
    | ssh_new => reply_of 2000
    | ssh_options_set_uint _ SSH_OPTIONS_PORT port =>
        reply_of (if port <=? 0 then -1 else 0)
    | _ => reply_of 0
    end.

(** * Properties *)

(** Unfolds the monad of external calls. *)
Ltac munfold :=
  unfold mbind, mret, M_bind, M_ret, ext_ret, ext_, ext in *.

(** ** The sticky exception of a transaction *)

Lemma transaction_fail_set (trans : twopence_ssh_transaction_t) (error : Z) :
  exception trans ≠ 0 → __twopence_ssh_transaction_fail trans error = trans.
Proof.
  intros Hne. unfold __twopence_ssh_transaction_fail.
  destruct (Z.eqb_spec (exception trans) 0); [contradiction | reflexivity].
Qed.

Lemma transaction_fail_unset (trans : twopence_ssh_transaction_t) (error : Z) :
  exception trans = 0 →
  exception (__twopence_ssh_transaction_fail trans error) = error.
Proof.
  intros Heq. unfold __twopence_ssh_transaction_fail. rewrite Heq. reflexivity.
Qed.

(** C8: over any sequence of failure recordings the exception ends as the
    first code that was not zero, counting the value it had before the
    sequence; and a recording on a transaction whose exception is set
    changes nothing at all. *)
Theorem exception_is_first_failure :
  (∀ (trans : twopence_ssh_transaction_t) (errors : list Z),
     exception (foldl __twopence_ssh_transaction_fail trans errors)
     = first_nonzero (exception trans :: errors))
  ∧ (∀ (trans : twopence_ssh_transaction_t) (error : Z) (errors : list Z),
       exception trans ≠ 0 →
       foldl __twopence_ssh_transaction_fail trans (error :: errors) = trans).
Proof.
  split.
  - intros trans errors. revert trans.
    induction errors as [|error errors IH]; intros trans; simpl.
    + destruct (Z.eqb_spec (exception trans) 0); congruence.
    + rewrite IH. simpl.
      destruct (Z.eqb_spec (exception trans) 0) as [Hz|Hnz].
      * rewrite (transaction_fail_unset _ _ Hz). reflexivity.
      * rewrite (transaction_fail_set _ _ Hnz).
        destruct (Z.eqb_spec (exception trans) 0); [contradiction | reflexivity].
  - intros trans error errors Hne. revert error.
    induction errors as [|error' errors IH]; intros error; simpl.
    + apply transaction_fail_set, Hne.
    + rewrite (transaction_fail_set _ _ Hne). apply IH.
Qed.

(** C8 on a transaction whose exception is already set. *)
Lemma exception_is_first_failure_witness :
  let trans := set_exception (transaction_zero 1) (-5) in
  exception trans ≠ 0
  ∧ foldl __twopence_ssh_transaction_fail trans [-6; -4] = trans.
Proof.
  split; [discriminate |].
  apply (proj2 exception_is_first_failure). discriminate.
Defined.

(** ** The strings of the result codes *)

Section strerror.
Context `{twopence_h}.

Lemma result_code_ne (i j : nat) (a b : Z) :
  twopence_h_ok → i ≠ j →
  twopence_result_codes !! i = Some a → twopence_result_codes !! j = Some b →
  a ≠ b.
Proof.
  intros [Hnd _] Hij Hi Hj ->. apply Hij. eapply NoDup_lookup; eauto.
Qed.

(** The position of a code in a list of codes, read off the list. *)
Ltac pos_in a l :=
  lazymatch l with
  | a :: _ => constr:(0%nat)
  | _ :: ?l' => let n := pos_in a l' in constr:(S n)
  end.

(** Two result codes at different places of [twopence_result_codes] differ. *)
Ltac codes_differ Hok :=
  lazymatch goal with
  | |- ?a ≠ ?b =>
      let l := eval unfold twopence_result_codes in twopence_result_codes in
      let i := pos_in a l in
      let j := pos_in b l in
      apply (result_code_ne i j a b Hok); [ simpl; lia | reflexivity | reflexivity ]
  end.

Ltac test_is_false Hok :=
  match goal with
  | |- context [?a =? ?b] =>
      replace (a =? b) with false
        by (symmetry; apply Z.eqb_neq; codes_differ Hok)
  end.

(** The codes that have a case in the switch get their own string. *)
Lemma twopence_strerror_cases :
  twopence_h_ok →
  twopence_strerror TWOPENCE_PARAMETER_ERROR = "Invalid command parameter"
  ∧ twopence_strerror TWOPENCE_OPEN_SESSION_ERROR
    = "Error opening the communication with the system under test"
  ∧ twopence_strerror TWOPENCE_SEND_COMMAND_ERROR
    = "Error sending command to the system under test"
  ∧ twopence_strerror TWOPENCE_FORWARD_INPUT_ERROR = "Error forwarding keyboard input"
  ∧ twopence_strerror TWOPENCE_RECEIVE_RESULTS_ERROR
    = "Error receiving the results of action"
  ∧ twopence_strerror TWOPENCE_LOCAL_FILE_ERROR = "Local error while transferring file"
  ∧ twopence_strerror TWOPENCE_SEND_FILE_ERROR
    = "Error sending file to the system under test"
  ∧ twopence_strerror TWOPENCE_REMOTE_FILE_ERROR = "Remote error while transferring file"
  ∧ twopence_strerror TWOPENCE_RECEIVE_FILE_ERROR
    = "Error receiving file from the system under test"
  ∧ twopence_strerror TWOPENCE_INTERRUPT_COMMAND_ERROR = "Failed to interrupt command"
  ∧ twopence_strerror TWOPENCE_INVALID_TARGET_SPEC = "Invalid target spec"
  ∧ twopence_strerror TWOPENCE_UNKNOWN_PLUGIN = "Unknown plugin"
  ∧ twopence_strerror TWOPENCE_INCOMPATIBLE_PLUGIN = "Incompatible plugin".
Proof.
  intros Hok. unfold twopence_strerror.
  repeat split; repeat test_is_false Hok; rewrite Z.eqb_refl; reflexivity.
Qed.

(** A code outside the cases of the switch gets the generic string. *)
Lemma twopence_strerror_other (rc : Z) :
  rc ∉ [ TWOPENCE_PARAMETER_ERROR; TWOPENCE_OPEN_SESSION_ERROR;
         TWOPENCE_SEND_COMMAND_ERROR; TWOPENCE_FORWARD_INPUT_ERROR;
         TWOPENCE_RECEIVE_RESULTS_ERROR; TWOPENCE_LOCAL_FILE_ERROR;
         TWOPENCE_SEND_FILE_ERROR; TWOPENCE_REMOTE_FILE_ERROR;
         TWOPENCE_RECEIVE_FILE_ERROR; TWOPENCE_INTERRUPT_COMMAND_ERROR;
         TWOPENCE_INVALID_TARGET_SPEC; TWOPENCE_UNKNOWN_PLUGIN;
         TWOPENCE_INCOMPATIBLE_PLUGIN ] →
  twopence_strerror rc = "Unknow error".
Proof.
  intros Hnot. unfold twopence_strerror.
  repeat match goal with
         | |- context [rc =? ?c] =>
             destruct (Z.eqb_spec rc c) as [->|_];
             [ exfalso; apply Hnot; set_solver | ]
         end.
  reflexivity.
Qed.

(** C9: the not-supported code and the command-timeout code, both of the
    taxonomy, have no case in the switch and come out as the generic
    string, which is the string of no code. *)
Theorem twopence_strerror_misses_two_codes :
  twopence_h_ok →
  twopence_strerror TWOPENCE_NOT_SUPPORTED = "Unknow error"
  ∧ twopence_strerror TWOPENCE_COMMAND_TIMEOUT_ERROR = "Unknow error".
Proof.
  intros Hok. split; apply twopence_strerror_other;
    repeat (apply not_elem_of_cons; split; [ codes_differ Hok | ]);
    apply not_elem_of_nil.
Qed.

End strerror.

Lemma twopence_h_sample_ok : @twopence_h_ok twopence_h_sample.
Proof. apply (bool_decide_unpack _). vm_compute. exact I. Qed.

(** C9 with the codes numbered as in [twopence_h_sample]. *)
Lemma twopence_strerror_misses_two_codes_witness :
  @twopence_h_ok twopence_h_sample
  ∧ @twopence_strerror twopence_h_sample (@TWOPENCE_NOT_SUPPORTED twopence_h_sample)
    = "Unknow error"
  ∧ @twopence_strerror twopence_h_sample (@TWOPENCE_COMMAND_TIMEOUT_ERROR twopence_h_sample)
    = "Unknow error".
Proof.
  split.
  - apply (bool_decide_unpack _). vm_compute. exact I.
  - apply (@twopence_strerror_misses_two_codes twopence_h_sample).
    apply (bool_decide_unpack _). vm_compute. exact I.
Defined.

(** ** The dispatch layer *)

Lemma substring_all (s : string) (n : nat) :
  (String.length s ≤ n)%nat → String.substring 0 n s = s.
Proof.
  revert n. induction s as [|c s IH]; intros [|n] Hn; simpl in *; try reflexivity; try lia.
  rewrite IH by lia. reflexivity.
Qed.

Lemma strcspn_colon_le (s : string) : (strcspn_colon s ≤ String.length s)%nat.
Proof.
  induction s as [|c s IH]; simpl; [lia |]. destruct (Ascii.eqb c ":"); simpl; lia.
Qed.

Section registry.
Context `{twopence_h}.

Lemma plugin_type_of_unknown_name (name : string) :
  name ∉ ["virtio"; "ssh"; "serial"] →
  twopence_plugin_type name = TWOPENCE_PLUGIN_UNKNOWN.
Proof.
  intros Hnot. unfold twopence_plugin_type.
  repeat match goal with
         | |- context [String.eqb name ?k] =>
             destruct (String.eqb_spec name k) as [->|_];
             [ exfalso; apply Hnot; set_solver | ]
         end.
  reflexivity.
Qed.

(** The split gives no plugin name when the name component is not a known
    transport, and when it is empty. *)
Lemma target_split_rejects (target_spec : string) :
  spec_plugin_name target_spec ∉ ["virtio"; "ssh"; "serial"]
  ∨ strcspn_colon target_spec = 0%nat →
  (twopence_target_split (Some target_spec)).1 = None.
Proof.
  intros Hname. unfold twopence_target_split.
  destruct (Nat.eqb_spec (strcspn_colon target_spec) 0) as [Hz|Hnz]; [reflexivity |].
  destruct Hname as [Hname | Hz]; [| contradiction].
  assert (Hinvalid : ∀ name, name = spec_plugin_name target_spec →
                             twopence_plugin_name_is_valid name = false).
  { intros name ->. unfold twopence_plugin_name_is_valid.
    rewrite (plugin_type_of_unknown_name _ Hname), Z.eqb_refl. reflexivity. }
  destruct (Nat.ltb_spec (strcspn_colon target_spec) (String.length target_spec)) as [Hlt|Hge].
  - rewrite Hinvalid by reflexivity. reflexivity.
  - rewrite Hinvalid; [reflexivity |].
    unfold spec_plugin_name, str_take. symmetry. apply substring_all.
    pose proof (strcspn_colon_le target_spec). lia.
Qed.

(** C3 as amended: a target specification whose plugin-name component is
    not one of virtio, ssh and serial, or is empty, makes the creation of a
    target fail with the invalid-target-spec code; no library is loaded
    and the cache of loaded libraries is as before. *)
Theorem target_new_rejects_unknown_plugin_name
    {T : Type} (plugin_at : Z → twopence_plugin T) (target_spec : string)
    (handles : gmap Z Z) (e : env) (h : trace) :
  spec_plugin_name target_spec ∉ ["virtio"; "ssh"; "serial"]
  ∨ strcspn_colon target_spec = 0%nat →
  twopence_target_new plugin_at target_spec handles e h
  = ((TWOPENCE_INVALID_TARGET_SPEC, None, handles), h).
Proof.
  intros Hname. unfold twopence_target_new, __twopence_target_new.
  pose proof (target_split_rejects _ Hname) as Hsplit.
  destruct (twopence_target_split (Some target_spec)) as [name rest].
  simpl in Hsplit. subst name. reflexivity.
Qed.

(** The code of an invalid target specification is not the code of an
    unknown plugin, however the header numbers them. *)
Lemma invalid_target_spec_is_not_unknown_plugin :
  twopence_h_ok → TWOPENCE_INVALID_TARGET_SPEC ≠ TWOPENCE_UNKNOWN_PLUGIN.
Proof.
  intros [Hnd _] Heq.
  assert (Hij : 11%nat = 12%nat); [| discriminate].
  eapply NoDup_lookup; [exact Hnd | reflexivity |]. simpl. f_equal. symmetry. exact Heq.
Qed.

(** C10: on every SSH target the exit_remote operation returns -1, which is
    not success, and leaves the target as it was, without any external
    call; the value is the one of the entry of the SSH function vector,
    which is present, so the dispatcher never answers for it. *)
Theorem exit_remote_of_ssh_target (target : twopence_ssh_target) (e : env) (h : trace) :
  twopence_exit_remote target e h = ((-1, target), h)
  ∧ (-1) ≠ 0
  ∧ exit_remote (target_ops target) = Some twopence_ssh_exit_remote
  ∧ twopence_ssh_exit_remote target e h = ((-1, target), h).
Proof. repeat split; discriminate. Qed.

(** C1: on a target whose foreground transaction has an open channel and
    was not started under a tty, interrupt_command sets the interrupted
    flag of the transaction, prints that the command cannot be
    interrupted, and returns 0, which is not the interrupt-error code. *)
Theorem interrupt_without_tty_returns_0
    (handle : twopence_ssh_target) (trans : twopence_ssh_transaction_t)
    (e : env) (h : trace) :
  twopence_h_ok →
  foreground handle = Some trans → channel trans ≠ NULL → use_tty trans = false →
  twopence_interrupt_command handle e h
  = ((0, set_foreground handle (Some (set_interrupted trans true))),
     h ++ [printf ("Command not being run in tty, cannot interrupt it" +:+ newline)])
  ∧ 0 ≠ TWOPENCE_INTERRUPT_COMMAND_ERROR.
Proof.
  intros [_ Hneg] Hfg Hch Htty. split.
  - unfold twopence_interrupt_command. simpl.
    unfold twopence_ssh_interrupt_command, __twopence_ssh_interrupt_ssh.
    rewrite Hfg, Htty.
    destruct (Z.eqb_spec (channel trans) NULL); [contradiction | reflexivity].
  - unfold twopence_result_codes in Hneg.
    rewrite !Forall_cons in Hneg. lia.
Qed.

End registry.

(** C3 as amended, on a specification that names telnet. *)
Lemma target_new_rejects_unknown_plugin_name_witness :
  (spec_plugin_name "telnet:host" ∉ ["virtio"; "ssh"; "serial"])
  ∧ twopence_target_new (H := twopence_h_sample)
      (λ _, twopence_ssh_ops (H := twopence_h_sample)) "telnet:host" ∅ (env_const 0) []
    = ((-12, None, ∅), []).
Proof.
  assert (Hname : spec_plugin_name "telnet:host" ∉ ["virtio"; "ssh"; "serial"]).
  { apply (bool_decide_unpack _). vm_compute. exact I. }
  split; [exact Hname |].
  apply (target_new_rejects_unknown_plugin_name (H := twopence_h_sample)).
  left. exact Hname.
Defined.

(** C3 as stated fails: with the result codes numbered as in
    [twopence_h_sample], a specification naming the unknown transport
    telnet, and one with nothing before the colon, both fail with the
    invalid-target-spec code, which is not the unknown-plugin code. *)
Lemma target_new_unknown_name_is_not_unknown_plugin :
  (twopence_target_new (H := twopence_h_sample)
     (λ _, twopence_ssh_ops (H := twopence_h_sample)) "telnet:host" ∅ (env_const 0) []
   = ((TWOPENCE_INVALID_TARGET_SPEC (twopence_h := twopence_h_sample), None, ∅), [])
   ∧ twopence_target_new (H := twopence_h_sample)
       (λ _, twopence_ssh_ops (H := twopence_h_sample)) ":host" ∅ (env_const 0) []
     = ((TWOPENCE_INVALID_TARGET_SPEC (twopence_h := twopence_h_sample), None, ∅), []))
  ∧ TWOPENCE_INVALID_TARGET_SPEC (twopence_h := twopence_h_sample)
    ≠ TWOPENCE_UNKNOWN_PLUGIN (twopence_h := twopence_h_sample).
Proof. repeat split. discriminate. Qed.

(** C1 on a target whose foreground command runs without a tty. *)
Lemma interrupt_without_tty_returns_0_witness :
  (@twopence_interrupt_command twopence_h_sample _
     (@twopence_ssh_target_ops twopence_h_sample) target_no_tty (env_const 0) []).1.1 = 0
  ∧ 0 ≠ TWOPENCE_INTERRUPT_COMMAND_ERROR (twopence_h := twopence_h_sample).
Proof.
  assert (Hok : @twopence_h_ok twopence_h_sample).
  { apply (bool_decide_unpack _). vm_compute. exact I. }
  destruct (interrupt_without_tty_returns_0 (H := twopence_h_sample)
              target_no_tty trans_no_tty (env_const 0) [] Hok eq_refl)
    as [Hrun Hne]; [ discriminate | reflexivity | ].
  split; [ rewrite Hrun; reflexivity | exact Hne ].
Defined.

(** ** End of input *)

Lemma callback_keeps_flags (trans : twopence_ssh_transaction_t) (signals : list string) :
  let trans' := foldl __twopence_ssh_exit_signal_callback trans signals in
  channel trans' = channel trans ∧ eof_sent trans' = eof_sent trans
  ∧ use_tty trans' = use_tty trans ∧ exception trans' = exception trans
  ∧ status_ret trans' = status_ret trans ∧ session trans' = session trans.
Proof.
  revert trans. induction signals as [|s signals IH]; intros trans; simpl; [tauto |].
  destruct (IH (__twopence_ssh_exit_signal_callback trans s)) as (-> & -> & -> & -> & -> & ->).
  unfold __twopence_ssh_exit_signal_callback.
  destruct (signames_lookup signames 0 s); simpl; tauto.
Qed.

(** Once the end of input was sent, the routine does nothing. *)
Lemma send_eof_after_sent (trans : twopence_ssh_transaction_t) (e : env) (h : trace) :
  eof_sent trans = true →
  __twopence_ssh_transaction_send_eof trans e h = ((SSH_OK, trans), h).
Proof.
  intros Hsent. unfold __twopence_ssh_transaction_send_eof.
  rewrite Hsent, orb_true_r. reflexivity.
Qed.

(** Without a tty the routine sends the channel EOF, and records it when
    libssh reports [SSH_OK]. *)
Lemma send_eof_without_tty (trans : twopence_ssh_transaction_t) (e : env) (h : trace) :
  channel trans ≠ NULL → eof_sent trans = false → use_tty trans = false →
  let c := ssh_channel_send_eof (channel trans) in
  ret (e h c) = SSH_OK →
  ∃ trans', __twopence_ssh_transaction_send_eof trans e h = ((SSH_OK, trans'), h ++ [c])
            ∧ eof_sent trans' = true.
Proof.
  intros Hch Hsent Htty c Hok. unfold __twopence_ssh_transaction_send_eof.
  rewrite Hsent, Htty. destruct (Z.eqb_spec (channel trans) NULL); [contradiction |].
  unfold c in *. unfold chan. munfold. simpl. rewrite !Hok. simpl.
  eexists. split; reflexivity.
Qed.

(** Under a tty the routine writes the control byte; libssh answers the
    number of bytes written, which is not [SSH_OK]: the channel EOF is not
    sent, nothing is recorded, and the answer is handed to the caller. *)
Lemma send_eof_under_tty (trans : twopence_ssh_transaction_t) (e : env) (h : trace) :
  channel trans ≠ NULL → eof_sent trans = false → use_tty trans = true →
  let c := ssh_channel_write (channel trans) ctrl_d in
  ret (e h c) ≠ SSH_OK →
  ∃ trans', __twopence_ssh_transaction_send_eof trans e h = ((ret (e h c), trans'), h ++ [c])
            ∧ channel trans' = channel trans ∧ eof_sent trans' = false
            ∧ use_tty trans' = true.
Proof.
  intros Hch Hsent Htty c Hw. unfold __twopence_ssh_transaction_send_eof.
  rewrite Hsent, Htty. destruct (Z.eqb_spec (channel trans) NULL); [contradiction |].
  apply Z.eqb_neq in Hw. unfold c in *.
  unfold chan. munfold. simpl. rewrite !Hw.
  eexists. split; [reflexivity |].
  destruct (callback_keeps_flags trans
              (exit_signals (e h (ssh_channel_write (channel trans) ctrl_d))))
    as (-> & -> & -> & _).
  auto.
Qed.

(** Under a tty, when every write of one byte is answered by 1, [n]
    invocations write the control byte [n] times. *)
Lemma send_eof_times_under_tty (n : nat) (trans : twopence_ssh_transaction_t)
    (e : env) (h : trace) :
  channel trans ≠ NULL → eof_sent trans = false → use_tty trans = true →
  (∀ h', ret (e h' (ssh_channel_write (channel trans) ctrl_d)) = 1) →
  (send_eof_times n trans e h).2
  = h ++ replicate n (ssh_channel_write (channel trans) ctrl_d).
Proof.
  revert trans h. induction n as [|n IH]; intros trans h Hch Hsent Htty Hw; simpl.
  - rewrite app_nil_r. reflexivity.
  - destruct (send_eof_under_tty trans e h Hch Hsent Htty) as (trans' & Hrun & Hch' & Hsent' & Htty').
    { rewrite Hw. discriminate. }
    munfold. rewrite Hrun.
    rewrite IH; rewrite ?Hch'; try assumption.
    rewrite <- app_assoc. reflexivity.
Qed.

(** C7: a transaction under a tty whose stdin reaches its end and whose
    exit status is then read writes the control byte 0x04 twice and never
    sends the channel EOF; [eof_sent] is still unset at the end. *)
Theorem end_of_input_twice_under_tty :
  let run :=
    ('(_, trans) ← __twopence_ssh_transaction_mark_stdin_eof trans_tty;
     __twopence_ssh_transaction_get_exit_status (H := twopence_h_sample) trans
       {| major := 0; minor := 0 |}) env_writes_all [] in
  run.2 = [ ssh_channel_write 7 ctrl_d; ssh_channel_write 7 ctrl_d;
            ssh_channel_get_exit_status 7 ]
  ∧ eof_sent run.1.1.2 = false
  ∧ run.1.1.1 = 0.
Proof. vm_compute. repeat split. Qed.

(** ** Exit status and exit signal *)

(** The loop of the callback finds the first entry that holds the name. *)
Lemma signames_lookup_first (tbl : list (option string)) (base : Z) (i : nat)
    (name : string) :
  tbl !! i = Some (Some name) → Some name ∉ take i tbl →
  signames_lookup tbl base name = Some (base + Z.of_nat i).
Proof.
  revert base i. induction tbl as [|entry tbl IH]; intros base [|i] Hi Hfirst;
    simpl in *; try discriminate.
  - injection Hi as ->. rewrite String.eqb_refl. f_equal. lia.
  - apply not_elem_of_cons in Hfirst as [Hne Hfirst].
    destruct entry as [name'|].
    + destruct (String.eqb_spec name' name) as [->|_]; [congruence |].
      rewrite (IH (base + 1) i Hi Hfirst). f_equal. lia.
    + rewrite (IH (base + 1) i Hi Hfirst). f_equal. lia.
Qed.

Lemma signames_lookup_none (tbl : list (option string)) (base : Z) (name : string) :
  (∀ i : nat, tbl !! i ≠ Some (Some name)) → signames_lookup tbl base name = None.
Proof.
  revert base. induction tbl as [|entry tbl IH]; intros base Hnone; simpl; [reflexivity |].
  assert (Htl : ∀ i : nat, tbl !! i ≠ Some (Some name)) by (intros i; apply (Hnone (S i))).
  destruct entry as [name'|]; [| apply IH, Htl].
  destruct (String.eqb_spec name' name) as [->|_]; [| apply IH, Htl].
  exfalso. apply (Hnone 0%nat). reflexivity.
Qed.

(** No name stands twice in [signames]. *)
Lemma signames_first (i : nat) (name : string) :
  signames !! i = Some (Some name) → Some name ∉ take i signames.
Proof.
  intros Hi.
  let t := eval vm_compute in signames in change signames with t in *.
  do 65 (destruct i as [|i];
         [ simpl in Hi; try discriminate; injection Hi as <-;
           apply (bool_decide_unpack _); vm_compute; exact I | ]).
  discriminate.
Qed.

(** SIGABRT and SIGIOT are one number: of the two initialisers for that
    entry the later one stays, the table holds IOT there, and ABRT is a name
    the table does not hold. *)
Lemma signames_at_SIGABRT (trans : twopence_ssh_transaction_t) :
  signames !! Z.to_nat SIGABRT = Some (Some "IOT")
  ∧ exit_signal (__twopence_ssh_exit_signal_callback trans "IOT") = SIGIOT
  ∧ exit_signal (__twopence_ssh_exit_signal_callback trans "ABRT") = -1.
Proof. repeat split. Qed.

Section exit_status.
Context `{twopence_h}.

(** C5: when the exit status read from the channel is [SSH_ERROR] and the
    exit signal recorded by then is [S], not zero, the status reported is
    major [EFAULT], minor [S].  The callback records its number for every
    name of the initialiser of [signames] but one, and -1 for every other
    name.  The one is ABRT: the initialiser lists it for [SIGABRT], which
    is the number of [SIGIOT], whose entry comes next and replaces it;
    for the name ABRT the callback records -1, and a command killed by
    SIGABRT is reported with minor -1. *)
Theorem exit_signal_of_ABRT_is_lost :
  let table :=
    [ (SIGHUP, "HUP"); (SIGINT, "INT"); (SIGQUIT, "QUIT"); (SIGILL, "ILL");
      (SIGTRAP, "TRAP"); (SIGIOT, "IOT"); (SIGBUS, "BUS"); (SIGFPE, "FPE");
      (SIGKILL, "KILL"); (SIGUSR1, "USR1"); (SIGSEGV, "SEGV"); (SIGUSR2, "USR2");
      (SIGPIPE, "PIPE"); (SIGALRM, "ALRM"); (SIGTERM, "TERM"); (SIGSTKFLT, "STKFLT");
      (SIGCHLD, "CHLD"); (SIGCONT, "CONT"); (SIGSTOP, "STOP"); (SIGTSTP, "TSTP");
      (SIGTTIN, "TTIN"); (SIGTTOU, "TTOU"); (SIGURG, "URG"); (SIGXCPU, "XCPU");
      (SIGXFSZ, "XFSZ"); (SIGVTALRM, "VTALRM"); (SIGPROF, "PROF"); (SIGWINCH, "WINCH");
      (SIGIO, "IO"); (SIGPWR, "PWR"); (SIGSYS, "SYS") ] in
  (∀ (trans t1 t2 : twopence_ssh_transaction_t) (status : twopence_status_t)
     (e : env) (h h1 h2 : trace) (rc S : Z) (r : reply),
     status_ret trans = true → channel trans ≠ NULL →
     __twopence_ssh_transaction_send_eof trans e h = ((rc, t1), h1) →
     rc ≠ SSH_ERROR →
     chan t1 (ssh_channel_get_exit_status (channel t1)) e h1 = ((r, t2), h2) →
     ret r = SSH_ERROR → exit_signal t2 = S → S ≠ 0 →
     __twopence_ssh_transaction_get_exit_status trans status e h
     = ((0, set_status_ret t2 false, {| major := EFAULT; minor := S |}), h2))
  ∧ signames_init = take 5 table ++ (SIGABRT, "ABRT") :: drop 5 table
  ∧ table.*1 = [ 1; 2; 3; 4; 5; 6; 7; 8; 9; 10; 11; 12; 13; 14; 15; 16; 17; 18; 19; 20;
                 21; 22; 23; 24; 25; 26; 27; 28; 29; 30; 31 ]
  ∧ (∀ trans : twopence_ssh_transaction_t,
       Forall (λ entry, exit_signal (__twopence_ssh_exit_signal_callback trans entry.2)
                        = entry.1) table)
  ∧ (∀ (trans : twopence_ssh_transaction_t) (name : string),
       name ∉ table.*2 →
       exit_signal (__twopence_ssh_exit_signal_callback trans name) = -1)
  ∧ (∀ trans : twopence_ssh_transaction_t,
       exit_signal (__twopence_ssh_exit_signal_callback trans "ABRT") = -1)
  ∧ SIGABRT = 6
  ∧ __twopence_ssh_transaction_get_exit_status trans_no_tty_running
      {| major := 0; minor := 0 |} env_aborted []
    = ((0, set_status_ret (set_exit_signal (set_eof_sent trans_no_tty_running true) (-1))
             false,
        {| major := EFAULT; minor := -1 |}),
       [ssh_channel_send_eof 7; ssh_channel_get_exit_status 7]).
Proof.
  intros table. split; [| split; [| split; [| split; [| split; [| split; [| split]]]]]].
  - intros trans t1 t2 status e h h1 h2 rc S r Hst Hch Heof Hrc Hget Hret HS HS0.
    unfold __twopence_ssh_transaction_get_exit_status.
    rewrite Hst. simpl.
    destruct (Z.eqb_spec (channel trans) NULL); [contradiction |].
    munfold. rewrite Heof.
    destruct (Z.eqb_spec rc SSH_ERROR); [contradiction |].
    rewrite Hget. simpl. rewrite Hret, HS. simpl.
    destruct (Z.eqb_spec S 0); [contradiction | reflexivity].
  - reflexivity.
  - reflexivity.
  - intros trans. subst table. repeat constructor.
  - intros trans name Hnot. unfold __twopence_ssh_exit_signal_callback.
    rewrite (signames_lookup_none _ 0 name); [reflexivity |].
    intros i Hi. apply Hnot. subst table.
    let t := eval vm_compute in signames in change signames with t in Hi.
    do 65 (destruct i as [|i];
           [ simpl in Hi; try discriminate Hi; injection Hi as <-; simpl;
             repeat first [ apply list_elem_of_here | apply list_elem_of_further ] | ]).
    discriminate Hi.
  - intros trans. reflexivity.
  - reflexivity.
  - reflexivity.
Qed.

End exit_status.

(** C5 on a command killed by SIGTERM, for which the status is the one of
    the claim. *)
Lemma exit_signal_of_ABRT_is_lost_witness :
  __twopence_ssh_transaction_get_exit_status (H := twopence_h_sample) trans_no_tty_running
    {| major := 0; minor := 0 |} env_killed []
  = ((0, set_status_ret (set_exit_signal (set_eof_sent trans_no_tty_running true) SIGTERM) false,
      {| major := EFAULT; minor := SIGTERM |}),
     [ssh_channel_send_eof 7; ssh_channel_get_exit_status 7]).
Proof.
  apply (proj1 (exit_signal_of_ABRT_is_lost (H := twopence_h_sample))
           trans_no_tty_running (set_eof_sent trans_no_tty_running true)
           (set_exit_signal (set_eof_sent trans_no_tty_running true) SIGTERM)
           _ env_killed [] [ssh_channel_send_eof 7]
           [ssh_channel_send_eof 7; ssh_channel_get_exit_status 7]
           SSH_OK SIGTERM
           {| ret := SSH_ERROR; out := 0; bytes := ""; exit_signals := ["TERM"] |});
    first [ reflexivity | discriminate ].
Defined.

(** ** The output sink in its buffer modes *)

Lemma with_outbuf_id (sink : twopence_sink) : with_outbuf sink (outbuf sink) = sink.
Proof. destruct sink; reflexivity. Qed.

Lemma with_errbuf_id (sink : twopence_sink) : with_errbuf sink (errbuf sink) = sink.
Proof. destruct sink; reflexivity. Qed.

(** A write in a buffer mode makes no external call.  To a full buffer it
    changes nothing and gives -1; to a buffer with room it stores the byte
    at the cursor, moves the cursor by one and gives 0. *)
Lemma sink_putc_buffer (sink : twopence_sink) (is_error : bool) (c : ascii) (m : mem)
    (e : env) (h : trace) :
  buffer_mode (mode sink) →
  twopence_sink_putc sink is_error c m e h
  = if end_ (sink_target sink is_error) <=? tail (sink_target sink is_error)
    then ((-1, sink, m), h)
    else ((0, sink_advance sink is_error, <[tail (sink_target sink is_error) := c]> m), h).
Proof.
  intros Hmode.
  unfold twopence_sink_putc, __twopence_sink_write_stdout, __twopence_sink_write_stderr,
    __twopence_buffer_putc, sink_target, sink_advance, aims_at_errbuf.
  destruct Hmode as [Hm|Hm]; rewrite Hm; destruct is_error;
    match goal with
    | |- context [end_ ?b <=? tail ?b] => destruct (end_ b <=? tail b)
    end;
    munfold; simpl; rewrite ?with_outbuf_id, ?with_errbuf_id; reflexivity.
Qed.

(** What a sequence of writes does to a sink in a buffer mode whose
    cursors are within their bounds. *)
Lemma sink_putcs_spec (ws : list (bool * ascii)) (sink : twopence_sink) (m : mem)
    (e : env) (h : trace) :
  buffer_mode (mode sink) →
  tail (outbuf sink) ≤ end_ (outbuf sink) → tail (errbuf sink) ≤ end_ (errbuf sink) →
  ∃ sink' m',
    sink_putcs ws sink m e h = ((sink', m'), h)
    ∧ mode sink' = mode sink
    ∧ end_ (outbuf sink') = end_ (outbuf sink) ∧ end_ (errbuf sink') = end_ (errbuf sink)
    ∧ tail (outbuf sink')
      = Z.min (end_ (outbuf sink))
              (tail (outbuf sink) + Z.of_nat (length (writes_to (mode sink) false ws)))
    ∧ tail (errbuf sink')
      = Z.min (end_ (errbuf sink))
              (tail (errbuf sink) + Z.of_nat (length (writes_to (mode sink) true ws)))
    ∧ (∀ a, ¬ (tail (outbuf sink) ≤ a < end_ (outbuf sink)) →
            ¬ (tail (errbuf sink) ≤ a < end_ (errbuf sink)) → m' !! a = m !! a).
Proof.
  revert sink m. induction ws as [|[is_error c] ws IH]; intros sink m Hmode Hout Herr.
  - exists sink, m. simpl. repeat split; try reflexivity; lia.
  - simpl sink_putcs. munfold. rewrite (sink_putc_buffer _ _ _ _ _ _ Hmode).
    unfold sink_target, sink_advance. simpl writes_to.
    destruct (aims_at_errbuf (mode sink) is_error) eqn:Haim; simpl Bool.eqb; cbv iota;
      match goal with
      | |- context [end_ ?b <=? tail ?b] => destruct (Z.leb_spec (end_ b) (tail b))
      end.
    + destruct (IH sink m Hmode Hout Herr)
        as (sink' & m' & Hrun & Hm & He1 & He2 & Ht1 & Ht2 & Hfr).
      exists sink', m'. rewrite Hrun. simpl length.
      repeat split; try assumption. lia.
    + destruct (IH (with_errbuf sink {| tail := tail (errbuf sink) + 1;
                                        end_ := end_ (errbuf sink) |})
                  (<[tail (errbuf sink) := c]> m) Hmode Hout ltac:(simpl; lia))
        as (sink' & m' & Hrun & Hm & He1 & He2 & Ht1 & Ht2 & Hfr).
      exists sink', m'. rewrite Hrun. simpl in *.
      repeat split; try assumption; try lia.
      intros a Ha1 Ha2. rewrite Hfr by lia. apply lookup_insert_ne. lia.
    + destruct (IH sink m Hmode Hout Herr)
        as (sink' & m' & Hrun & Hm & He1 & He2 & Ht1 & Ht2 & Hfr).
      exists sink', m'. rewrite Hrun. simpl length.
      repeat split; try assumption. lia.
    + destruct (IH (with_outbuf sink {| tail := tail (outbuf sink) + 1;
                                        end_ := end_ (outbuf sink) |})
                  (<[tail (outbuf sink) := c]> m) Hmode ltac:(simpl; lia) Herr)
        as (sink' & m' & Hrun & Hm & He1 & He2 & Ht1 & Ht2 & Hfr).
      exists sink', m'. rewrite Hrun. simpl in *.
      repeat split; try assumption; try lia.
      intros a Ha1 Ha2. rewrite Hfr by lia. apply lookup_insert_ne. lia.
Qed.

(** A [twopence_sink_write] of at least one byte to a full buffer. *)
Lemma sink_write_full (sink : twopence_sink) (is_error : bool) (c : ascii)
    (data : list ascii) (m : mem) (e : env) (h : trace) :
  buffer_mode (mode sink) →
  end_ (sink_target sink is_error) ≤ tail (sink_target sink is_error) →
  twopence_sink_write sink is_error (c :: data) m e h = ((-1, sink, m), h).
Proof.
  intros Hmode Hfull.
  pose proof (sink_putc_buffer sink is_error c m e h Hmode) as Hput.
  destruct (Z.leb_spec (end_ (sink_target sink is_error))
              (tail (sink_target sink is_error))); [| lia].
  unfold twopence_sink_write, twopence_sink_putc in *.
  destruct is_error; simpl; munfold; rewrite Hput; reflexivity.
Qed.

(** C2 as amended: a sink initialised in a buffer mode with bound
    [bufsize], after any sequence of byte writes, has the cursor of each
    buffer at its start plus the number of bytes aimed at it, capped by the
    bound; nothing outside the buffers was written; and once a cursor
    has reached its bound each further write to that buffer leaves the
    sink and the memory unchanged and returns -1, as does a
    [twopence_sink_write] of one byte or more. *)
Theorem sink_buffer_write_at_bound
    (md : twopence_output_t) (obuf ebuf bufsize : Z) (ws : list (bool * ascii))
    (m : mem) (e : env) (h : trace) :
  md = TWOPENCE_OUTPUT_BUFFER
  ∨ (md = TWOPENCE_OUTPUT_BUFFER_SEPARATELY ∧ ebuf ≠ NULL) →
  obuf ≠ NULL → 0 < bufsize →
  ∃ sink m',
    (sink0 ← twopence_sink_init md obuf ebuf bufsize; sink_putcs ws sink0 m) e h
    = ((sink, m'), h)
    ∧ tail (outbuf sink)
      = obuf + Z.min bufsize (Z.of_nat (length (writes_to md false ws)))
    ∧ end_ (outbuf sink) = obuf + bufsize
    ∧ (md = TWOPENCE_OUTPUT_BUFFER_SEPARATELY →
       tail (errbuf sink)
       = ebuf + Z.min bufsize (Z.of_nat (length (writes_to md true ws)))
       ∧ end_ (errbuf sink) = ebuf + bufsize)
    ∧ (∀ a, ¬ (obuf ≤ a < obuf + bufsize) →
            ¬ (md = TWOPENCE_OUTPUT_BUFFER_SEPARATELY ∧ ebuf ≤ a < ebuf + bufsize) →
            m' !! a = m !! a)
    ∧ (∀ (is_error : bool) (c : ascii),
         tail (sink_target sink is_error) = end_ (sink_target sink is_error) →
         twopence_sink_putc sink is_error c m' e h = ((-1, sink, m'), h)
         ∧ ∀ data, twopence_sink_write sink is_error (c :: data) m' e h
                   = ((-1, sink, m'), h)).
Proof.
  intros Hmode Hobuf Hsize.
  assert (Hinit : ∃ sink0,
             twopence_sink_init md obuf ebuf bufsize e h = (sink0, h)
             ∧ mode sink0 = md ∧ buffer_mode md
             ∧ outbuf sink0 = {| tail := obuf; end_ := obuf + bufsize |}
             ∧ (md = TWOPENCE_OUTPUT_BUFFER → errbuf sink0 = {| tail := NULL; end_ := NULL |})
             ∧ (md = TWOPENCE_OUTPUT_BUFFER_SEPARATELY →
                errbuf sink0 = {| tail := ebuf; end_ := ebuf + bufsize |})).
  { unfold twopence_sink_init, buffer_mode.
    destruct (Z.eqb_spec obuf NULL); [contradiction |].
    destruct (Z.eqb_spec bufsize 0); [lia |].
    destruct Hmode as [->|[-> Hebuf]].
    - eexists. split; [reflexivity |]. simpl. repeat split; auto; discriminate.
    - destruct (Z.eqb_spec ebuf NULL); [contradiction |].
      eexists. split; [reflexivity |]. simpl. repeat split; auto; discriminate. }
  destruct Hinit as (sink0 & Hinit & Hmd & Hbuf & Hout0 & Herr0 & Herr1).
  assert (Hbuf0 : buffer_mode (mode sink0)) by (rewrite Hmd; exact Hbuf).
  assert (Herr : tail (errbuf sink0) ≤ end_ (errbuf sink0)).
  { destruct Hbuf as [Hb|Hb]; [rewrite (Herr0 Hb) | rewrite (Herr1 Hb)]; simpl; lia. }
  destruct (sink_putcs_spec ws sink0 m e h Hbuf0 ltac:(rewrite Hout0; simpl; lia) Herr)
    as (sink & m' & Hrun & Hm & He1 & He2 & Ht1 & Ht2 & Hfr).
  exists sink, m'. munfold. rewrite Hinit, Hrun.
  rewrite Hmd, Hout0 in *. simpl in *.
  split; [reflexivity |]. split; [lia |]. split; [lia |]. split; [| split].
  - intros Hsep. rewrite (Herr1 Hsep) in *. simpl in *. lia.
  - intros a Ha1 Ha2. apply Hfr; [lia |].
    destruct Hbuf as [Hb|Hb]; [rewrite (Herr0 Hb) | rewrite (Herr1 Hb)]; simpl.
    + unfold NULL. lia.
    + intros Hin. apply Ha2. split; [exact Hb | lia].
  - intros is_error c Hfull.
    assert (Hbm : buffer_mode (mode sink)) by (rewrite Hm; exact Hbuf).
    split.
    + rewrite (sink_putc_buffer _ _ _ _ _ _ Hbm).
      destruct (Z.leb_spec (end_ (sink_target sink is_error))
                  (tail (sink_target sink is_error))); [reflexivity | lia].
    + intros data. apply sink_write_full; [exact Hbm | lia].
Qed.

(** C2 as amended, on two buffers of two bytes each and four writes. *)
Lemma sink_buffer_write_at_bound_witness :
  ∃ sink m',
    (sink0 ← twopence_sink_init TWOPENCE_OUTPUT_BUFFER_SEPARATELY 100 200 2;
     sink_putcs [(false, "a"%char); (true, "x"%char); (false, "b"%char);
                 (false, "c"%char)] sink0 ∅) (env_const 0) []
    = ((sink, m'), [])
    ∧ tail (outbuf sink) = 102 ∧ tail (errbuf sink) = 201
    ∧ twopence_sink_putc sink false "d"%char m' (env_const 0) [] = ((-1, sink, m'), []).
Proof.
  destruct (sink_buffer_write_at_bound TWOPENCE_OUTPUT_BUFFER_SEPARATELY 100 200 2
              [(false, "a"%char); (true, "x"%char); (false, "b"%char); (false, "c"%char)]
              ∅ (env_const 0) [])
    as (sink & m' & Hrun & Ht & He & Herr & _ & Hfull).
  - right. split; [reflexivity | discriminate].
  - discriminate.
  - lia.
  - exists sink, m'. split; [exact Hrun |].
    destruct (Herr eq_refl) as [Hte _].
    split; [exact Ht |]. split; [exact Hte |].
    apply Hfull. unfold sink_target.
    replace (mode sink) with TWOPENCE_OUTPUT_BUFFER_SEPARATELY.
    + simpl. rewrite Ht, He. reflexivity.
    + revert Hrun. vm_compute. intros [= <- _]. reflexivity.
Defined.

(** C2 as stated fails: a sink in buffer mode with a bound of one byte
    takes the first byte and returns 0; the cursor is then at the bound,
    and the next write leaves the cursor and the memory as they are, but
    returns -1, not success. *)
Lemma sink_write_at_bound_is_an_error :
  let run :=
    (sink ← twopence_sink_init TWOPENCE_OUTPUT_BUFFER 100 NULL 1;
     '(rc1, sink1, m1) ← twopence_sink_putc sink false "a"%char ∅;
     '(rc2, sink2, m2) ← twopence_sink_putc sink1 false "b"%char m1;
     mret (rc1, tail (outbuf sink1) - end_ (outbuf sink1), rc2,
           tail (outbuf sink2) - end_ (outbuf sink2),
           m2 !! 100, m2 !! 101)) (env_const 0) [] in
  run = ((0, 0, -1, 0, Some "a"%char, None), []).
Proof. vm_compute. reflexivity. Qed.

(** ** Parsing the SSH target specification *)

Section ssh_init.
Context `{twopence_h}.

(** A body without a colon is a host name, taken with port 22. *)
Lemma ssh_init_host_only (host : string) (e : env) (h : trace) :
  strrchr_colon host = None →
  twopence_ssh_init (Some host) e h = __twopence_ssh_init host 22 e h.
Proof. intros Hno. unfold twopence_ssh_init. rewrite Hno. reflexivity. Qed.

(** The examples of the specification: a port after the host, a
    bracketed address, and a port out of range. *)
Lemma ssh_init_examples (e : env) (h : trace) :
  twopence_ssh_init (Some "host") e h = __twopence_ssh_init "host" 22 e h
  ∧ twopence_ssh_init (Some "host:2222") e h = __twopence_ssh_init "host" 2222 e h
  ∧ twopence_ssh_init (Some "[::1]:22") e h = __twopence_ssh_init "::1" 22 e h
  ∧ twopence_ssh_init (Some "host:99999") e h = (None, h)
  ∧ twopence_ssh_init (Some "host:22x") e h = (None, h)
  ∧ twopence_ssh_init (Some "host:65535") e h = (None, h).
Proof. repeat split. Qed.

(** When the allocations and the option settings succeed the handle is
    made for the host and the port given. *)
Lemma ssh_init_makes_handle (hostname : string) (port : Z) (h : trace) :
  __twopence_ssh_init hostname port env_alloc h
  = (Some {| target_addr := 1000; base_plugin_type := TWOPENCE_PLUGIN_SSH;
             base_current_io := NULL; template := 2000; foreground := None |},
     h ++ [ calloc; ssh_new; ssh_options_set_str 2000 SSH_OPTIONS_HOST hostname;
            ssh_options_set_uint 2000 SSH_OPTIONS_PORT port ]).
Proof.
  unfold __twopence_ssh_init. munfold. simpl.
  rewrite <- !app_assoc. reflexivity.
Qed.

(** A body that ends in a colon has an empty port: [strtoul] converts
    nothing, gives 0 and leaves its end pointer on the terminating NUL, so
    both tests pass and the port handed on is 0; whether a handle is made
    is then up to [ssh_options_set]. *)
Lemma ssh_init_empty_port (e : env) (h : trace) :
  strtoul10 "" = (0, "")
  ∧ twopence_ssh_init (Some "host:") e h = __twopence_ssh_init "host" 0 e h.
Proof. split; reflexivity. Qed.

(** Other ports that are no decimal integer in the range and are taken
    all the same: white space and a sign before the digits, and a negative
    number that wraps around to 1. *)
Lemma ssh_init_accepts_more (e : env) (h : trace) :
  twopence_ssh_init (Some "host: +22") e h = __twopence_ssh_init "host" 22 e h
  ∧ twopence_ssh_init (Some "host:-18446744073709551615") e h
    = __twopence_ssh_init "host" 1 e h.
Proof. split; reflexivity. Qed.

End ssh_init.

(** ** Teardown of a transfer *)

Lemma quiet_ret {A : Type} (a : A) : quiet (mret a).
Proof. intros e h. exists []. split; [symmetry; apply app_nil_r | constructor]. Qed.

Lemma quiet_bind {A B : Type} (m : M A) (f : A → M B) :
  quiet m → (∀ a, quiet (f a)) → quiet (m ≫= f).
Proof.
  intros Hm Hf e h. munfold. destruct (Hm e h) as (l1 & Hh1 & Hl1).
  destruct (m e h) as [a h1]. simpl in Hh1. subst h1.
  destruct (Hf a e (h ++ l1)) as (l2 & Hh2 & Hl2).
  exists (l1 ++ l2). rewrite Hh2, app_assoc. split; [reflexivity |].
  apply Forall_app; split; assumption.
Qed.

Lemma quiet_ext (c : call) : teardown c = false → quiet (ext c).
Proof. intros Hc e h. exists [c]. split; [reflexivity |]. repeat constructor. exact Hc. Qed.

Lemma quiet_ext_ret (c : call) : teardown c = false → quiet (ext_ret c).
Proof. intros Hc. apply quiet_bind; [apply quiet_ext, Hc | intros; apply quiet_ret]. Qed.

(** Goes through a computation built from calls that are no teardown. *)
Ltac quiet_step :=
  first
    [ apply quiet_ret
    | apply quiet_ext_ret; reflexivity
    | apply quiet_ext; reflexivity
    | apply quiet_bind; [ | intros ? ]
    | match goal with
      | |- quiet (if ?b then _ else _) => destruct b
      | |- quiet (match ?x with _ => _ end) => destruct x
      end ].

Section transfers.
Context `{twopence_h}.

Lemma quiet_output (c : ascii) : quiet (__twopence_ssh_output c).
Proof. unfold __twopence_ssh_output. repeat quiet_step. Qed.

Lemma quiet_init_copy (trans : twopence_scp_transaction_t) (direction : Z)
    (remote_name : string) :
  quiet (twopence_scp_transfer_init_copy trans direction remote_name).
Proof. unfold twopence_scp_transfer_init_copy. repeat quiet_step. Qed.

Lemma quiet_receive_file (fuel : nat) (trans : twopence_scp_transaction_t)
    (status : twopence_status_t) :
  quiet (__twopence_ssh_receive_file fuel trans status).
Proof.
  revert trans status. induction fuel as [|fuel IH]; intros trans status; simpl.
  - repeat first [ apply quiet_output | quiet_step ].
  - repeat first [ apply quiet_output | apply IH | quiet_step ].
Qed.

Lemma quiet_extract_ssh (trans : twopence_scp_transaction_t) (xfer : twopence_file_xfer_t)
    (status : twopence_status_t) :
  quiet (__twopence_ssh_extract_ssh trans xfer status).
Proof.
  unfold __twopence_ssh_extract_ssh.
  repeat first [ apply quiet_init_copy | apply quiet_receive_file | quiet_step ].
Qed.

(** Whatever the environment answers, once the session of the transfer is
    open [twopence_ssh_extract_file] makes no teardown call before it
    returns. *)
Lemma extract_file_never_tears_down (handle : twopence_ssh_target)
    (xfer : twopence_file_xfer_t) (status : twopence_status_t) (e : env) (h h1 : trace)
    (rc : Z) (state : twopence_scp_transaction_t) :
  twopence_scp_transfer_open_session (twopence_scp_transfer_init handle) (xfer_user xfer) e h
  = ((rc, state), h1) →
  ¬ rc < 0 →
  ∃ l, (twopence_ssh_extract_file handle xfer status e h).2 = h1 ++ l
       ∧ Forall (λ c, teardown c = false) l.
Proof.
  intros Hopen Hrc. unfold twopence_ssh_extract_file. munfold. rewrite Hopen.
  destruct (Z.ltb_spec rc 0); [contradiction |].
  destruct (quiet_extract_ssh state xfer status e h1) as (l & Hl & Hquiet).
  exists l. split; [| exact Hquiet].
  destruct (__twopence_ssh_extract_ssh state xfer status e h1) as [[[[rc' state'] status']|] h2];
    simpl in *; exact Hl.
Qed.

End transfers.

Lemma transfer_destroy_spec (trans : twopence_scp_transaction_t) (e : env) (h : trace) :
  twopence_scp_transfer_destroy trans e h
  = (set_scp_session (set_scp trans NULL) NULL, h ++ teardown_calls trans).
Proof.
  unfold twopence_scp_transfer_destroy, teardown_calls. munfold.
  destruct trans as [hd sess sc ls rem]. simpl.
  destruct (Z.eqb_spec sc NULL) as [->|_]; destruct (Z.eqb_spec sess NULL) as [->|Hsess];
    simpl; try (apply Z.eqb_neq in Hsess; rewrite Hsess; simpl);
    rewrite <- ?app_assoc, ?app_nil_r; reflexivity.
Qed.

Section teardown.
Context `{twopence_h}.

(** The end of [twopence_ssh_inject_file] does tear the transfer down. *)
Lemma inject_file_finish_tears_down (rc : Z) (state : twopence_scp_transaction_t)
    (status : twopence_status_t) (dirname basename : Z) (e : env) (h : trace) :
  (inject_file_finish rc state status dirname basename e h).2
  = h ++ teardown_calls state ++ [free basename; free dirname].
Proof.
  unfold inject_file_finish. munfold. rewrite transfer_destroy_spec. simpl.
  rewrite <- !app_assoc. reflexivity.
Qed.

End teardown.

(** C4: [twopence_ssh_extract_file] returns with the transfer still open.
    On a remote side where every step succeeds, for an empty remote file
    and for one of three bytes, the call returns 0 and its trace ends
    without any of [ssh_scp_close], [ssh_scp_free], [ssh_disconnect] and
    [ssh_free].  [twopence_ssh_inject_file] does make these four calls
    when it runs to its end, but not when the local stream cannot be read
    into a buffer, where it returns early. *)
Theorem transfer_teardown_is_missed :
  twopence_ssh_extract_file (H := twopence_h_sample) target_idle xfer_motd status_zero
    (env_download 0) []
  = (Some (0, status_zero),
     [ ssh_new; ssh_options_copy 3; ssh_options_set_str 501 SSH_OPTIONS_USER "root";
       ssh_connect 501; ssh_userauth_autopubkey 501;
       ssh_scp_new 501 SSH_SCP_READ "/etc/motd"; ssh_scp_init 600;
       ssh_scp_pull_request 600; ssh_scp_request_get_size 600 ])
  ∧ twopence_ssh_extract_file (H := twopence_h_sample) target_idle xfer_motd status_zero
      (env_download 3) []
    = (Some (0, status_zero),
       [ ssh_new; ssh_options_copy 3; ssh_options_set_str 501 SSH_OPTIONS_USER "root";
         ssh_connect 501; ssh_userauth_autopubkey 501;
         ssh_scp_new 501 SSH_SCP_READ "/etc/motd"; ssh_scp_init 600;
         ssh_scp_pull_request 600; ssh_scp_request_get_size 600;
         ssh_scp_accept_request 600; ssh_scp_read 600 3;
         twopence_iostream_write 40 "abc";
         twopence_target_putc false "."; twopence_target_putc false (ascii_of_nat 10);
         ssh_scp_pull_request 600 ])
  ∧ twopence_ssh_inject_file (H := twopence_h_sample) 1 target_idle xfer_motd status_zero
      (env_upload 3) []
    = (Some (0, status_zero),
       [ ssh_new; ssh_options_copy 3; ssh_options_set_str 501 SSH_OPTIONS_USER "root";
         ssh_connect 501; ssh_userauth_autopubkey 501;
         ssh_dirname "/etc/motd"; ssh_basename "/etc/motd";
         twopence_iostream_filesize 40; twopence_iostream_filesize 40;
         ssh_scp_new 501 17 "/etc"; ssh_scp_init 609; ssh_scp_pull_request 609;
         ssh_scp_close 609; ssh_scp_free 609;
         ssh_scp_new 501 SSH_SCP_WRITE "/etc"; ssh_scp_init 614;
         ssh_scp_push_file 614 "motd" 3 420;
         twopence_iostream_read 40 3; ssh_scp_write 614 "abc";
         twopence_target_putc false "."; twopence_target_putc false (ascii_of_nat 10);
         ssh_scp_close 614; ssh_scp_free 614; ssh_disconnect 501; ssh_free 501;
         free 701; free 700 ])
  ∧ twopence_ssh_inject_file (H := twopence_h_sample) 1 target_idle xfer_motd status_zero
      (env_upload (-1)) []
    = (Some (TWOPENCE_LOCAL_FILE_ERROR (twopence_h := twopence_h_sample), status_zero),
       [ ssh_new; ssh_options_copy 3; ssh_options_set_str 501 SSH_OPTIONS_USER "root";
         ssh_connect 501; ssh_userauth_autopubkey 501;
         ssh_dirname "/etc/motd"; ssh_basename "/etc/motd";
         twopence_iostream_filesize 40; twopence_iostream_read_all 40 ]).
Proof. repeat split; vm_compute; reflexivity. Qed.

(** ** [twopence_ssh_extract_file] always returns *)

Lemma to_int_small (z : Z) : - 2 ^ 31 ≤ z < 2 ^ 31 → to_int z = z.
Proof. intros Hz. unfold to_int. rewrite Z.mod_small; lia. Qed.

Lemma to_int_range (z : Z) : - 2 ^ 31 ≤ to_int z < 2 ^ 31.
Proof.
  unfold to_int. pose proof (Z.mod_pos_bound (z + 2 ^ 31) (2 ^ 32) ltac:(lia)). lia.
Qed.

Section extract_returns.
Context `{twopence_h}.

(** One iteration for each byte that remains is enough for the loop. *)
Lemma receive_file_returns (fuel : nat) (trans : twopence_scp_transaction_t)
    (status : twopence_status_t) (e : env) (h : trace) :
  remaining trans ≤ Z.of_nat fuel → remaining trans < 2 ^ 31 →
  is_Some (__twopence_ssh_receive_file fuel trans status e h).1.
Proof.
  revert trans status h. induction fuel as [|fuel IH]; intros trans status h Hfuel Hint.
  - simpl. destruct (Z.leb_spec (remaining trans) 0); [| lia]. munfold. simpl. eauto.
  - simpl. destruct (Z.leb_spec (remaining trans) 0); [munfold; simpl; eauto |].
    rewrite (to_int_small (remaining trans)) by lia.
    set (size := if BUFFER_SIZE <? remaining trans then BUFFER_SIZE else remaining trans).
    assert (Hsize : 0 < size ≤ remaining trans).
    { unfold size, BUFFER_SIZE. destruct (Z.ltb_spec 16384 (remaining trans)); lia. }
    munfold. simpl.
    destruct (negb _); [simpl; eauto |].
    destruct (negb _); [simpl; eauto |].
    apply IH; simpl; lia.
Qed.

Lemma extract_ssh_returns (trans : twopence_scp_transaction_t) (xfer : twopence_file_xfer_t)
    (status : twopence_status_t) (e : env) (h : trace) :
  is_Some (__twopence_ssh_extract_ssh trans xfer status e h).1.
Proof.
  unfold __twopence_ssh_extract_ssh. munfold.
  destruct (twopence_scp_transfer_init_copy trans SSH_SCP_READ (remote_name xfer) e h)
    as [[rc trans1] h1].
  destruct (rc <? 0); [simpl; eauto |]. simpl.
  destruct (negb _); [simpl; eauto |].
  set (size := to_int _). pose proof (to_int_range
    (ret (e (h1 ++ [ssh_scp_pull_request (scp trans1)])
            (ssh_scp_request_get_size (scp trans1))))) as Hrange.
  fold size in Hrange.
  destruct (size =? 0); [simpl; eauto |].
  destruct (negb _); [simpl; eauto |].
  match goal with
  | |- context [__twopence_ssh_receive_file ?f ?t ?s ?e' ?h'] =>
      destruct (receive_file_returns f t s e' h') as [[[rc2 trans2] status2] Hrecv];
      [ simpl; lia | simpl; lia | ];
      destruct (__twopence_ssh_receive_file f t s e' h') as [r h2]
  end.
  simpl in Hrecv. subst r.
  destruct (rc2 <? 0); [simpl; eauto |]. simpl.
  destruct (negb _); simpl; eauto.
Qed.

(** X18: [twopence_ssh_extract_file] returns whatever the remote and the
    local side answer: the loop that receives the file ends, each
    iteration taking at least one byte off what remains, within the
    number of iterations given by the size the remote side announced. *)
Lemma extract_file_returns (handle : twopence_ssh_target) (xfer : twopence_file_xfer_t)
    (status : twopence_status_t) (e : env) (h : trace) :
  is_Some (twopence_ssh_extract_file handle xfer status e h).1.
Proof.
  unfold twopence_ssh_extract_file. munfold.
  destruct (twopence_scp_transfer_open_session _ _ e h) as [[rc state] h1].
  destruct (rc <? 0); [simpl; eauto |].
  destruct (extract_ssh_returns state xfer status e h1) as [[[rc2 state2] status2] Hx].
  destruct (__twopence_ssh_extract_ssh state xfer status e h1) as [r h2].
  simpl in Hx. subst r. simpl. eauto.
Qed.

End extract_returns.

(** ** The exception across the transaction engine *)

Lemma post_ret {A : Type} (a : A) (Q : A → Prop) : Q a → post (mret a) Q.
Proof. intros Ha e h. exact Ha. Qed.

Lemma post_bind {A B : Type} (m : M A) (f : A → M B) (R : A → Prop) (Q : B → Prop) :
  post m R → (∀ a, R a → post (f a) Q) → post (m ≫= f) Q.
Proof.
  intros Hm Hf e h. munfold. specialize (Hm e h).
  destruct (m e h) as [a h1]. apply (Hf a Hm).
Qed.

Lemma post_any {A : Type} (m : M A) : post m (λ _, True).
Proof. intros e h. exact I. Qed.

Lemma sticky_refl (t : twopence_ssh_transaction_t) : sticky t t.
Proof. intros _. reflexivity. Qed.

Lemma sticky_trans (t1 t2 t3 : twopence_ssh_transaction_t) :
  sticky t1 t2 → sticky t2 t3 → sticky t1 t3.
Proof.
  unfold sticky. intros H12 H23 Hne. rewrite <- (H12 Hne). apply H23.
  rewrite (H12 Hne). exact Hne.
Qed.

Lemma sticky_eq (t t' : twopence_ssh_transaction_t) :
  exception t' = exception t → sticky t t'.
Proof. intros Heq _. exact Heq. Qed.

Lemma sticky_fail (t t' : twopence_ssh_transaction_t) (error : Z) :
  sticky t t' → sticky t (__twopence_ssh_transaction_fail t' error).
Proof.
  intros Htt' Hne. unfold __twopence_ssh_transaction_fail.
  destruct (Z.eqb_spec (exception t') 0) as [Hz|Hnz]; [| exact (Htt' Hne)].
  rewrite (Htt' Hne) in Hz. contradiction.
Qed.

(** A transaction reached by field updates and failure recordings. *)
Ltac sticky_solve :=
  unfold keeps, keeps3, okeeps, okeeps3 in *; simpl in *;
  solve [ exact I | assumption | apply sticky_refl
        | apply sticky_fail; sticky_solve
        | eapply sticky_trans; [ eassumption | apply sticky_eq; reflexivity ] ].

Create HintDb sticky.
#[local] Hint Extern 1 (sticky _ _) => sticky_solve : sticky.

Lemma post_chan (t0 t : twopence_ssh_transaction_t) (c : call) :
  sticky t0 t → post (chan t c) (keeps t0).
Proof.
  intros Ht e h. unfold chan, keeps. munfold. simpl.
  eapply sticky_trans; [exact Ht | apply sticky_eq, callback_keeps_flags].
Qed.
#[local] Hint Resolve post_chan : sticky.

(** One step through a function of the engine: a return, a call of a
    function already gone through, a sequence, a branch. *)
Ltac post_step t0 :=
  first
    [ apply post_ret; sticky_solve
    | solve [ eauto 2 with sticky ]
    | eapply (post_bind _ _ (keeps t0)); [ solve [ repeat post_step t0 ] | intros [? ?] ? ]
    | eapply (post_bind _ _ (keeps3 t0));
      [ solve [ repeat post_step t0 ] | intros [[? ?] ?] ? ]
    | eapply (post_bind _ _ (okeeps t0));
      [ solve [ repeat post_step t0 ] | intros [[? ?]|] ? ]
    | eapply (post_bind _ _ (okeeps3 t0));
      [ solve [ repeat post_step t0 ] | intros [[[? ?] ?]|] ? ]
    | eapply (post_bind _ _ (λ _, True)); [ apply post_any | intros ? _ ]
    | match goal with
      | |- post (if ?b then _ else _) _ => destruct b
      | |- post (match ?x with _ => _ end) _ => destruct x
      | |- context [if ?b then _ else _] => destruct b
      end ].

Ltac post_go :=
  match goal with
  | |- post _ (keeps ?t0) => repeat post_step t0
  | |- post _ (keeps3 ?t0) => repeat post_step t0
  | |- post _ (okeeps ?t0) => repeat post_step t0
  | |- post _ (okeeps3 ?t0) => repeat post_step t0
  end.

Lemma post_send_eof (t0 t : twopence_ssh_transaction_t) :
  sticky t0 t → post (__twopence_ssh_transaction_send_eof t) (keeps t0).
Proof. intros Ht. unfold __twopence_ssh_transaction_send_eof. post_go. Qed.
#[local] Hint Resolve post_send_eof : sticky.

Lemma post_mark_stdin_eof (t0 t : twopence_ssh_transaction_t) :
  sticky t0 t → post (__twopence_ssh_transaction_mark_stdin_eof t) (keeps t0).
Proof. intros Ht. unfold __twopence_ssh_transaction_mark_stdin_eof. post_go. Qed.
#[local] Hint Resolve post_mark_stdin_eof : sticky.

Lemma post_forward_stdin (t0 t : twopence_ssh_transaction_t) :
  sticky t0 t → post (__twopence_ssh_transaction_forward_stdin t) (keeps t0).
Proof. intros Ht. unfold __twopence_ssh_transaction_forward_stdin. post_go. Qed.
#[local] Hint Resolve post_forward_stdin : sticky.

Section engine.
Context `{twopence_h}.

Lemma post_forward_output (t0 t : twopence_ssh_transaction_t) (is_stderr : bool) :
  sticky t0 t → post (__twopence_ssh_transaction_forward_output t is_stderr) (keeps t0).
Proof. intros Ht. unfold __twopence_ssh_transaction_forward_output. post_go. Qed.
#[local] Hint Resolve post_forward_output : sticky.

Lemma post_get_exit_status (t0 t : twopence_ssh_transaction_t) (status : twopence_status_t) :
  sticky t0 t → post (__twopence_ssh_transaction_get_exit_status t status) (keeps3 t0).
Proof. intros Ht. unfold __twopence_ssh_transaction_get_exit_status. post_go. Qed.
#[local] Hint Resolve post_get_exit_status : sticky.

Lemma post_poll_stdin_loop (fuel : nat) (t0 t : twopence_ssh_transaction_t) :
  sticky t0 t → post (poll_stdin_loop fuel t) (okeeps t0).
Proof. revert t. induction fuel as [|fuel IH]; intros t Ht; simpl; post_go. Qed.
#[local] Hint Resolve post_poll_stdin_loop : sticky.

Lemma post_poll_loop (fuel : nat) (t0 t : twopence_ssh_transaction_t)
    (status : twopence_status_t) :
  sticky t0 t → post (poll_loop fuel t status) (okeeps3 t0).
Proof. revert t status. induction fuel as [|fuel IH]; intros t status Ht; simpl; post_go. Qed.
#[local] Hint Resolve post_poll_loop : sticky.

(** X17: whatever the multiplexer goes through (forwarding of stdin,
    draining of the two outputs, end of input, timeout, poll errors, the
    final status), a transaction that enters it with an exception set
    leaves it with the same exception. *)
Lemma poll_keeps_exception (fuel : nat) (trans trans' : twopence_ssh_transaction_t)
    (status status' : twopence_status_t) (rc : Z) (e : env) (h : trace) :
  exception trans ≠ 0 →
  (__twopence_ssh_poll fuel trans status e h).1 = Some (rc, trans', status') →
  exception trans' = exception trans.
Proof.
  intros Hne Hrun.
  assert (Hpost : post (__twopence_ssh_poll fuel trans status) (okeeps3 trans)).
  { unfold __twopence_ssh_poll, __twopence_ssh_transaction_poll_stdin.
    pose proof (sticky_refl trans). post_go. }
  specialize (Hpost e h). rewrite Hrun in Hpost. exact (Hpost Hne).
Qed.

End engine.

(** * Further properties of [library/twopence.c] *)

(** ** Strings *)

Lemma append_nil_l (b : string) : "" +:+ b = b.
Proof. reflexivity. Qed.

Lemma append_cons (c : ascii) (a b : string) : String c a +:+ b = String c (a +:+ b).
Proof. reflexivity. Qed.

Lemma append_assoc (a b c : string) : (a +:+ b) +:+ c = a +:+ b +:+ c.
Proof.
  induction a as [|x a IH]; [reflexivity |]. rewrite !append_cons, IH. reflexivity.
Qed.

Lemma str_take_app (a b : string) : str_take (String.length a) (a +:+ b) = a.
Proof.
  unfold str_take. induction a as [|c a IH].
  - rewrite append_nil_l. destruct b; reflexivity.
  - rewrite append_cons. simpl. rewrite IH. reflexivity.
Qed.

Lemma length_app_string (a b : string) :
  String.length (a +:+ b) = (String.length a + String.length b)%nat.
Proof.
  induction a as [|c a IH]; [reflexivity |]. rewrite append_cons. simpl. rewrite IH.
  reflexivity.
Qed.

Lemma str_drop_app (a b : string) : str_drop (String.length a) (a +:+ b) = b.
Proof.
  unfold str_drop. induction a as [|c a IH].
  - rewrite append_nil_l. simpl. rewrite Nat.sub_0_r. apply substring_all. lia.
  - rewrite append_cons. simpl. exact IH.
Qed.

Lemma strcspn_colon_app (a rest : string) :
  strcspn_colon a = String.length a →
  strcspn_colon (a +:+ ":" +:+ rest) = String.length a.
Proof.
  induction a as [|c a IH]; [reflexivity |]. rewrite append_cons. simpl.
  destruct (Ascii.eqb c ":"); [discriminate |]. intros [= Ha]. rewrite IH by exact Ha.
  reflexivity.
Qed.

(** A string is its part before the first colon, followed by the rest. *)
Lemma strcspn_colon_split (s : string) :
  (strcspn_colon s < String.length s)%nat →
  s = str_take (strcspn_colon s) s +:+ ":" +:+ str_drop (S (strcspn_colon s)) s.
Proof.
  unfold str_take, str_drop. induction s as [|c s IH]; simpl; [lia |].
  destruct (Ascii.eqb_spec c ":") as [->|Hc]; simpl.
  - intros _. rewrite Nat.sub_0_r, substring_all by lia. reflexivity.
  - intros Hlt. rewrite append_cons. rewrite <- IH by lia. reflexivity.
Qed.

Section registry_more.
Context `{twopence_h}.

(** X2: splitting a target specification is the inverse of joining a
    plugin name and a body with a colon.  A valid name, without a colon,
    joined to any body is split into that name and that body, and the name
    alone into the name and no body; and whenever the split gives a name,
    the specification is that name, valid, followed by nothing or by a
    colon and the body given back. *)
Theorem target_split_inverts_join :
  (∀ name body : string,
     strcspn_colon name = String.length name →
     twopence_plugin_name_is_valid name = true →
     twopence_target_split (Some (name +:+ ":" +:+ body)) = (Some name, Some body)
     ∧ twopence_target_split (Some name) = (Some name, None))
  ∧ (∀ (target_spec name : string) (body : option string),
       twopence_target_split (Some target_spec) = (Some name, body) →
       twopence_plugin_name_is_valid name = true
       ∧ target_spec = match body with
                       | Some body => name +:+ ":" +:+ body
                       | None => name
                       end).
Proof.
  split.
  - intros name body Hcolon Hvalid.
    assert (Hne : String.length name ≠ 0%nat).
    { intros Hz. destruct name; [| discriminate].
      unfold twopence_plugin_name_is_valid, twopence_plugin_type in Hvalid.
      simpl in Hvalid. rewrite Z.eqb_refl in Hvalid. discriminate. }
    unfold twopence_target_split. split.
    + rewrite (strcspn_colon_app name body Hcolon).
      destruct (Nat.eqb_spec (String.length name) 0); [contradiction |].
      assert (Hlt : (String.length name <? String.length (name +:+ ":" +:+ body))%nat = true).
      { apply Nat.ltb_lt. rewrite !length_app_string. simpl. lia. }
      rewrite Hlt, str_take_app.
      replace (S (String.length name)) with (String.length (name +:+ ":"))
        by (rewrite length_app_string; simpl; lia).
      rewrite <- (append_assoc name ":" body), str_drop_app.
      cbv beta iota zeta. rewrite Hvalid. reflexivity.
    + rewrite Hcolon.
      destruct (Nat.eqb_spec (String.length name) 0); [contradiction |].
      rewrite Nat.ltb_irrefl. cbv beta iota zeta. rewrite Hvalid. reflexivity.
  - intros target_spec name body. unfold twopence_target_split.
    destruct (Nat.eqb_spec (strcspn_colon target_spec) 0); [discriminate |].
    destruct (Nat.ltb_spec (strcspn_colon target_spec) (String.length target_spec)) as [Hlt|Hge].
    + destruct (twopence_plugin_name_is_valid _) eqn:Hvalid; simpl; [| discriminate].
      intros [= <- <-]. split; [exact Hvalid |]. apply strcspn_colon_split, Hlt.
    + destruct (twopence_plugin_name_is_valid _) eqn:Hvalid; simpl; [| discriminate].
      intros [= <- <-]. split; [exact Hvalid | reflexivity].
Qed.

End registry_more.

(** X2 on the name ssh and a body with a port. *)
Lemma target_split_inverts_join_witness :
  twopence_target_split (H := twopence_h_sample) (Some ("ssh" +:+ ":" +:+ "host:22"))
  = (Some "ssh", Some "host:22")
  ∧ twopence_target_split (H := twopence_h_sample) (Some "ssh") = (Some "ssh", None).
Proof.
  apply (proj1 (target_split_inverts_join (H := twopence_h_sample))); reflexivity.
Defined.

(** Case analysis on a test of two integers for equality. *)
Ltac split_eqb :=
  match goal with
  | |- context [if ?a =? ?b then _ else _] => destruct (Z.eqb_spec a b)
  | |- context [negb (?a =? ?b)] => destruct (Z.eqb_spec a b)
  end.

Section plugin_cache.
Context `{twopence_h} {T : Type}.
Variable plugin_at : Z → twopence_plugin T.

(** With a library handle in the cache for the type of the name, the
    function loads nothing and leaves the cache as it is. *)
Lemma get_plugin_ops_cached (name : string) (handles : gmap Z Z) (d : Z) (e : env) (h : trace) :
  twopence_plugin_type name ≠ TWOPENCE_PLUGIN_UNKNOWN →
  twopence_plugin_type name < __TWOPENCE_PLUGIN_MAX →
  handles !! twopence_plugin_type name = Some d → d ≠ NULL →
  ∃ l, (__twopence_get_plugin_ops plugin_at name handles e h).2 = h ++ l
       ∧ Forall (λ c, is_dlopen c = false) l
       ∧ (__twopence_get_plugin_ops plugin_at name handles e h).1.2 = handles.
Proof.
  intros Hknown Hmax Hd Hnull. unfold __twopence_get_plugin_ops.
  destruct (Z.eqb_spec (twopence_plugin_type name) TWOPENCE_PLUGIN_UNKNOWN); [contradiction |].
  destruct (Z.leb_spec __TWOPENCE_PLUGIN_MAX (twopence_plugin_type name)); [lia |].
  rewrite Hd. simpl. destruct (Z.eqb_spec d NULL); [contradiction |].
  unfold twopence_get_symbol. munfold. simpl.
  repeat (split_eqb; simpl);
    eexists; (split; [rewrite <- ?app_assoc; reflexivity |]);
    split; try reflexivity; repeat constructor.
Qed.

(** What a call gives: a function vector with the value 0, or no vector
    with one of two codes; and when it gives a vector the cache holds a
    library handle for the type of the name. *)
Lemma get_plugin_ops_outcome (name : string) (handles : gmap Z Z) (e : env) (h : trace) :
  let o := (__twopence_get_plugin_ops plugin_at name handles e h).1 in
  (o.1.2 = None ∧ o.1.1 ∈ [TWOPENCE_UNKNOWN_PLUGIN; TWOPENCE_INCOMPATIBLE_PLUGIN])
  ∨ (is_Some o.1.2 ∧ o.1.1 = 0
     ∧ twopence_plugin_type name ≠ TWOPENCE_PLUGIN_UNKNOWN
     ∧ twopence_plugin_type name < __TWOPENCE_PLUGIN_MAX
     ∧ ∃ d, o.2 !! twopence_plugin_type name = Some d ∧ d ≠ NULL).
Proof.
  unfold __twopence_get_plugin_ops.
  destruct (Z.eqb_spec (twopence_plugin_type name) TWOPENCE_PLUGIN_UNKNOWN);
    [left; simpl; split; [reflexivity | set_solver] |].
  destruct (Z.leb_spec __TWOPENCE_PLUGIN_MAX (twopence_plugin_type name));
    [left; simpl; split; [reflexivity | set_solver] |].
  unfold twopence_load_library, twopence_get_symbol. munfold.
  destruct (handles !! twopence_plugin_type name) as [d|] eqn:Hd; simpl;
    repeat (split_eqb; simpl);
    try (left; split; [reflexivity | set_solver]);
    right; (split; [eauto |]); (split; [reflexivity |]);
    (split; [assumption |]); (split; [assumption |]);
    first [ eexists; split; [apply lookup_insert_eq | assumption]
          | eexists; split; [eassumption | assumption] ].
Qed.

(** X3: a plugin library is loaded at most once.  When a call for a name
    has given a function vector, a later call for the same name that starts
    from the cache the first one left makes no [dlopen], whatever the
    environment then answers, and leaves the cache as it is. *)
Theorem plugin_library_is_loaded_once (name : string) (handles : gmap Z Z)
    (e e' : env) (h h' : trace) :
  let first := __twopence_get_plugin_ops plugin_at name handles e h in
  is_Some first.1.1.2 →
  ∃ l, (__twopence_get_plugin_ops plugin_at name first.1.2 e' h').2 = h' ++ l
       ∧ Forall (λ c, is_dlopen c = false) l
       ∧ (__twopence_get_plugin_ops plugin_at name first.1.2 e' h').1.2 = first.1.2.
Proof.
  intros first Hvec.
  destruct (get_plugin_ops_outcome name handles e h)
    as [[Hnone _] | (_ & _ & Hknown & Hmax & d & Hd & Hd0)].
  - fold first in Hnone. rewrite Hnone in Hvec. destruct Hvec as [? [=]].
  - exact (get_plugin_ops_cached name first.1.2 d e' h' Hknown Hmax Hd Hd0).
Qed.

(** X4: creating a target has two kinds of outcome.  Either the return
    value is 0 and a target is given back, or no target is given back and
    the return value is one of the three codes invalid target
    specification, unknown plugin and incompatible plugin. *)
Theorem target_new_outcomes (target_spec : string) (handles : gmap Z Z) (e : env) (h : trace) :
  let r := (twopence_target_new plugin_at target_spec handles e h).1 in
  (r.1.1 = 0 ∧ is_Some r.1.2)
  ∨ (r.1.2 = None
     ∧ r.1.1 ∈ [ TWOPENCE_INVALID_TARGET_SPEC; TWOPENCE_UNKNOWN_PLUGIN;
                 TWOPENCE_INCOMPATIBLE_PLUGIN ]).
Proof.
  unfold twopence_target_new, __twopence_target_new.
  destruct (twopence_target_split (Some target_spec)) as [[name|] rest]; simpl;
    [| right; split; [reflexivity | set_solver]].
  munfold. pose proof (get_plugin_ops_outcome name handles e h) as Hops. simpl in Hops.
  destruct (__twopence_get_plugin_ops plugin_at name handles e h) as [[[rc plugin] handles'] h1].
  simpl in *.
  destruct Hops as [[-> Hrc] | ([plugin' ->] & -> & _)].
  - right. destruct (rc <? 0); simpl; (split; [reflexivity |]);
      apply elem_of_cons; right; exact Hrc.
  - simpl. destruct (init plugin') as [init|]; simpl;
      [| right; split; [reflexivity | set_solver]].
    destruct (init rest e h1) as [[target|] h2]; simpl;
      [left; eauto | right; split; [reflexivity | set_solver]].
Qed.

End plugin_cache.

(** X3 on the name ssh, from an empty cache, the first call loading the
    library at address 77. *)
Lemma plugin_library_is_loaded_once_witness :
  let plugin_at := λ _ : Z, twopence_ssh_ops (H := twopence_h_sample) in
  let first :=
    __twopence_get_plugin_ops (H := twopence_h_sample) plugin_at "ssh" ∅ (env_const 77) [] in
  ∃ l, (__twopence_get_plugin_ops (H := twopence_h_sample) plugin_at "ssh" first.1.2
          (env_const 0) []).2 = [] ++ l
       ∧ Forall (λ c, is_dlopen c = false) l
       ∧ (__twopence_get_plugin_ops (H := twopence_h_sample) plugin_at "ssh" first.1.2
            (env_const 0) []).1.2 = first.1.2.
Proof.
  apply (plugin_library_is_loaded_once (H := twopence_h_sample)
           (λ _ : Z, twopence_ssh_ops (H := twopence_h_sample)) "ssh" ∅
           (env_const 77) (env_const 0) [] []).
  eexists. reflexivity.
Defined.

(** ** The strings of the result codes, read backwards *)

Section strerror_more.
Context `{twopence_h}.

(** X1: the message of a code tells the code.  Each of the thirteen codes
    with a case gets its own message, and two return values that get the
    same message, other than the generic one, are the same code. *)
Theorem twopence_strerror_identifies_code :
  twopence_h_ok →
  (twopence_strerror TWOPENCE_PARAMETER_ERROR = "Invalid command parameter"
   ∧ twopence_strerror TWOPENCE_OPEN_SESSION_ERROR
     = "Error opening the communication with the system under test"
   ∧ twopence_strerror TWOPENCE_SEND_COMMAND_ERROR
     = "Error sending command to the system under test"
   ∧ twopence_strerror TWOPENCE_FORWARD_INPUT_ERROR = "Error forwarding keyboard input"
   ∧ twopence_strerror TWOPENCE_RECEIVE_RESULTS_ERROR
     = "Error receiving the results of action"
   ∧ twopence_strerror TWOPENCE_LOCAL_FILE_ERROR = "Local error while transferring file"
   ∧ twopence_strerror TWOPENCE_SEND_FILE_ERROR
     = "Error sending file to the system under test"
   ∧ twopence_strerror TWOPENCE_REMOTE_FILE_ERROR = "Remote error while transferring file"
   ∧ twopence_strerror TWOPENCE_RECEIVE_FILE_ERROR
     = "Error receiving file from the system under test"
   ∧ twopence_strerror TWOPENCE_INTERRUPT_COMMAND_ERROR = "Failed to interrupt command"
   ∧ twopence_strerror TWOPENCE_INVALID_TARGET_SPEC = "Invalid target spec"
   ∧ twopence_strerror TWOPENCE_UNKNOWN_PLUGIN = "Unknown plugin"
   ∧ twopence_strerror TWOPENCE_INCOMPATIBLE_PLUGIN = "Incompatible plugin")
  ∧ (∀ rc rc' : Z,
       twopence_strerror rc = twopence_strerror rc' →
       twopence_strerror rc ≠ "Unknow error" → rc = rc').
Proof.
  intros Hok. split; [exact (twopence_strerror_cases Hok) |].
  intros rc rc'. unfold twopence_strerror.
  repeat match goal with
         | |- context [rc =? ?c] => destruct (Z.eqb_spec rc c) as [->|_]
         end;
    try (intros _ Hgen; contradiction Hgen; reflexivity);
    repeat match goal with
           | |- context [rc' =? ?c] => destruct (Z.eqb_spec rc' c) as [->|_]
           end;
    intros Heq _; first [ reflexivity | discriminate Heq ].
Qed.

End strerror_more.

(** X1 with the codes numbered as in [twopence_h_sample]: the code whose
    message is the one of -13 is the code of the unknown plugin. *)
Lemma twopence_strerror_identifies_code_witness :
  -13 = @TWOPENCE_UNKNOWN_PLUGIN twopence_h_sample.
Proof.
  assert (Hok : @twopence_h_ok twopence_h_sample).
  { apply (bool_decide_unpack _). vm_compute. exact I. }
  apply (proj2 (@twopence_strerror_identifies_code twopence_h_sample Hok) (-13)
           (@TWOPENCE_UNKNOWN_PLUGIN twopence_h_sample)).
  - reflexivity.
  - discriminate.
Defined.

(** ** [twopence_sink_write] *)

Lemma sink_moved_0 (sink : twopence_sink) (is_error : bool) :
  sink_moved sink is_error 0 = sink.
Proof.
  unfold sink_moved, with_errbuf, with_outbuf.
  destruct sink as [md [t1 e1] [t2 e2]]; simpl.
  destruct (aims_at_errbuf md is_error); rewrite Z.add_0_r; reflexivity.
Qed.

Lemma sink_moved_advance (sink : twopence_sink) (is_error : bool) (k : Z) :
  sink_moved (sink_advance sink is_error) is_error k = sink_moved sink is_error (1 + k).
Proof.
  unfold sink_moved, sink_advance, with_errbuf, with_outbuf.
  destruct sink as [md [t1 e1] [t2 e2]]; simpl.
  destruct (aims_at_errbuf md is_error) eqn:Haim; simpl; rewrite ?Haim; simpl;
    rewrite Z.add_assoc; reflexivity.
Qed.

Lemma sink_advance_mode (sink : twopence_sink) (is_error : bool) :
  mode (sink_advance sink is_error) = mode sink.
Proof. unfold sink_advance. destruct (aims_at_errbuf _ _); reflexivity. Qed.

Lemma sink_advance_target (sink : twopence_sink) (is_error : bool) :
  sink_target (sink_advance sink is_error) is_error
  = {| tail := tail (sink_target sink is_error) + 1;
       end_ := end_ (sink_target sink is_error) |}.
Proof.
  unfold sink_target. rewrite sink_advance_mode. unfold sink_advance.
  destruct (aims_at_errbuf _ _); reflexivity.
Qed.

(** [lia] without the hypotheses on the mode of the sink. *)
Ltac blia :=
  repeat match goal with
         | H : buffer_mode _ |- _ => clear H
         end;
  lia.

(** The loop of [twopence_sink_write] in a buffer mode, from any value of
    the counter. *)
Lemma sink_write_loop_buffer (is_error : bool) (data : list ascii) (count : Z)
    (sink : twopence_sink) (m : mem) (e : env) (h : trace) :
  buffer_mode (mode sink) →
  tail (sink_target sink is_error) ≤ end_ (sink_target sink is_error) →
  let b := sink_target sink is_error in
  let n := Z.min (end_ b - tail b) (Z.of_nat (length data)) in
  ∃ m',
    twopence_sink_write_loop (λ sink, twopence_sink_putc sink is_error) data count sink m e h
    = ((if Z.of_nat (length data) <=? end_ b - tail b
        then count + Z.of_nat (length data) else -1,
        sink_moved sink is_error n, m'), h)
    ∧ (∀ i : nat, Z.of_nat i < n → m' !! (tail b + Z.of_nat i) = data !! i)
    ∧ (∀ a, ¬ (tail b ≤ a < tail b + n) → m' !! a = m !! a).
Proof.
  revert count sink m.
  induction data as [|c data IH]; intros count sink m Hmode Hroom b n;
    fold b in Hroom.
  - assert (Hn : n = 0) by (subst n; simpl length; blia).
    rewrite Hn. exists m. simpl length. simpl twopence_sink_write_loop. munfold.
    rewrite sink_moved_0.
    destruct (Z.leb_spec (Z.of_nat 0) (end_ b - tail b)); [| blia].
    rewrite Z.add_0_r. split; [reflexivity |]. split; [intros i Hi; blia | reflexivity].
  - simpl twopence_sink_write_loop. munfold.
    rewrite (sink_putc_buffer _ _ _ _ _ _ Hmode). fold b.
    destruct (Z.leb_spec (end_ b) (tail b)) as [Hfull|Hfree].
    + assert (Hn : n = 0) by (subst n; simpl length; blia).
      rewrite Hn. exists m. rewrite sink_moved_0.
      destruct (Z.leb_spec (Z.of_nat (length (c :: data))) (end_ b - tail b));
        [simpl length in *; blia |].
      split; [reflexivity |]. split; [intros i Hi; blia | reflexivity].
    + cbv beta iota zeta. change (0 <? 0) with false. cbv iota.
      assert (Hmode' : buffer_mode (mode (sink_advance sink is_error)))
        by (rewrite sink_advance_mode; exact Hmode).
      destruct (IH (count + 1) (sink_advance sink is_error) (<[tail b := c]> m) Hmode')
        as (m' & Hrun & Hdata & Hframe).
      { rewrite sink_advance_target. simpl. fold b. blia. }
      rewrite sink_advance_target in Hrun, Hdata, Hframe.
      cbn [tail end_] in Hrun, Hdata, Hframe.
      fold b in Hrun, Hdata, Hframe.
      assert (Hn : n = 1 + Z.min (end_ b - (tail b + 1)) (Z.of_nat (length data)))
        by (subst n; simpl length; blia).
      exists m'. rewrite Hrun, sink_moved_advance, Hn.
      split.
      * destruct (Z.leb_spec (Z.of_nat (length data)) (end_ b - (tail b + 1)));
          destruct (Z.leb_spec (Z.of_nat (length (c :: data))) (end_ b - tail b));
          simpl length in *; try blia; [| reflexivity].
        do 3 f_equal. blia.
      * split.
        -- intros [|i] Hi.
           ++ simpl. rewrite Z.add_0_r. rewrite Hframe by blia. apply lookup_insert_eq.
           ++ replace (tail b + Z.of_nat (S i)) with (tail b + 1 + Z.of_nat i) by blia.
              simpl. apply Hdata. blia.
        -- intros a Ha. rewrite Hframe by blia. apply lookup_insert_ne. blia.
Qed.
(** X5: [twopence_sink_write] in a buffer mode stores the bytes that fit
    and nothing else.  With room for [r] bytes left in the buffer the
    stream goes to, a write of [len] bytes stores the first [min r len]
    of them from the cursor on, moves the cursor by that number and
    leaves the rest of the memory and the other buffer as they were; no
    external call is made.  It returns [len] if everything fitted, and -1
    if not, although the bytes before the bound have been stored.  The
    length is one the [int] counter of the function holds. *)
Theorem sink_write_stores_what_fits (sink : twopence_sink) (is_error : bool)
    (data : list ascii) (m : mem) (e : env) (h : trace) :
  buffer_mode (mode sink) →
  tail (sink_target sink is_error) ≤ end_ (sink_target sink is_error) →
  Z.of_nat (length data) ≤ INT_MAX →
  let b := sink_target sink is_error in
  let n := Z.min (end_ b - tail b) (Z.of_nat (length data)) in
  ∃ m',
    twopence_sink_write sink is_error data m e h
    = ((if Z.of_nat (length data) <=? end_ b - tail b then Z.of_nat (length data) else -1,
        sink_moved sink is_error n, m'), h)
    ∧ (∀ i : nat, Z.of_nat i < n → m' !! (tail b + Z.of_nat i) = data !! i)
    ∧ (∀ a, ¬ (tail b ≤ a < tail b + n) → m' !! a = m !! a).
Proof.
  intros Hmode Hroom _ b n. subst b n.
  destruct (sink_write_loop_buffer is_error data 0 sink m e h Hmode Hroom)
    as (m' & Hrun & Hdata & Hframe).
  exists m'. split; [| split; assumption].
  rewrite Z.add_0_l in Hrun. rewrite <- Hrun.
  unfold twopence_sink_write. destruct is_error; reflexivity.
Qed.

(** X5 on a buffer of four bytes at address 100 that holds one byte
    already: of "abcde" the bytes "abc" are stored and the result is -1. *)
Lemma sink_write_stores_what_fits_witness :
  let sink := {| mode := TWOPENCE_OUTPUT_BUFFER;
                 outbuf := {| tail := 101; end_ := 104 |};
                 errbuf := {| tail := NULL; end_ := NULL |} |} in
  ∃ m',
    twopence_sink_write sink true ["a"; "b"; "c"; "d"; "e"]%char ∅ (env_const 0) []
    = ((-1, sink_moved sink true 3, m'), [])
    ∧ (∀ i : nat, Z.of_nat i < 3 → m' !! (101 + Z.of_nat i) = ["a"; "b"; "c"; "d"; "e"]%char !! i)
    ∧ (∀ a, ¬ (101 ≤ a < 101 + 3) → m' !! a = (∅ : mem) !! a).
Proof.
  intros sink.
  apply (sink_write_stores_what_fits sink true ["a"; "b"; "c"; "d"; "e"]%char ∅
           (env_const 0) []).
  - left. reflexivity.
  - simpl. lia.
  - vm_compute. discriminate.
Defined.

Lemma screen_putc (sink : twopence_sink) (is_error : bool) (c : ascii) (m : mem)
    (e : env) (h : trace) :
  mode sink = TWOPENCE_OUTPUT_SCREEN →
  twopence_sink_putc sink is_error c m e h
  = ((if ret (e h (write (screen_fd is_error) c)) =? 1 then 0 else -1, sink, m),
     h ++ [write (screen_fd is_error) c]).
Proof.
  intros Hmode.
  unfold twopence_sink_putc, __twopence_sink_write_stdout, __twopence_sink_write_stderr,
    screen_fd.
  rewrite Hmode. destruct is_error; munfold; simpl;
    match goal with |- context [?x =? 1] => destruct (x =? 1) end; reflexivity.
Qed.

Lemma screen_write_ret_cons (e : env) (h : trace) (fd : Z) (c : ascii) (data : list ascii)
    (i : nat) :
  screen_write_ret e h fd (c :: data) (S i)
  = screen_write_ret e (h ++ [write fd c]) fd data i.
Proof. unfold screen_write_ret. simpl. rewrite <- app_assoc. reflexivity. Qed.

(** The loop of [twopence_sink_write] in the mode screen, from any value
    of the counter: either every [write] returns 1, or the loop stops at
    the first that does not. *)
Lemma sink_write_loop_screen (is_error : bool) (data : list ascii) (count : Z)
    (sink : twopence_sink) (m : mem) (e : env) (h : trace) :
  mode sink = TWOPENCE_OUTPUT_SCREEN →
  let fd := screen_fd is_error in
  let run := twopence_sink_write_loop (λ sink, twopence_sink_putc sink is_error)
               data count sink m e h in
  run = ((count + Z.of_nat (length data), sink, m), h ++ map (write fd) data)
  ∧ (∀ i : nat, (i < length data)%nat → screen_write_ret e h fd data i = Some 1)
  ∨ ∃ i : nat,
      (i < length data)%nat
      ∧ (∀ j : nat, (j < i)%nat → screen_write_ret e h fd data j = Some 1)
      ∧ screen_write_ret e h fd data i ≠ Some 1
      ∧ run = ((-1, sink, m), h ++ map (write fd) (take (S i) data)).
Proof.
  intros Hmode fd. revert count h.
  induction data as [|c data IH]; intros count h run.
  - left. subst run. simpl. munfold. rewrite app_nil_r, Z.add_0_r.
    split; [reflexivity |]. intros i Hi. simpl in Hi. lia.
  - subst run. simpl twopence_sink_write_loop. munfold.
    rewrite (screen_putc _ _ _ _ _ _ Hmode). fold fd.
    assert (H0 : screen_write_ret e h fd (c :: data) 0 = Some (ret (e h (write fd c)))).
    { unfold screen_write_ret. simpl. rewrite app_nil_r. reflexivity. }
    destruct (Z.eqb_spec (ret (e h (write fd c))) 1) as [Hone|Hnot].
    + cbv beta iota zeta. change (0 <? 0) with false. cbv iota.
      destruct (IH (count + 1) (h ++ [write fd c]))
        as [[Hrun Hall]|(i & Hi & Hbefore & Hbad & Hrun)].
      * left. rewrite Hrun. split.
        -- simpl length. simpl map. rewrite <- app_assoc. simpl.
           do 3 f_equal. lia.
        -- intros [|i] Hi; [rewrite H0, Hone; reflexivity |].
           rewrite screen_write_ret_cons. apply Hall. simpl in Hi. lia.
      * right. exists (S i). split; [simpl; lia |]. split; [| split].
        -- intros [|j] Hj; [rewrite H0, Hone; reflexivity |].
           rewrite screen_write_ret_cons. apply Hbefore. lia.
        -- rewrite screen_write_ret_cons. exact Hbad.
        -- rewrite Hrun. simpl. rewrite <- app_assoc. reflexivity.
    + cbv beta iota zeta. change (-1 <? 0) with true. cbv iota.
      right. exists 0%nat. split; [simpl; lia |]. split; [intros j Hj; lia |].
      split; [rewrite H0; intros [= Heq]; contradiction |].
      simpl. rewrite ?take_0. reflexivity.
Qed.

Lemma sink_write_loop_none (putc_err : bool) (data : list ascii) (count : Z)
    (sink : twopence_sink) (m : mem) (e : env) (h : trace) :
  mode sink = TWOPENCE_OUTPUT_NONE →
  twopence_sink_write_loop (λ sink, twopence_sink_putc sink putc_err) data count sink m e h
  = ((count + Z.of_nat (length data), sink, m), h).
Proof.
  intros Hmode. revert count.
  induction data as [|c data IH]; intros count.
  - simpl. munfold. rewrite Z.add_0_r. reflexivity.
  - simpl twopence_sink_write_loop. munfold.
    unfold twopence_sink_putc, __twopence_sink_write_stdout, __twopence_sink_write_stderr.
    rewrite Hmode. destruct putc_err; munfold; cbv beta iota zeta;
      change (0 <? 0) with false; cbv iota;
      (etransitivity; [apply IH |]); simpl length; do 3 f_equal; lia.
Qed.

(** X6: [twopence_sink_write] without buffers.  In the mode none the
    bytes are dropped: no call is made and the result is the length.  In
    the mode screen the bytes go, one [write] each and in their order, to
    the descriptor 1 for stdout and 2 for stderr; the sink and the memory
    stay as they are.  Either every [write] returns 1, and then all the
    bytes are written and the result is the length; or the function stops
    at the first [write] that does not return 1 and returns -1, the bytes
    up to that one having been handed to [write] and none after it.  The
    length is one the [int] counter of the function holds. *)
Theorem sink_write_without_buffers (sink : twopence_sink) (is_error : bool)
    (data : list ascii) (m : mem) (e : env) (h : trace) :
  Z.of_nat (length data) ≤ INT_MAX →
  let r := twopence_sink_write sink is_error data m e h in
  let fd := screen_fd is_error in
  (mode sink = TWOPENCE_OUTPUT_NONE → r = ((Z.of_nat (length data), sink, m), h))
  ∧ (mode sink = TWOPENCE_OUTPUT_SCREEN →
     r = ((Z.of_nat (length data), sink, m), h ++ map (write fd) data)
     ∧ (∀ i : nat, (i < length data)%nat → screen_write_ret e h fd data i = Some 1)
     ∨ ∃ i : nat,
         (i < length data)%nat
         ∧ (∀ j : nat, (j < i)%nat → screen_write_ret e h fd data j = Some 1)
         ∧ screen_write_ret e h fd data i ≠ Some 1
         ∧ r = ((-1, sink, m), h ++ map (write fd) (take (S i) data))).
Proof.
  intros _ r fd.
  assert (Hr : r = twopence_sink_write_loop (λ sink, twopence_sink_putc sink is_error)
                     data 0 sink m e h)
    by (subst r; unfold twopence_sink_write; destruct is_error; reflexivity).
  split; intros Hmode; rewrite Hr.
  - rewrite (sink_write_loop_none _ _ _ _ _ _ _ Hmode). reflexivity.
  - pose proof (sink_write_loop_screen is_error data 0 sink m e h Hmode) as Hloop.
    simpl in Hloop. exact Hloop.
Qed.

(** X6 on the three bytes "abc" for stderr in the mode screen, where the
    second [write] returns 0: the third byte is not written and the
    result is -1. *)
Lemma sink_write_without_buffers_witness :
  let sink := twopence_sink_zero TWOPENCE_OUTPUT_SCREEN in
  let e : env := λ h _, reply_of (if (length h <? 1)%nat then 1 else 0) in
  let data := ["a"; "b"; "c"]%char in
  let r := twopence_sink_write sink true data ∅ e [] in
  (r = ((Z.of_nat (length data), sink, ∅), [] ++ map (write 2) data)
   ∧ (∀ i : nat, (i < length data)%nat → screen_write_ret e [] 2 data i = Some 1)
   ∨ ∃ i : nat,
       (i < length data)%nat
       ∧ (∀ j : nat, (j < i)%nat → screen_write_ret e [] 2 data j = Some 1)
       ∧ screen_write_ret e [] 2 data i ≠ Some 1
       ∧ r = ((-1, sink, ∅), [] ++ map (write 2) (take (S i) data)))
  ∧ r = ((-1, sink, ∅), [write 2 "a"%char; write 2 "b"%char]).
Proof.
  intros sink e data r. split; [| reflexivity].
  apply (sink_write_without_buffers sink true data ∅ e []).
  - vm_compute. discriminate.
  - reflexivity.
Defined.

(** ** [twopence_tune_stdin] *)

(** X7: what [twopence_tune_stdin] does to the file status flags of the
    standard input.  If [F_GETFL] fails the function returns -1 and sets
    nothing.  Otherwise it hands to [F_SETFL] the flags it has read with
    one bit changed, and returns what [F_SETFL] returns: the bit
    [O_NONBLOCK] is set when the argument [blocking] is true and cleared
    when it is false, and every other bit is as it was read. *)
Theorem tune_stdin_sets_nonblock_when_blocking (blocking : bool) (getfl : Z)
    (setfl : Z → Z) :
  (getfl = -1 → twopence_tune_stdin blocking getfl setfl = (-1, None))
  ∧ (getfl ≠ -1 →
     ∃ flags,
       twopence_tune_stdin blocking getfl setfl = (setfl flags, Some flags)
       ∧ Z.testbit flags 11 = blocking
       ∧ Z.land flags O_NONBLOCK = (if blocking then O_NONBLOCK else 0)
       ∧ ∀ i, i ≠ 11 → Z.testbit flags i = Z.testbit getfl i).
Proof.
  unfold twopence_tune_stdin. split; intros Hget.
  - rewrite Hget. reflexivity.
  - destruct (Z.eqb_spec getfl (-1)) as [|_]; [contradiction |].
    eexists. split; [reflexivity |].
    assert (Hbit : ∀ i, Z.testbit O_NONBLOCK i = bool_decide (i = 11)).
    { intros i. destruct (Z.lt_trichotomy i 11) as [Hlt|[->|Hgt]].
      - rewrite bool_decide_eq_false_2 by lia.
        destruct (Z.neg_nonneg_cases i) as [Hneg|Hpos];
          [apply Z.testbit_neg_r; exact Hneg |].
        assert (Hi : i ∈ seqZ 0 11) by (apply elem_of_seqZ; lia).
        revert Hi. generalize i. apply Forall_forall. vm_compute.
        repeat constructor.
      - reflexivity.
      - rewrite bool_decide_eq_false_2 by lia.
        apply (Z.bits_above_log2 O_NONBLOCK i); [vm_compute; discriminate |].
        change (Z.log2 O_NONBLOCK) with 11. lia. }
    assert (Hall : ∀ i, 0 ≤ i →
              Z.testbit (if blocking
                         then Z.lor (Z.land getfl (Z.lnot O_NONBLOCK)) O_NONBLOCK
                         else Z.land getfl (Z.lnot O_NONBLOCK)) i
              = if bool_decide (i = 11) then blocking else Z.testbit getfl i).
    { intros i Hi. destruct blocking;
        rewrite ?Z.lor_spec, Z.land_spec, Z.lnot_spec, Hbit by exact Hi;
        destruct (bool_decide (i = 11)); simpl;
        rewrite ?andb_true_r, ?andb_false_r, ?orb_false_r, ?orb_true_r; reflexivity. }
    split; [exact (Hall 11 ltac:(lia)) |]. split.
    + apply Z.bits_inj'. intros i Hi. rewrite Z.land_spec, Hall, Hbit by exact Hi.
      destruct (bool_decide (i = 11)) eqn:Hd, blocking; simpl;
        rewrite ?Hbit, ?Hd, ?andb_false_r, ?Z.bits_0; reflexivity.
    + intros i Hi. destruct (Z.neg_nonneg_cases i) as [Hneg|Hpos].
      * rewrite !Z.testbit_neg_r by exact Hneg. reflexivity.
      * rewrite Hall by exact Hpos. rewrite bool_decide_eq_false_2 by exact Hi. reflexivity.
Qed.

(** X7 on the flags [O_RDWR] (2) for the argument true: the flags handed
    to [F_SETFL] are 2050. *)
Lemma tune_stdin_sets_nonblock_when_blocking_witness :
  ∃ flags,
    twopence_tune_stdin true 2 (λ _, 0) = (0, Some flags)
    ∧ Z.testbit flags 11 = true
    ∧ Z.land flags O_NONBLOCK = O_NONBLOCK
    ∧ ∀ i, i ≠ 11 → Z.testbit flags i = Z.testbit 2 i.
Proof.
  apply (tune_stdin_sets_nonblock_when_blocking true 2 (λ _, 0)). discriminate.
Defined.

(** * Further properties of [library/ssh.c] *)

(** ** The target specification with a port in decimal *)

Lemma digit_of_pretty_N_char (r : N) :
  (r < 10)%N → digit_of (pretty_N_char r) = Some (Z.of_N r).
Proof.
  intros Hr.
  assert (Hcases : r ∈ [0; 1; 2; 3; 4; 5; 6; 7; 8; 9]%N).
  { assert (r = 0 ∨ r = 1 ∨ r = 2 ∨ r = 3 ∨ r = 4 ∨ r = 5 ∨ r = 6 ∨ r = 7 ∨ r = 8
            ∨ r = 9)%N as Hor by lia.
    repeat (destruct Hor as [->|Hor]; [set_solver |]). subst r. set_solver. }
  revert Hcases. generalize r. apply Forall_forall.
  repeat constructor.
Qed.

Lemma digit_is_no_space_nor_sign (c : ascii) :
  is_Some (digit_of c) →
  isspace c = false ∧ Ascii.eqb c "-" = false ∧ Ascii.eqb c "+" = false
  ∧ Ascii.eqb c ":" = false.
Proof.
  destruct c as [[] [] [] [] [] [] [] []]; vm_compute; intros [d Hd];
    first [ discriminate Hd | repeat split ].
Qed.

(** Reading the decimal writing of a number gives the number. *)
Lemma strtoul_digits_pretty (x : N) (s : string) (any : bool) :
  (0 < x)%N →
  strtoul_digits (pretty_N_go x s) 0 any = strtoul_digits s (Z.of_N x) true.
Proof.
  revert s any. induction (N.lt_wf_0 x) as [x _ IH]; intros s any Hx.
  rewrite pretty_N_go_step by exact Hx.
  assert (Hr : (x `mod` 10 < 10)%N) by (apply N.mod_lt; discriminate).
  pose proof (N.div_mod x 10 ltac:(discriminate)) as Hdm.
  destruct (N.eq_dec (x `div` 10)%N 0%N) as [Hq|Hq].
  - rewrite Hq, pretty_N_go_0. simpl. rewrite (digit_of_pretty_N_char _ Hr).
    f_equal. lia.
  - rewrite IH; [| apply N.div_lt; [exact Hx | reflexivity] | lia].
    simpl. rewrite (digit_of_pretty_N_char _ Hr). f_equal. lia.
Qed.

Lemma all_digits_pretty_go (x : N) (s : string) :
  all_digits (pretty_N_go x s) = all_digits s.
Proof.
  revert s. induction (N.lt_wf_0 x) as [x _ IH]; intros s.
  destruct (N.eq_dec x 0%N) as [->|Hx]; [reflexivity |].
  rewrite pretty_N_go_step by lia.
  rewrite IH by (apply N.div_lt; [lia | reflexivity]).
  simpl. rewrite digit_of_pretty_N_char by (apply N.mod_lt; discriminate). reflexivity.
Qed.

Lemma all_digits_pretty (p : N) : all_digits (pretty p) = true.
Proof.
  unfold pretty, pretty_N. destruct (decide (p = 0%N)); [reflexivity |].
  apply all_digits_pretty_go.
Qed.

Lemma pretty_go_nonempty (x : N) (s : string) : (0 < x)%N → pretty_N_go x s ≠ "".
Proof.
  revert s. induction (N.lt_wf_0 x) as [x _ IH]; intros s Hx.
  rewrite pretty_N_go_step by exact Hx.
  destruct (N.eq_dec (x `div` 10)%N 0%N) as [Hq|Hq].
  - rewrite Hq, pretty_N_go_0. discriminate.
  - assert (Hq' : (0 < x `div` 10)%N) by (apply N.neq_0_lt_0; exact Hq).
    exact (IH _ (N.div_lt x 10 Hx eq_refl) _ Hq').
Qed.

Lemma all_digits_no_colon (s : string) : all_digits s = true → strrchr_colon s = None.
Proof.
  induction s as [|c s IH]; [reflexivity |]. simpl.
  destruct (digit_of c) as [d|] eqn:Hd; [| discriminate].
  intros Hs. rewrite (IH Hs).
  destruct (digit_is_no_space_nor_sign c) as (_ & _ & _ & ->); [eauto | reflexivity].
Qed.

Lemma strrchr_colon_app (a b : string) :
  strrchr_colon b = None → strrchr_colon (a +:+ ":" +:+ b) = Some (String.length a).
Proof.
  intros Hb. induction a as [|c a IH].
  - rewrite append_nil_l, append_cons, append_nil_l. simpl. rewrite Hb. reflexivity.
  - rewrite append_cons. simpl. rewrite IH. reflexivity.
Qed.

(** [strtoul] on the decimal writing of a number. *)
Lemma strtoul10_pretty (p : N) :
  strtoul10 (pretty p)
  = (if ULONG_MAX <? Z.of_N p then ULONG_MAX else Z.of_N p, "").
Proof.
  unfold pretty, pretty_N. destruct (decide (p = 0%N)) as [->|Hp]; [reflexivity |].
  assert (Hpos : (0 < p)%N) by lia.
  pose proof (all_digits_pretty_go p "") as Hall.
  pose proof (pretty_go_nonempty p "" Hpos) as Hne.
  pose proof (strtoul_digits_pretty p "" false Hpos) as Hread.
  destruct (pretty_N_go p "") as [|c rest]; [contradiction |].
  simpl in Hall. destruct (digit_of c) as [d|] eqn:Hd; [| discriminate].
  destruct (digit_is_no_space_nor_sign c) as (Hsp & Hminus & Hplus & _); [eauto |].
  unfold strtoul10. simpl skip_space. rewrite Hsp, Hminus, Hplus, Hread. simpl.
  destruct (ULONG_MAX <? Z.of_N p); reflexivity.
Qed.

Lemma string_get_app (a b : string) (c : ascii) :
  String.get (String.length a) (a +:+ String c b) = Some c.
Proof.
  induction a as [|x a IH]; [reflexivity |]. rewrite append_cons. simpl. exact IH.
Qed.

Section ssh_init_more.
Context `{twopence_h}.

(** X8: the target specification of the SSH plugin with a port written in
    decimal.  For every host part, with colons of its own or not, and every
    number [p], the specification made of the host part, a colon and [p]
    in decimal is taken apart at its last colon: if [p] is less than 65535
    the handle is the one of [__twopence_ssh_init] for the host part
    without its outer brackets and the port [p]; from 65535 on no handle
    is made and no call either.  A host part in brackets loses exactly
    the two brackets. *)
Theorem ssh_init_host_and_decimal_port (host : string) (p : N) (e : env) (h : trace) :
  twopence_ssh_init (Some (host +:+ ":" +:+ pretty p)) e h
  = (if (p <? 65535)%N
     then __twopence_ssh_init (strip_brackets host) (Z.of_N p) e h
     else (None, h))
  ∧ strip_brackets ("[" +:+ host +:+ "]") = host.
Proof.
  split.
  - unfold twopence_ssh_init.
    rewrite (strrchr_colon_app host (pretty p))
      by (apply all_digits_no_colon, all_digits_pretty).
    rewrite str_take_app.
    replace (str_drop (S (String.length host)) (host +:+ ":" +:+ pretty p))
      with (pretty p).
    2:{ rewrite <- (str_drop_app (host +:+ ":") (pretty p)) at 1.
        rewrite length_app_string, append_assoc. simpl. f_equal. lia. }
    rewrite strtoul10_pretty. simpl String.eqb. simpl negb. simpl orb.
    unfold ULONG_MAX.
    destruct (N.ltb_spec p 65535);
      destruct (Z.ltb_spec (2 ^ 64 - 1) (Z.of_N p));
      match goal with
      | |- context [65535 <=? ?x] => destruct (Z.leb_spec 65535 x)
      end; try lia; reflexivity.
  - unfold strip_brackets. rewrite append_cons, append_nil_l. simpl Ascii.eqb. cbv iota.
    replace (String.length (String "[" (host +:+ "]")) - 1)%nat
      with (S (String.length host)).
    2:{ simpl. rewrite length_app_string. simpl. lia. }
    simpl String.get. rewrite string_get_app. simpl Ascii.eqb. cbv iota.
    replace (String.length (String "[" (host +:+ "]")) - 2)%nat with (String.length host).
    2:{ simpl. rewrite length_app_string. simpl. lia. }
    simpl. apply (str_take_app host "]").
Qed.

End ssh_init_more.

(** ** A negative port *)

(** [strtoul] on a minus sign and the decimal writing of a number that an
    [unsigned long] holds: the number negated as an [unsigned long]. *)
Lemma strtoul10_minus_pretty (q : N) :
  (0 < q < 2 ^ 64)%N →
  strtoul10 ("-" +:+ pretty q) = (2 ^ 64 - Z.of_N q, "").
Proof.
  intros Hq. change (2 ^ 64)%N with 18446744073709551616%N in Hq.
  unfold pretty, pretty_N. destruct (decide (q = 0%N)) as [->|_]; [lia |].
  rewrite append_cons, append_nil_l. unfold strtoul10.
  change (skip_space (String "-" (pretty_N_go q "")))
    with (String "-" (pretty_N_go q "")).
  cbv beta iota zeta. change (Ascii.eqb "-" "-") with true. cbv beta iota zeta.
  rewrite (strtoul_digits_pretty q "" false) by lia.
  simpl strtoul_digits. cbv beta iota zeta. cbn [negb]. unfold ULONG_MAX.
  destruct (Z.ltb_spec (2 ^ 64 - 1) (Z.of_N q)); [lia |].
  f_equal. replace (2 ^ 64 - 1 + 1 - Z.of_N q) with (2 ^ 64 - Z.of_N q) by lia.
  replace (2 ^ 64 - 1 + 1) with (2 ^ 64) by lia.
  apply Z.mod_small. lia.
Qed.

Section ssh_init_negative.
Context `{twopence_h}.

(** C6: a negative number as the port is taken for a port.  For every
    host part and every port [p] from 1 to 65534, the specification made
    of the host part, a colon, a minus sign and the number [2^64 - p] in
    decimal is no decimal integer in the range of the ports, and yet it is
    handled as the host part with the port [p]: [strtoul] negates the
    number as an [unsigned long], which gives [p], and the two tests on
    its result pass.  Where the allocations succeed and
    [ssh_options_set] takes every port that is positive, the handle is
    made. *)
Theorem ssh_init_accepts_a_negative_port (host : string) (p : N) (e : env) (h : trace) :
  (0 < p < 65535)%N →
  let spec := host +:+ ":-" +:+ pretty (2 ^ 64 - p)%N in
  twopence_ssh_init (Some spec) e h
  = __twopence_ssh_init (strip_brackets host) (Z.of_N p) e h
  ∧ twopence_ssh_init (Some spec) env_port_checked h
    = (Some {| target_addr := 1000; base_plugin_type := TWOPENCE_PLUGIN_SSH;
               base_current_io := NULL; template := 2000; foreground := None |},
       h ++ [ calloc; ssh_new;
              ssh_options_set_str 2000 SSH_OPTIONS_HOST (strip_brackets host);
              ssh_options_set_uint 2000 SSH_OPTIONS_PORT (Z.of_N p) ]).
Proof.
  intros Hp spec.
  assert (Hq : (0 < 2 ^ 64 - p < 2 ^ 64)%N)
    by (change (2 ^ 64)%N with 18446744073709551616%N; lia).
  assert (Hval : 2 ^ 64 - Z.of_N (2 ^ 64 - p)%N = Z.of_N p)
    by (change (2 ^ 64)%N with 18446744073709551616%N; lia).
  assert (Hparse : ∀ e' h', twopence_ssh_init (Some spec) e' h'
                            = __twopence_ssh_init (strip_brackets host) (Z.of_N p) e' h').
  { intros e' h'. subst spec. unfold twopence_ssh_init.
    change (host +:+ ":-" +:+ pretty (2 ^ 64 - p)%N)
      with (host +:+ ":" +:+ ("-" +:+ pretty (2 ^ 64 - p)%N)).
    rewrite (strrchr_colon_app host ("-" +:+ pretty (2 ^ 64 - p)%N)).
    2:{ rewrite append_cons, append_nil_l. simpl.
        rewrite (all_digits_no_colon _ (all_digits_pretty _)). reflexivity. }
    rewrite str_take_app.
    replace (str_drop (S (String.length host))
               (host +:+ ":" +:+ ("-" +:+ pretty (2 ^ 64 - p)%N)))
      with ("-" +:+ pretty (2 ^ 64 - p)%N).
    2:{ rewrite <- (str_drop_app (host +:+ ":") ("-" +:+ pretty (2 ^ 64 - p)%N)) at 1.
        rewrite length_app_string, append_assoc. simpl. f_equal. lia. }
    rewrite (strtoul10_minus_pretty _ Hq), Hval. simpl String.eqb. cbn [negb orb].
    destruct (Z.leb_spec 65535 (Z.of_N p)); [lia | reflexivity]. }
  split; [apply Hparse |].
  rewrite Hparse. unfold __twopence_ssh_init, env_port_checked. do 2 munfold. simpl.
  destruct (Z.leb_spec (Z.of_N p) 0); [lia |]. simpl.
  rewrite <- !app_assoc. reflexivity.
Qed.

End ssh_init_negative.

(** C6 on the host part "host" and the port 22, written
    -18446744073709551594. *)
Lemma ssh_init_accepts_a_negative_port_witness :
  @twopence_ssh_init twopence_h_sample (Some "host:-18446744073709551594")
    env_port_checked []
  = (Some {| target_addr := 1000; base_plugin_type := 1; base_current_io := NULL;
             template := 2000; foreground := None |},
     [ calloc; ssh_new; ssh_options_set_str 2000 SSH_OPTIONS_HOST "host";
       ssh_options_set_uint 2000 SSH_OPTIONS_PORT 22 ]).
Proof.
  apply (proj2 (@ssh_init_accepts_a_negative_port twopence_h_sample "host" 22%N
                  env_port_checked [] ltac:(lia))).
Defined.

(** ** The exit status is fetched once *)

Section exit_status_more.
Context `{twopence_h}.

(** X9: the exit status of a command is reported once.  A call of
    [__twopence_ssh_transaction_get_exit_status] returns 0 or -1; when it
    returns -1 the caller's status is as it was.  After a call that
    returned 0, every further call on the transaction it left returns 0
    without any call to libssh and leaves the transaction and the status
    it is given untouched. *)
Theorem exit_status_is_fetched_once (trans : twopence_ssh_transaction_t)
    (status : twopence_status_t) (e : env) (h : trace) :
  let r := (__twopence_ssh_transaction_get_exit_status trans status e h).1 in
  (r.1.1 = -1 ∧ r.2 = status ∨ r.1.1 = 0)
  ∧ (r.1.1 = 0 →
     ∀ status2 e' h',
       __twopence_ssh_transaction_get_exit_status r.1.2 status2 e' h'
       = ((0, r.1.2, status2), h')).
Proof.
  unfold __twopence_ssh_transaction_get_exit_status.
  destruct (status_ret trans) eqn:Hret; cbn [negb]; cbv iota.
  2:{ simpl. rewrite Hret. simpl. split; [right; reflexivity | reflexivity]. }
  destruct (Z.eqb_spec (channel trans) NULL) as [Hch|Hch].
  { simpl. rewrite Hret. simpl.
    destruct (Z.eqb_spec (channel trans) NULL); [| contradiction].
    split; [right; reflexivity | reflexivity]. }
  munfold. cbv beta.
  destruct (__twopence_ssh_transaction_send_eof trans e h) as [[rc t1] h1].
  destruct (Z.eqb_spec rc SSH_ERROR) as [Herr|Herr]; simpl.
  - split; [| discriminate]. left. split; reflexivity.
  - split; [right; reflexivity |]. intros _ status2 e' h'. reflexivity.
Qed.

End exit_status_more.

(** ** Release of the transaction of a command *)

Lemma frees_app (p : Z) (l1 l2 : trace) :
  frees p (l1 ++ l2) = (frees p l1 + frees p l2)%nat.
Proof.
  induction l1 as [|c l1 IH]; [reflexivity |].
  destruct c; simpl; try exact IH.
  destruct (_ =? _); simpl; rewrite IH; reflexivity.
Qed.

(** The callback of the exit signal changes the recorded signal and
    nothing else. *)
Lemma callback_only_sets_signal (trans : twopence_ssh_transaction_t) (signals : list string) :
  foldl __twopence_ssh_exit_signal_callback trans signals
  = set_exit_signal trans
      (exit_signal (foldl __twopence_ssh_exit_signal_callback trans signals)).
Proof.
  revert trans. induction signals as [|s signals IH]; intros trans.
  - destruct trans; reflexivity.
  - simpl foldl. rewrite IH. unfold __twopence_ssh_exit_signal_callback.
    destruct (signames_lookup signames 0 s); reflexivity.
Qed.

Lemma callback_addr (trans : twopence_ssh_transaction_t) (signals : list string) :
  addr (foldl __twopence_ssh_exit_signal_callback trans signals) = addr trans.
Proof. rewrite callback_only_sets_signal. reflexivity. Qed.

Lemma callback_channel (trans : twopence_ssh_transaction_t) (signals : list string) :
  channel (foldl __twopence_ssh_exit_signal_callback trans signals) = channel trans.
Proof. rewrite callback_only_sets_signal. reflexivity. Qed.

(** [__twopence_ssh_transaction_free] closes what is open and releases the
    memory of the transaction, once. *)
Lemma transaction_free_frees (trans : twopence_ssh_transaction_t) (e : env) (h : trace) :
  let r := __twopence_ssh_transaction_free trans e h in
  ∃ l, r.2 = h ++ l ∧ frees (addr trans) l = 1%nat
       ∧ addr r.1 = addr trans ∧ channel r.1 = NULL ∧ session r.1 = NULL
       ∧ stdin r.1 = stdin trans.
Proof.
  unfold __twopence_ssh_transaction_free, __twopence_ssh_transaction_close_channel.
  munfold. simpl.
  destruct (negb (stdin_stream (stdin trans) =? NULL) && (0 <=? was_blocking (stdin trans)));
    simpl;
    destruct (Z.eqb_spec (channel trans) NULL) as [Hc|Hc]; simpl;
    destruct (Z.eqb_spec (session trans) NULL) as [Hs|Hs]; simpl;
    (eexists; split; [rewrite <- ?app_assoc; reflexivity |]);
    simpl; rewrite Z.eqb_refl; repeat split; assumption || reflexivity.
Qed.

(** The last step of a failure path: the release of the transaction. *)
Ltac free_tail :=
  match goal with
  | |- context [__twopence_ssh_transaction_free ?t ?e' ?h'] =>
      let l := fresh "l" in
      let Htr := fresh "Htr" in
      let Hfr := fresh "Hfr" in
      let Hfa := fresh "Hfa" in
      let Hfc := fresh "Hfc" in
      let Hfs := fresh "Hfs" in
      let t' := fresh "t'" in
      let h'' := fresh "h''" in
      destruct (transaction_free_frees t e' h') as (l & Htr & Hfr & Hfa & Hfc & Hfs & _);
      destruct (__twopence_ssh_transaction_free t e' h') as [t' h''];
      simpl in Htr, Hfr, Hfa, Hfc, Hfs; subst h'';
      repeat (progress (rewrite ?callback_addr in Hfr, Hfa; simpl in Hfr, Hfa))
  end.

(** Case analysis on the tests of integers in the goal. *)
Ltac split_tests :=
  repeat (match goal with
          | |- context [negb (?x =? ?y)] => destruct (Z.eqb_spec x y); cbn [negb]
          | |- context [if ?x =? ?y then _ else _] => destruct (Z.eqb_spec x y)
          | |- context [if ?x <? ?y then _ else _] => destruct (Z.ltb_spec x y)
          end; cbv beta iota zeta).

Section command_release.
Context `{twopence_h}.

Lemma codes_are_negative :
  twopence_h_ok →
  Forall (λ rc, rc < 0)
    [ TWOPENCE_OPEN_SESSION_ERROR; TWOPENCE_SEND_COMMAND_ERROR;
      TWOPENCE_FORWARD_INPUT_ERROR; TWOPENCE_RECEIVE_RESULTS_ERROR;
      TWOPENCE_COMMAND_TIMEOUT_ERROR ].
Proof.
  intros [_ Hneg]. unfold twopence_result_codes in Hneg.
  repeat match goal with
         | Hf : Forall _ (_ :: _) |- _ => apply Forall_cons in Hf as [? Hf]
         end.
  repeat constructor; assumption.
Qed.

(** A transaction that was made is at the address [calloc] gave, with no
    exception, no session and no channel; nothing was released. *)
Lemma transaction_new_made (handle timeout : Z) (trans : twopence_ssh_transaction_t)
    (e : env) (h h1 : trace) :
  __twopence_ssh_transaction_new handle timeout e h = (Some trans, h1) →
  h1 = h ++ [calloc; gettimeofday] ∧ addr trans = ret (e h calloc)
  ∧ exception trans = 0 ∧ stdin_stream (stdin trans) = NULL.
Proof.
  unfold __twopence_ssh_transaction_new. do 2 munfold.
  destruct (Z.eqb_spec (ret (e h calloc)) NULL); [discriminate |].
  intros [= <- <-]. rewrite <- app_assoc. repeat split.
Qed.

(** Opening the session releases no memory with [free] and leaves the
    transaction where it is; when it succeeds there is a channel. *)
Lemma open_session_trace (trans : twopence_ssh_transaction_t) (username : option string)
    (e : env) (h : trace) :
  let r := __twopence_ssh_transaction_open_session trans username e h in
  (∃ l, r.2 = h ++ l ∧ ∀ p, frees p l = 0%nat)
  ∧ addr r.1.2 = addr trans ∧ exception r.1.2 = exception trans
  ∧ stdin r.1.2 = stdin trans
  ∧ (r.1.1 = 0 ∨ r.1.1 = TWOPENCE_OPEN_SESSION_ERROR)
  ∧ (r.1.1 ≠ TWOPENCE_OPEN_SESSION_ERROR → channel r.1.2 ≠ NULL).
Proof.
  unfold __twopence_ssh_transaction_open_session, __twopence_ssh_open_session.
  destruct (handle trans) as [template|]; do 2 munfold; cbv beta iota zeta.
  2:{ simpl. split; [exists []; rewrite app_nil_r; split; reflexivity |].
      repeat split; try reflexivity; [right; reflexivity | congruence]. }
  split_tests; simpl;
    (split; [eexists; split; [rewrite <- ?app_assoc; reflexivity | reflexivity] |]);
    repeat split; try reflexivity; try (right; reflexivity); try (left; reflexivity);
    try congruence.
Qed.

(** A failure of [__twopence_ssh_transaction_execute_command] on an open
    channel has released the transaction already. *)
Lemma execute_command_failure_frees (trans : twopence_ssh_transaction_t)
    (cmd : twopence_command_t) (e : env) (h : trace) :
  channel trans ≠ NULL →
  let r := __twopence_ssh_transaction_execute_command trans cmd e h in
  r.1.1 ≠ 0 →
  ∃ l, r.2 = h ++ l ∧ frees (addr trans) l = 1%nat
       ∧ addr r.1.2 = addr trans ∧ channel r.1.2 = NULL ∧ session r.1.2 = NULL
       ∧ r.1.1 ∈ [TWOPENCE_OPEN_SESSION_ERROR; TWOPENCE_SEND_COMMAND_ERROR].
Proof.
  intros Hch. unfold __twopence_ssh_transaction_execute_command.
  destruct (Z.eqb_spec (channel trans) NULL) as [|_]; [contradiction |].
  unfold __twopence_ssh_init_callbacks, __twopence_ssh_transaction_setup_stdio, chan.
  do 2 munfold.
  set (t0 := if callbacks_size trans =? 0 then set_callbacks_size trans 1 else trans).
  assert (Ht0 : addr t0 = addr trans ∧ channel t0 = channel trans)
    by (subst t0; destruct (callbacks_size trans =? 0); split; reflexivity).
  destruct Ht0 as [Ha0 Hc0].
  destruct (Z.eqb_spec (channel t0) NULL) as [Hz|_]; [congruence |].
  cbv beta iota zeta.
  destruct (request_tty cmd); cbv beta iota zeta;
    repeat match goal with
           | |- context [negb (?x =? ?y)] =>
               destruct (Z.eqb_spec x y); cbn [negb]; cbv beta iota zeta
           end;
    try (simpl; intros Habs; exfalso; apply Habs; reflexivity);
    free_tail; intros _; simpl; rewrite Ha0 in *;
    (eexists; split; [rewrite <- ?app_assoc; reflexivity |]);
    rewrite ?frees_app; simpl; rewrite Hfr; repeat split; try assumption;
    set_solver.
Qed.

Lemma execute_command_failure_trace (trans : twopence_ssh_transaction_t)
    (cmd : twopence_command_t) (e : env) (h : trace) :
  let r := __twopence_ssh_transaction_execute_command trans cmd e h in
  r.1.1 ≠ 0 → ∃ l, r.2 = h ++ l ∧ addr r.1.2 = addr trans.
Proof.
  destruct (Z.eqb_spec (channel trans) NULL) as [Hch|Hch].
  - unfold __twopence_ssh_transaction_execute_command.
    destruct (Z.eqb_spec (channel trans) NULL); [| contradiction].
    simpl. intros _. exists []. rewrite app_nil_r. split; reflexivity.
  - intros r Hr.
    destruct (execute_command_failure_frees trans cmd e h Hch Hr) as (l & Htr & _ & Ha & _).
    exists l. split; assumption.
Qed.

(** X10: a command that the server refuses releases its transaction
    twice.  With the result codes negative and pairwise distinct: when
    the transaction was made and its session opened, and
    [__twopence_ssh_transaction_execute_command] fails (the request for a
    tty or the request to run the command is refused), that function has
    released the transaction, and [__twopence_ssh_command_ssh] releases it
    again: it returns the code of the failure after two calls of [free] on
    the address [calloc] gave, and the target keeps the released
    transaction as its foreground transaction. *)
Theorem command_ssh_releases_twice (fuel : nat) (handle : twopence_ssh_target)
    (cmd : twopence_command_t) (status : twopence_status_t) (e : env) (h h1 h2 h3 : trace)
    (trans t2 t3 : twopence_ssh_transaction_t) (rc : Z) :
  twopence_h_ok →
  __twopence_ssh_transaction_new (template handle) (timeout cmd) e h = (Some trans, h1) →
  __twopence_ssh_transaction_open_session trans (user cmd) e h1 = ((0, t2), h2) →
  __twopence_ssh_transaction_execute_command t2 cmd e h2 = ((rc, t3), h3) →
  rc ≠ 0 →
  ∃ t4 l,
    __twopence_ssh_command_ssh fuel handle cmd status e h
    = (Some (rc, set_foreground handle (Some t4), set_minor status 0), h ++ l)
    ∧ frees (ret (e h calloc)) l = 2%nat
    ∧ addr t4 = ret (e h calloc)
    ∧ rc ∈ [TWOPENCE_OPEN_SESSION_ERROR; TWOPENCE_SEND_COMMAND_ERROR].
Proof.
  intros Hok Hnew Hopen Hexec Hrc.
  pose proof (codes_are_negative Hok) as Hneg.
  apply Forall_cons in Hneg as [Hneg _].
  destruct (transaction_new_made _ _ _ _ _ _ Hnew) as (-> & Haddr & _).
  pose proof (open_session_trace trans (user cmd) e (h ++ [calloc; gettimeofday])) as Ho.
  rewrite Hopen in Ho. simpl in Ho.
  destruct Ho as ((lo & -> & Hfo) & Ha2 & _ & _ & _ & Hch2).
  specialize (Hch2 ltac:(lia)).
  pose proof (execute_command_failure_frees t2 cmd e
                ((h ++ [calloc; gettimeofday]) ++ lo) Hch2) as Hx.
  rewrite Hexec in Hx. simpl in Hx.
  destruct (Hx Hrc) as (lx & -> & Hfx & Ha3 & _ & _ & Hin).
  unfold __twopence_ssh_command_ssh. munfold. rewrite Hnew. cbv beta iota zeta.
  rewrite Hopen. cbv beta iota zeta. change (negb (0 =? 0)) with false.
  cbv beta iota zeta.
  rewrite Hexec. cbv beta iota zeta.
  destruct (Z.eqb_spec rc 0) as [|_]; [contradiction |]. cbn [negb]. cbv beta iota zeta.
  destruct (transaction_free_frees t3 e (((h ++ [calloc; gettimeofday]) ++ lo) ++ lx))
    as (lf & Htr & Hff & Ha4 & _).
  destruct (__twopence_ssh_transaction_free t3 e _) as [t4 h4]. simpl in Htr, Hff, Ha4.
  subst h4. exists t4, ([calloc; gettimeofday] ++ lo ++ lx ++ lf).
  split; [rewrite !app_assoc; reflexivity |].
  rewrite <- Haddr, <- Ha2, <- Ha3 at 1.
  rewrite !frees_app, Hfo, Hff. rewrite Ha3, Hfx. 
  split; [reflexivity |]. split; [congruence | exact Hin].
Qed.

(** X11: what [__twopence_ssh_command_ssh] leaves as the foreground
    transaction of the target.  When it returns, either it has not
    touched the target (no memory for a transaction), or the target has
    no foreground transaction, or the command has failed before it ran
    and the foreground transaction is one whose memory has been released
    with [free]. *)
Theorem command_ssh_foreground_is_released (fuel : nat) (handle handle' : twopence_ssh_target)
    (cmd : twopence_command_t) (status status' : twopence_status_t) (e : env)
    (h h' : trace) (rc : Z) :
  __twopence_ssh_command_ssh fuel handle cmd status e h
  = (Some (rc, handle', status'), h') →
  handle' = handle ∧ ret (e h calloc) = NULL
  ∨ handle' = set_foreground handle None
  ∨ ∃ t l, handle' = set_foreground handle (Some t) ∧ rc ≠ 0
           ∧ h' = h ++ l ∧ (1 ≤ frees (addr t) l)%nat.
Proof.
  unfold __twopence_ssh_command_ssh. munfold.
  destruct (__twopence_ssh_transaction_new (template handle) (timeout cmd) e h)
    as [[trans|] h1] eqn:Hnew; cbv beta iota zeta.
  2:{ intros [= <- <- <- <-]. left. split; [reflexivity |].
      revert Hnew. unfold __twopence_ssh_transaction_new. do 2 munfold.
      destruct (Z.eqb_spec (ret (e h calloc)) NULL); [auto | discriminate]. }
  destruct (transaction_new_made _ _ _ _ _ _ Hnew) as (-> & Haddr & _).
  pose proof (open_session_trace trans (user cmd) e (h ++ [calloc; gettimeofday])) as Ho.
  destruct (__twopence_ssh_transaction_open_session trans (user cmd) e _)
    as [[rc1 t2] h2]. simpl in Ho.
  destruct Ho as ((lo & -> & Hfo) & Ha2 & _ & _ & _ & _).
  destruct (Z.eqb_spec rc1 0) as [->|Hrc1]; cbn [negb]; cbv beta iota zeta.
  - pose proof (execute_command_failure_trace t2 cmd e
                  ((h ++ [calloc; gettimeofday]) ++ lo)) as Hx.
    destruct (__twopence_ssh_transaction_execute_command t2 cmd e _) as [[rc2 t3] h3].
    simpl in Hx.
    destruct (Z.eqb_spec rc2 0) as [->|Hrc2]; cbn [negb]; cbv beta iota zeta.
    + destruct (__twopence_ssh_poll fuel t3 (set_minor status 0) e h3)
        as [[[[rc3 t5] status5]|] h5]; [| discriminate].
      destruct ((rc3 <? 0) && negb (exception t5 <? 0)); [discriminate |].
      destruct (__twopence_ssh_transaction_free t5 e h5) as [t6 h6].
      intros [= <- <- <- <-]. right. left. reflexivity.
    + destruct (Hx Hrc2) as (lx & -> & Ha3).
      destruct (transaction_free_frees t3 e (((h ++ [calloc; gettimeofday]) ++ lo) ++ lx))
        as (lf & Htr & Hff & Ha4 & _).
      destruct (__twopence_ssh_transaction_free t3 e _) as [t4 h4].
      simpl in Htr, Hff, Ha4. subst h4. intros [= <- <- <- <-]. right. right.
      exists t4, ([calloc; gettimeofday] ++ lo ++ lx ++ lf).
      split; [reflexivity |]. split; [exact Hrc2 |].
      split; [rewrite !app_assoc; reflexivity |].
      rewrite !frees_app, Ha4, Hff. lia.
  - destruct (transaction_free_frees t2 e ((h ++ [calloc; gettimeofday]) ++ lo))
      as (lf & Htr & Hff & Ha4 & _).
    destruct (__twopence_ssh_transaction_free t2 e _) as [t4 h4]. simpl in Htr, Hff, Ha4.
    subst h4. intros [= <- <- <- <-]. right. right.
    exists t4, ([calloc; gettimeofday] ++ lo ++ lf).
    split; [reflexivity |]. split; [exact Hrc1 |].
    split; [rewrite !app_assoc; reflexivity |].
    rewrite !frees_app, Ha4, Hff. lia.
Qed.

End command_release.

(** X10 with the codes numbered as in [twopence_h_sample], on a server
    that refuses the request to run the command. *)
Lemma command_ssh_releases_twice_witness :
  ∃ t4 l,
    @__twopence_ssh_command_ssh twopence_h_sample 0 target_idle cmd_true status_zero
      env_exec_refused []
    = (Some (-3, set_foreground target_idle (Some t4), set_minor status_zero 0), [] ++ l)
    ∧ frees 1000 l = 2%nat
    ∧ addr t4 = 1000
    ∧ -3 ∈ [-2; -3].
Proof.
  eapply (@command_ssh_releases_twice twopence_h_sample 0 target_idle cmd_true status_zero
            env_exec_refused []).
  - apply (bool_decide_unpack _). vm_compute. exact I.
  - vm_compute. reflexivity.
  - vm_compute. reflexivity.
  - vm_compute. reflexivity.
  - discriminate.
Defined.

(** X11 on the same server: the transaction left as foreground was
    released. *)
Lemma command_ssh_foreground_is_released_witness :
  let r := @__twopence_ssh_command_ssh twopence_h_sample 0 target_idle cmd_true status_zero
             env_exec_refused [] in
  let handle' := from_option (λ v, v.1.2) target_idle r.1 in
  handle' = target_idle ∧ ret (env_exec_refused [] calloc) = NULL
  ∨ handle' = set_foreground target_idle None
  ∨ ∃ t l, handle' = set_foreground target_idle (Some t) ∧ -3 ≠ 0
           ∧ r.2 = [] ++ l ∧ (1 ≤ frees (addr t) l)%nat.
Proof.
  intros r handle'.
  apply (@command_ssh_foreground_is_released twopence_h_sample 0 target_idle handle'
           cmd_true status_zero (set_minor status_zero 0) env_exec_refused [] r.2 (-3)).
  vm_compute. reflexivity.
Defined.

(** ** The return value of the engine and the exception *)

Create HintDb same.

Lemma same_chan (x : Z) (t : twopence_ssh_transaction_t) (c : call) :
  exception t = x → post (chan t c) (has_exception x).
Proof.
  intros Ht e h. unfold chan, has_exception. munfold. simpl.
  rewrite (proj1 (proj2 (proj2 (proj2 (callback_keeps_flags t _))))). exact Ht.
Qed.
#[local] Hint Resolve same_chan : same.

(** One step through a function that records no failure. *)
Ltac same_step x :=
  first
    [ apply post_ret; unfold has_exception in *; simpl in *; solve [ assumption | congruence ]
    | solve [ eauto 2 with same ]
    | eapply (post_bind _ _ (has_exception x));
      [ solve [ repeat same_step x ] | intros [? ?] ? ]
    | eapply (post_bind _ _ (λ _, True)); [ apply post_any | intros ? _ ]
    | match goal with
      | |- post (if ?b then _ else _) _ => destruct b
      | |- post (match ?x with _ => _ end) _ => destruct x
      | |- context [if ?b then _ else _] => destruct b
      end ].

Lemma same_send_eof (x : Z) (t : twopence_ssh_transaction_t) :
  exception t = x → post (__twopence_ssh_transaction_send_eof t) (has_exception x).
Proof. intros Ht. unfold __twopence_ssh_transaction_send_eof. repeat same_step x. Qed.
#[local] Hint Resolve same_send_eof : same.

Lemma same_mark_stdin_eof (x : Z) (t : twopence_ssh_transaction_t) :
  exception t = x → post (__twopence_ssh_transaction_mark_stdin_eof t) (has_exception x).
Proof. intros Ht. unfold __twopence_ssh_transaction_mark_stdin_eof. repeat same_step x. Qed.
#[local] Hint Resolve same_mark_stdin_eof : same.

Lemma same_forward_stdin (x : Z) (t : twopence_ssh_transaction_t) :
  exception t = x → post (__twopence_ssh_transaction_forward_stdin t) (has_exception x).
Proof. intros Ht. unfold __twopence_ssh_transaction_forward_stdin. repeat same_step x. Qed.
#[local] Hint Resolve same_forward_stdin : same.

Create HintDb verdict.

(** Membership in a list that is written out. *)
Ltac in_list :=
  repeat first [ apply list_elem_of_here | apply list_elem_of_further ].
Ltac in_list_from Hin :=
  repeat (apply elem_of_cons in Hin as [->|Hin]; [in_list |]);
  apply elem_of_nil in Hin; contradiction.

Section engine_verdict.
Context `{twopence_h}.
Hypothesis Hok : twopence_h_ok.

Lemma engine_codes_nonzero (x : Z) : x ∈ engine_codes → x < 0.
Proof.
  pose proof (codes_are_negative Hok) as Hneg.
  repeat match goal with
         | Hf : Forall _ (_ :: _) |- _ => apply Forall_cons in Hf as [? Hf]
         end.
  unfold engine_codes. intros Hx.
  repeat (apply elem_of_cons in Hx as [->|Hx]; [assumption |]).
  apply elem_of_nil in Hx. contradiction.
Qed.

#[local] Hint Extern 1 (exception _ = _) =>
  simpl; solve [ assumption | congruence ] : verdict.

(** The end of a path through a function of the engine. *)
Ltac verdict_leaf :=
  apply post_ret; unfold has_exception in * |-;
  unfold verdict3, overdict, overdict3, verdict; simpl in *;
  first
    [ exact I
    | assumption
    | left; split; [ reflexivity | solve [ assumption | congruence ] ]
    | right; split; [ reflexivity | assumption ]
    | right; split; [ reflexivity |];
      rewrite transaction_fail_unset by solve [ assumption | congruence ];
      unfold engine_codes; solve [ in_list ] ].

(** One step through a function of the engine that records failures. *)
Ltac verdict_step :=
  first
    [ verdict_leaf
    | solve [ eauto 2 with verdict ]
    | eapply (post_bind _ _ verdict);
      [ solve [ unfold has_exception in * |-; simpl in *; eauto 2 with verdict ]
      | let Hv := fresh "Hv" in
        intros [? ?] Hv; unfold verdict in Hv; simpl in Hv;
        destruct Hv as [[-> ?]|[-> ?]]; simpl in * ]
    | eapply (post_bind _ _ overdict);
      [ solve [ unfold has_exception in * |-; simpl in *; eauto 2 with verdict ]
      | let Hv := fresh "Hv" in
        intros [[? ?]|] Hv; unfold overdict, verdict in Hv; simpl in Hv;
        [ destruct Hv as [[-> ?]|[-> ?]] |]; simpl in * ]
    | eapply (post_bind _ _ verdict3);
      [ solve [ unfold has_exception in * |-; simpl in *; eauto 2 with verdict ]
      | intros ? ? ]
    | eapply (post_bind _ _ (has_exception 0));
      [ solve [ unfold has_exception in * |-; simpl in *; repeat same_step 0 ]
      | intros [? ?] ? ]
    | eapply (post_bind _ _ (λ _, True)); [ apply post_any | intros ? _ ]
    | match goal with
      | |- post (if ?b then _ else _) _ => destruct b
      | |- post (match ?x with _ => _ end) _ => destruct x
      | |- context [if ?b then _ else _] => destruct b
      end ].

Lemma verdict_forward_output (t : twopence_ssh_transaction_t) (is_stderr : bool) :
  exception t = 0 → post (__twopence_ssh_transaction_forward_output t is_stderr) verdict.
Proof. intros Ht. unfold __twopence_ssh_transaction_forward_output. repeat verdict_step. Qed.
#[local] Hint Resolve verdict_forward_output : verdict.

Lemma verdict_get_exit_status (t : twopence_ssh_transaction_t) (status : twopence_status_t) :
  exception t = 0 → post (__twopence_ssh_transaction_get_exit_status t status) verdict3.
Proof. intros Ht. unfold __twopence_ssh_transaction_get_exit_status. repeat verdict_step. Qed.
#[local] Hint Resolve verdict_get_exit_status : verdict.

Lemma verdict_poll_stdin_loop (fuel : nat) (t : twopence_ssh_transaction_t) :
  exception t = 0 → post (poll_stdin_loop fuel t) overdict.
Proof.
  revert t. induction fuel as [|fuel IH]; intros t Ht; simpl; repeat verdict_step.
Qed.
#[local] Hint Resolve verdict_poll_stdin_loop : verdict.

Lemma verdict_poll_loop (fuel : nat) (t : twopence_ssh_transaction_t)
    (status : twopence_status_t) :
  exception t = 0 → post (poll_loop fuel t status) overdict3.
Proof.
  revert t status. induction fuel as [|fuel IH]; intros t status Ht; simpl;
    repeat verdict_step.
Qed.
#[local] Hint Resolve verdict_poll_loop : verdict.

Lemma verdict_poll (fuel : nat) (t : twopence_ssh_transaction_t)
    (status : twopence_status_t) :
  exception t = 0 → post (__twopence_ssh_poll fuel t status) overdict3.
Proof.
  intros Ht. unfold __twopence_ssh_poll, __twopence_ssh_transaction_poll_stdin.
  repeat verdict_step.
Qed.

(** [__twopence_ssh_transaction_execute_command] succeeds with the
    exception as it was, or fails with one of two codes. *)
Lemma execute_command_outcome (trans : twopence_ssh_transaction_t)
    (cmd : twopence_command_t) (e : env) (h : trace) :
  let r := (__twopence_ssh_transaction_execute_command trans cmd e h).1 in
  r.1 = 0 ∧ exception r.2 = exception trans
  ∨ r.1 ∈ [TWOPENCE_OPEN_SESSION_ERROR; TWOPENCE_SEND_COMMAND_ERROR].
Proof.
  unfold __twopence_ssh_transaction_execute_command.
  destruct (Z.eqb_spec (channel trans) NULL) as [|_]; [right; simpl; in_list |].
  unfold __twopence_ssh_init_callbacks, __twopence_ssh_transaction_setup_stdio, chan.
  do 2 munfold.
  set (t0 := if callbacks_size trans =? 0 then set_callbacks_size trans 1 else trans).
  assert (Ht0 : exception t0 = exception trans)
    by (subst t0; destruct (callbacks_size trans =? 0); reflexivity).
  destruct (channel t0 =? NULL); cbv beta iota zeta;
    destruct (request_tty cmd); cbv beta iota zeta;
    repeat match goal with
           | |- context [negb (?x =? ?y)] =>
               destruct (Z.eqb_spec x y); cbn [negb]; cbv beta iota zeta
           end;
    try match goal with
        | |- context [__twopence_ssh_transaction_free ?t ?e' ?h'] =>
            destruct (__twopence_ssh_transaction_free t e' h')
        end;
    simpl;
    first [ right; solve [in_list]
          | left; split; [reflexivity |];
            rewrite ?(proj1 (proj2 (proj2 (proj2 (callback_keeps_flags _ _))))); simpl;
            rewrite ?(proj1 (proj2 (proj2 (proj2 (callback_keeps_flags _ _))))); simpl;
            exact Ht0 ].
Qed.

(** X12: the return value of the multiplexer tells whether a failure was
    recorded.  With the result codes negative and pairwise distinct, on a
    transaction that has no exception, whenever
    [__twopence_ssh_poll] returns, it returns 0 and the transaction still
    has no exception, or it returns -1 and the exception is one of the
    codes for forwarding the input, receiving the results and the
    timeout of the command, which is negative: the assertion that
    [__twopence_ssh_command_ssh] makes on the exception after a negative
    return value holds. *)
Theorem poll_fails_with_an_exception (fuel : nat) (trans : twopence_ssh_transaction_t)
    (status : twopence_status_t) (e : env) (h : trace) :
  exception trans = 0 →
  match (__twopence_ssh_poll fuel trans status e h).1 with
  | Some (rc, trans', _) =>
      rc = 0 ∧ exception trans' = 0
      ∨ rc = -1 ∧ exception trans' < 0
        ∧ exception trans' ∈ [ TWOPENCE_FORWARD_INPUT_ERROR; TWOPENCE_RECEIVE_RESULTS_ERROR;
                               TWOPENCE_COMMAND_TIMEOUT_ERROR ]
  | None => True
  end.
Proof.
  intros Ht. pose proof (verdict_poll fuel trans status Ht e h) as Hv.
  destruct (__twopence_ssh_poll fuel trans status e h).1 as [[[rc trans'] status']|];
    [| exact I].
  unfold overdict3, verdict in Hv. simpl in Hv.
  destruct Hv as [Hv|[Hrc Hin]]; [left; exact Hv |].
  right. split; [exact Hrc |]. split; [apply engine_codes_nonzero; exact Hin | exact Hin].
Qed.

(** X13: the values [twopence_ssh_run_test] returns.  With the result
    codes negative and pairwise distinct, whenever it returns, the value
    is 0 or one of six codes: the parameter error, the error of
    opening the session, the error of sending the command, and the three
    codes of the multiplexer, the timeout of the command among them. *)
Theorem run_test_return_values (fuel : nat) (handle : twopence_ssh_target)
    (cmd : twopence_command_t) (status : twopence_status_t) (e : env) (h : trace) :
  match (twopence_ssh_run_test fuel handle cmd status e h).1 with
  | Some (rc, _, _) =>
      rc = 0
      ∨ rc ∈ [ TWOPENCE_PARAMETER_ERROR; TWOPENCE_OPEN_SESSION_ERROR;
               TWOPENCE_SEND_COMMAND_ERROR; TWOPENCE_FORWARD_INPUT_ERROR;
               TWOPENCE_RECEIVE_RESULTS_ERROR; TWOPENCE_COMMAND_TIMEOUT_ERROR ]
  | None => True
  end.
Proof.
  unfold twopence_ssh_run_test.
  destruct (command cmd) as [c|]; [| simpl; right; in_list].
  unfold __twopence_ssh_command_ssh. munfold.
  destruct (__twopence_ssh_transaction_new _ _ e h) as [[trans|] h1] eqn:Hnew;
    cbv beta iota zeta; [| simpl; right; in_list].
  destruct (transaction_new_made _ _ _ _ _ _ Hnew) as (_ & _ & Hex & _).
  pose proof (open_session_trace trans (user cmd) e h1) as Ho.
  destruct (__twopence_ssh_transaction_open_session trans (user cmd) e h1)
    as [[rc1 t2] h2]. simpl in Ho.
  destruct Ho as (_ & _ & Hex2 & _ & Hrc1 & _).
  destruct (Z.eqb_spec rc1 0) as [->|Hne1]; cbn [negb]; cbv beta iota zeta.
  2:{ destruct (__twopence_ssh_transaction_free t2 e h2). simpl.
      destruct Hrc1 as [? | ->]; [contradiction | right; in_list]. }
  pose proof (execute_command_outcome t2 cmd e h2) as Hx.
  destruct (__twopence_ssh_transaction_execute_command t2 cmd e h2) as [[rc2 t3] h3].
  simpl in Hx.
  destruct (Z.eqb_spec rc2 0) as [->|Hne2]; cbn [negb]; cbv beta iota zeta.
  2:{ destruct (__twopence_ssh_transaction_free t3 e h3). simpl.
      destruct Hx as [[? _]|Hx]; [contradiction | right; in_list_from Hx]. }
  destruct Hx as [[_ Hex3]|Hx].
  2:{ pose proof (codes_are_negative Hok) as Hneg.
      apply Forall_cons in Hneg as [? Hneg]. apply Forall_cons in Hneg as [? _].
      exfalso. apply elem_of_cons in Hx as [Hx|Hx]; [lia |].
      apply elem_of_cons in Hx as [Hx|Hx]; [lia |]. apply elem_of_nil in Hx. exact Hx. }
  assert (Ht3 : exception t3 = 0) by congruence.
  pose proof (verdict_poll fuel t3 (set_minor {| major := 0; minor := 0 |} 0) Ht3 e h3)
    as Hv.
  destruct (__twopence_ssh_poll fuel t3 _ e h3) as [[[[rc3 t5] status5]|] h5];
    [| exact I].
  unfold overdict3, verdict in Hv. simpl in Hv. destruct Hv as [[-> Hc]|[-> Hin]].
  - change (0 <? 0) with false. cbv beta iota zeta. simpl.
    destruct (__twopence_ssh_transaction_free t5 e h5). simpl. left. reflexivity.
  - pose proof (engine_codes_nonzero _ Hin) as Hlt.
    change (-1 <? 0) with true. cbn [andb]. cbv beta iota zeta.
    destruct (Z.ltb_spec (exception t5) 0); [| lia]. cbn [negb]. cbv beta iota zeta.
    destruct (__twopence_ssh_transaction_free t5 e h5). simpl. right.
    unfold engine_codes in Hin. in_list_from Hin.
Qed.

End engine_verdict.

(** X12 with the codes numbered as in [twopence_h_sample], on a channel
    of which every call fails. *)
Lemma poll_fails_with_an_exception_witness :
  match (@__twopence_ssh_poll twopence_h_sample 1 trans_drained status_zero
           (env_const (-1)) []).1 with
  | Some (rc, trans', _) =>
      rc = 0 ∧ exception trans' = 0
      ∨ rc = -1 ∧ exception trans' < 0 ∧ exception trans' ∈ [-4; -5; -6]
  | None => True
  end.
Proof.
  apply (@poll_fails_with_an_exception twopence_h_sample).
  - apply (bool_decide_unpack _). vm_compute. exact I.
  - reflexivity.
Defined.

(** X13 with the codes numbered as in [twopence_h_sample], on a server
    that refuses the request to run the command. *)
Lemma run_test_return_values_witness :
  match (@twopence_ssh_run_test twopence_h_sample 0 target_idle cmd_true status_zero
           env_exec_refused []).1 with
  | Some (rc, _, _) => rc = 0 ∨ rc ∈ [-1; -2; -3; -4; -5; -6]
  | None => True
  end.
Proof.
  apply (@run_test_return_values twopence_h_sample).
  apply (bool_decide_unpack _). vm_compute. exact I.
Defined.

(** ** The loops of a transfer *)

Lemma scp_read_total_app (l1 l2 : trace) :
  scp_read_total (l1 ++ l2) = scp_read_total l1 + scp_read_total l2.
Proof.
  induction l1 as [|c l1 IH]; [reflexivity |].
  destruct c; simpl; rewrite ?IH; lia.
Qed.

Lemma stream_read_total_app (l1 l2 : trace) :
  stream_read_total (l1 ++ l2) = stream_read_total l1 + stream_read_total l2.
Proof.
  induction l1 as [|c l1 IH]; [reflexivity |].
  destruct c; simpl; rewrite ?IH; lia.
Qed.

Lemma chunk_size (remaining : Z) :
  0 < remaining < 2 ^ 31 →
  let size := to_int remaining in
  let size := if BUFFER_SIZE <? size then BUFFER_SIZE else size in
  0 < size ≤ remaining ∧ size ≤ BUFFER_SIZE.
Proof.
  intros Hr. rewrite to_int_small by lia. unfold BUFFER_SIZE. simpl.
  destruct (Z.ltb_spec 16384 remaining); lia.
Qed.

Section transfer_loops.
Context `{twopence_h}.

(** X14: what the loop of a download has done when it returns, started
    on a remainder that an [int] holds.  The last thing it does is to
    print a newline.  When it returns 0 nothing
    remains, the status is untouched and the sizes it asked of
    [ssh_scp_read] add up to what remained at the start; otherwise it
    returns the code of a failed reception or of a local file, and what
    remains is more than nothing and not more than at the start. *)
Theorem receive_file_reads_what_remains (fuel : nat) (trans : twopence_scp_transaction_t)
    (status : twopence_status_t) (e : env) (h : trace) :
  0 ≤ remaining trans < 2 ^ 31 →
  match __twopence_ssh_receive_file fuel trans status e h with
  | (Some (rc, trans', status'), h') =>
      ∃ l, h' = h ++ l
           ∧ last l = Some (twopence_target_putc false (ascii_of_nat 10))
           ∧ (rc = 0 ∧ remaining trans' = 0 ∧ status' = status
              ∧ scp_read_total l = remaining trans
              ∨ rc ∈ [TWOPENCE_RECEIVE_FILE_ERROR; TWOPENCE_LOCAL_FILE_ERROR]
                ∧ 0 < remaining trans' ≤ remaining trans)
  | (None, _) => True
  end.
Proof.
  revert trans h. induction fuel as [|fuel IH]; intros trans h Hrem.
  - simpl. destruct (Z.leb_spec (remaining trans) 0); [| exact I].
    unfold __twopence_ssh_output. do 2 munfold. simpl.
    eexists. split; [reflexivity |]. split; [reflexivity |].
    left. repeat split; simpl; lia.
  - simpl. destruct (Z.leb_spec (remaining trans) 0).
    { unfold __twopence_ssh_output. do 2 munfold. simpl.
      eexists. split; [reflexivity |]. split; [reflexivity |].
      left. repeat split; simpl; lia. }
    pose proof (chunk_size (remaining trans) ltac:(lia)) as Hsize. simpl in Hsize.
    set (size := if BUFFER_SIZE <? to_int (remaining trans) then BUFFER_SIZE
                 else to_int (remaining trans)) in *.
    unfold __twopence_ssh_output. do 2 munfold. cbv beta iota zeta.
    destruct (Z.eqb_spec (ret (e h (ssh_scp_read (scp trans) size))) size) as [Hread|Hread];
      cbn [negb]; cbv beta iota zeta.
    2:{ eexists. split; [rewrite <- !app_assoc; reflexivity |].
        split; [reflexivity |]. right. split; [in_list | simpl; lia]. }
    match goal with
    | |- context [negb (?x =? size)] => destruct (Z.eqb_spec x size) as [Hw|Hw]
    end; cbn [negb]; cbv beta iota zeta.
    2:{ eexists. split; [rewrite <- !app_assoc; reflexivity |].
        split; [reflexivity |]. right. split; [in_list | simpl; lia]. }
    match goal with
    | |- context [__twopence_ssh_receive_file fuel ?t status e ?h2] =>
        specialize (IH t h2 ltac:(simpl; lia));
        destruct (__twopence_ssh_receive_file fuel t status e h2)
          as [[[[rc trans'] status']|] h']
    end; [| exact I].
    destruct IH as (l & -> & Hlast & Hcases). simpl in Hcases.
    eexists. split; [rewrite <- !app_assoc; reflexivity |].
    split.
    + simpl app. rewrite !last_cons, Hlast. reflexivity.
    + destruct Hcases as [(-> & Hr0 & -> & Htot)|[Hin Hr]].
      * left. repeat split; try assumption. simpl. rewrite Htot. lia.
      * right. split; [exact Hin | lia].
Qed.

(** X15: what the loop of an upload has done when it returns, started on
    a remainder that an [int] holds.  The last thing it does is to print a
    newline.  When it returns 0 nothing
    remains, the status is untouched and the sizes it asked of the local
    stream add up to what remained at the start; otherwise it returns
    the code of a local file or of a failed sending, and what remains is
    more than nothing and not more than at the start. *)
Theorem send_file_reads_what_remains (fuel : nat) (trans : twopence_scp_transaction_t)
    (status : twopence_status_t) (e : env) (h : trace) :
  0 ≤ remaining trans < 2 ^ 31 →
  match __twopence_ssh_send_file fuel trans status e h with
  | (Some (rc, trans', status'), h') =>
      ∃ l, h' = h ++ l
           ∧ last l = Some (twopence_target_putc false (ascii_of_nat 10))
           ∧ (rc = 0 ∧ remaining trans' = 0 ∧ status' = status
              ∧ stream_read_total l = remaining trans
              ∨ rc ∈ [TWOPENCE_LOCAL_FILE_ERROR; TWOPENCE_SEND_FILE_ERROR]
                ∧ 0 < remaining trans' ≤ remaining trans)
  | (None, _) => True
  end.
Proof.
  revert trans h. induction fuel as [|fuel IH]; intros trans h Hrem.
  - simpl. destruct (Z.leb_spec (remaining trans) 0); [| exact I].
    unfold __twopence_ssh_output. do 2 munfold. simpl.
    eexists. split; [reflexivity |]. split; [reflexivity |].
    left. repeat split; simpl; lia.
  - simpl. destruct (Z.leb_spec (remaining trans) 0).
    { unfold __twopence_ssh_output. do 2 munfold. simpl.
      eexists. split; [reflexivity |]. split; [reflexivity |].
      left. repeat split; simpl; lia. }
    pose proof (chunk_size (remaining trans) ltac:(lia)) as Hsize. simpl in Hsize.
    set (size := if BUFFER_SIZE <? to_int (remaining trans) then BUFFER_SIZE
                 else to_int (remaining trans)) in *.
    unfold __twopence_ssh_output. do 2 munfold. cbv beta iota zeta.
    destruct (Z.eqb_spec (ret (e h (twopence_iostream_read (scp_local_stream trans) size)))
                size) as [Hread|Hread];
      cbn [negb]; cbv beta iota zeta.
    2:{ eexists. split; [rewrite <- !app_assoc; reflexivity |].
        split; [reflexivity |]. right. split; [in_list | simpl; lia]. }
    match goal with
    | |- context [negb (?x =? SSH_OK)] => destruct (Z.eqb_spec x SSH_OK) as [Hw|Hw]
    end; cbn [negb]; cbv beta iota zeta.
    2:{ eexists. split; [rewrite <- !app_assoc; reflexivity |].
        split; [reflexivity |]. right. split; [in_list | simpl; lia]. }
    match goal with
    | |- context [__twopence_ssh_send_file fuel ?t status e ?h2] =>
        specialize (IH t h2 ltac:(simpl; lia));
        destruct (__twopence_ssh_send_file fuel t status e h2)
          as [[[[rc trans'] status']|] h']
    end; [| exact I].
    destruct IH as (l & -> & Hlast & Hcases). simpl in Hcases.
    eexists. split; [rewrite <- !app_assoc; reflexivity |].
    split.
    + simpl app. rewrite !last_cons, Hlast. reflexivity.
    + destruct Hcases as [(-> & Hr0 & -> & Htot)|[Hin Hr]].
      * left. repeat split; try assumption. simpl. rewrite Htot. lia.
      * right. split; [exact Hin | lia].
Qed.

End transfer_loops.

(** X14 on a file of 20000 bytes of which every read and write is
    complete: two chunks. *)
Lemma receive_file_reads_what_remains_witness :
  let trans := {| scp_handle := Some 3; scp_session := 501; scp := 600;
                  scp_local_stream := 40; remaining := 20000 |} in
  let e : env := λ h c, match c with
                        | ssh_scp_read _ n => reply_of n
                        | twopence_iostream_write _ _ =>
                            reply_of (match last h with
                                      | Some (ssh_scp_read _ n) => n
                                      | _ => 0
                                      end)
                        | _ => reply_of 0
                        end in
  match @__twopence_ssh_receive_file twopence_h_sample 2 trans status_zero e [] with
  | (Some (rc, trans', status'), h') =>
      ∃ l, h' = [] ++ l
           ∧ last l = Some (twopence_target_putc false (ascii_of_nat 10))
           ∧ (rc = 0 ∧ remaining trans' = 0 ∧ status' = status_zero
              ∧ scp_read_total l = remaining trans
              ∨ rc ∈ [-10; -7] ∧ 0 < remaining trans' ≤ remaining trans)
  | (None, _) => True
  end.
Proof.
  intros trans e.
  apply (@receive_file_reads_what_remains twopence_h_sample 2 trans status_zero e []).
  simpl. lia.
Defined.

(** X15 on a local stream of 20000 bytes of which every read and write is
    complete. *)
Lemma send_file_reads_what_remains_witness :
  let trans := {| scp_handle := Some 3; scp_session := 501; scp := 600;
                  scp_local_stream := 40; remaining := 20000 |} in
  let e : env := λ _ c, match c with
                        | twopence_iostream_read _ n => reply_of n
                        | _ => reply_of 0
                        end in
  match @__twopence_ssh_send_file twopence_h_sample 2 trans status_zero e [] with
  | (Some (rc, trans', status'), h') =>
      ∃ l, h' = [] ++ l
           ∧ last l = Some (twopence_target_putc false (ascii_of_nat 10))
           ∧ (rc = 0 ∧ remaining trans' = 0 ∧ status' = status_zero
              ∧ stream_read_total l = remaining trans
              ∨ rc ∈ [-7; -8] ∧ 0 < remaining trans' ≤ remaining trans)
  | (None, _) => True
  end.
Proof.
  intros trans e.
  apply (@send_file_reads_what_remains twopence_h_sample 2 trans status_zero e []).
  simpl. lia.
Defined.

(** ** The time left to a command *)

Lemma ms_of_us (a b : Z) : (a * 1000000 + b) / 1000 = 1000 * a + b / 1000.
Proof.
  replace (a * 1000000 + b) with (1000 * a * 1000 + b) by lia.
  apply Z.div_add_l. discriminate.
Qed.

(** X16: [__twopence_ssh_check_timeout] gives the time left in
    milliseconds, rounded down.  For two times of day with their
    microseconds in range, let [d] be the microseconds from [now] to
    [expires].  If [d] is negative the deadline has passed and the answer
    is false; at the deadline itself ([d] zero) it has not.  Otherwise the
    answer is true, and the timeout of the poll becomes [d / 1000] as an
    [int] when it was negative or larger than that, and stays as it was
    when it was smaller. *)
Theorem check_timeout_gives_the_time_left (now expires : timeval) (msec : Z) :
  0 ≤ tv_usec now < 1000000 → 0 ≤ tv_usec expires < 1000000 →
  let d := (tv_sec expires - tv_sec now) * 1000000 + (tv_usec expires - tv_usec now) in
  __twopence_ssh_check_timeout now expires msec
  = if d <? 0 then None
    else Some (if (msec <? 0) || (d / 1000 <? msec) then to_int (d / 1000) else msec).
Proof.
  intros Hnow Hexp d. unfold __twopence_ssh_check_timeout.
  destruct (Z.ltb_spec d 0) as [Hd|Hd].
  - destruct (Z.ltb_spec (tv_sec expires) (tv_sec now)); [reflexivity |].
    destruct (Z.eqb_spec (tv_sec expires) (tv_sec now));
      destruct (Z.ltb_spec (tv_usec expires) (tv_usec now));
      simpl; try reflexivity; subst d; lia.
  - destruct (Z.ltb_spec (tv_sec expires) (tv_sec now)); [subst d; lia |].
    destruct (Z.eqb_spec (tv_sec expires) (tv_sec now));
      destruct (Z.ltb_spec (tv_usec expires) (tv_usec now));
      simpl; try (subst d; lia);
      destruct (Z.ltb_spec (tv_usec expires - tv_usec now) 0); try lia; simpl;
      match goal with
      | |- context [1000 * ?s + ?u ÷ 1000] =>
          replace (1000 * s + u ÷ 1000) with (d / 1000)
            by (rewrite Z.quot_div_nonneg by lia; subst d; rewrite <- ms_of_us; f_equal; lia)
      end; destruct (_ || _); reflexivity.
Qed.

(** X16 one second and a half before the deadline, for the timeout -1
    of the poll: 1500 milliseconds. *)
Lemma check_timeout_gives_the_time_left_witness :
  __twopence_ssh_check_timeout {| tv_sec := 10; tv_usec := 700000 |}
    {| tv_sec := 12; tv_usec := 200000 |} (-1)
  = Some 1500.
Proof.
  apply (check_timeout_gives_the_time_left {| tv_sec := 10; tv_usec := 700000 |}
           {| tv_sec := 12; tv_usec := 200000 |} (-1)); simpl; lia.
Defined.

(** ** A set exception across the multiplexer, evaluated *)

(** X17 on a transaction that enters the multiplexer with the exception
    -4, on a channel of which every call fails: it leaves it with the
    exception -4. *)
Lemma poll_keeps_exception_witness :
  let trans := set_exception trans_drained (-4) in
  let r := (@__twopence_ssh_poll twopence_h_sample 1 trans status_zero
              (env_const (-1)) []).1 in
  exception (from_option (λ v, v.1.2) trans r) = exception trans.
Proof.
  intros trans r.
  apply (@poll_keeps_exception twopence_h_sample 1 trans (from_option (λ v, v.1.2) trans r)
           status_zero (from_option (λ v, v.2) status_zero r)
           (from_option (λ v, v.1.1) 0 r) (env_const (-1)) []).
  - vm_compute. discriminate.
  - vm_compute. reflexivity.
Defined.

(** ** The values of a transfer *)

Section transfer_values.
Context `{twopence_h}.
Hypothesis Hok : twopence_h_ok.

Lemma result_code_negative (rc : Z) : rc ∈ twopence_result_codes → rc < 0.
Proof.
  destruct Hok as [_ Hneg]. intros Hin.
  exact (proj1 (Forall_forall _ _) Hneg rc Hin).
Qed.

(** A result code is not 0. *)
Ltac code_is_not_0 :=
  match goal with
  | Hz : ?c = 0 |- _ =>
      exfalso;
      assert (c < 0) by (apply result_code_negative; unfold twopence_result_codes; in_list);
      lia
  end.

(** The loops of a transfer leave the status alone when they return 0. *)
Lemma receive_file_status (fuel : nat) (trans : twopence_scp_transaction_t)
    (status : twopence_status_t) (e : env) (h : trace) :
  match (__twopence_ssh_receive_file fuel trans status e h).1 with
  | Some (rc, _, status') =>
      rc = 0 ∧ status' = status
      ∨ rc ∈ [TWOPENCE_RECEIVE_FILE_ERROR; TWOPENCE_LOCAL_FILE_ERROR]
  | None => True
  end.
Proof.
  revert trans h. induction fuel as [|fuel IH]; intros trans h; simpl;
    destruct (remaining trans <=? 0);
    unfold __twopence_ssh_output; do 2 munfold; cbv beta iota zeta;
    try exact I; try (left; split; reflexivity).
  repeat match goal with
         | |- context [negb (?x =? ?y)] =>
             destruct (Z.eqb_spec x y); cbn [negb]; cbv beta iota zeta
         end;
    try (right; simpl; solve [in_list]).
  apply IH.
Qed.

Lemma send_file_status (fuel : nat) (trans : twopence_scp_transaction_t)
    (status : twopence_status_t) (e : env) (h : trace) :
  match (__twopence_ssh_send_file fuel trans status e h).1 with
  | Some (rc, _, status') =>
      rc = 0 ∧ status' = status
      ∨ rc ∈ [TWOPENCE_LOCAL_FILE_ERROR; TWOPENCE_SEND_FILE_ERROR]
  | None => True
  end.
Proof.
  revert trans h. induction fuel as [|fuel IH]; intros trans h; simpl;
    destruct (remaining trans <=? 0);
    unfold __twopence_ssh_output; do 2 munfold; cbv beta iota zeta;
    try exact I; try (left; split; reflexivity).
  repeat match goal with
         | |- context [negb (?x =? ?y)] =>
             destruct (Z.eqb_spec x y); cbn [negb]; cbv beta iota zeta
         end;
    try (right; simpl; solve [in_list]).
  apply IH.
Qed.

Lemma transfer_open_session_value (trans : twopence_scp_transaction_t)
    (username : option string) (e : env) (h : trace) :
  let rc := (twopence_scp_transfer_open_session trans username e h).1.1 in
  rc = 0 ∨ rc = TWOPENCE_OPEN_SESSION_ERROR.
Proof.
  unfold twopence_scp_transfer_open_session. munfold.
  destruct (__twopence_ssh_open_session _ username e h) as [session h1].
  destruct (session =? NULL); simpl; auto.
Qed.

Lemma transfer_init_copy_value (trans : twopence_scp_transaction_t) (direction : Z)
    (remote_name : string) (e : env) (h : trace) :
  let rc := (twopence_scp_transfer_init_copy trans direction remote_name e h).1.1 in
  rc = 0 ∨ rc = TWOPENCE_OPEN_SESSION_ERROR.
Proof.
  unfold twopence_scp_transfer_init_copy. do 2 munfold. cbv beta iota zeta.
  repeat match goal with
         | |- context [if ?x =? ?y then _ else _] => destruct (Z.eqb_spec x y)
         | |- context [negb (?x =? ?y)] => destruct (Z.eqb_spec x y); cbn [negb]
         end; simpl; auto.
Qed.

Lemma extract_ssh_value (trans : twopence_scp_transaction_t) (xfer : twopence_file_xfer_t)
    (status : twopence_status_t) (e : env) (h : trace) :
  match (__twopence_ssh_extract_ssh trans xfer status e h).1 with
  | Some (rc, _, status') =>
      rc = 0 ∧ status' = status
      ∨ rc ∈ [ TWOPENCE_OPEN_SESSION_ERROR; TWOPENCE_RECEIVE_FILE_ERROR;
               TWOPENCE_LOCAL_FILE_ERROR ]
  | None => True
  end.
Proof.
  unfold __twopence_ssh_extract_ssh. munfold.
  pose proof (transfer_init_copy_value trans SSH_SCP_READ (remote_name xfer) e h) as Hic.
  destruct (twopence_scp_transfer_init_copy trans SSH_SCP_READ (remote_name xfer) e h)
    as [[rc trans1] h1]. simpl in Hic. cbv beta iota zeta.
  destruct (Z.ltb_spec rc 0); cbv beta iota zeta.
  { simpl. right. destruct Hic as [->| ->]; [lia | in_list]. }
  do 2 munfold. cbv beta iota zeta.
  repeat match goal with
         | |- context [negb (?x =? ?y)] =>
             destruct (Z.eqb_spec x y); cbn [negb]; cbv beta iota zeta
         | |- context [if ?x =? ?y then _ else _] =>
             destruct (Z.eqb_spec x y); cbv beta iota zeta
         end;
    try (simpl; right; solve [in_list]);
    try (simpl; left; split; reflexivity).
  all: match goal with
       | |- context [__twopence_ssh_receive_file ?f ?t ?s ?e' ?h2] =>
           pose proof (receive_file_status f t s e' h2) as Hrecv;
           destruct (__twopence_ssh_receive_file f t s e' h2)
             as [[[[rc2 trans2] status2]|] h3]
       end; simpl in Hrecv; cbv beta iota zeta; try exact I.
  destruct Hrecv as [[-> ->]|Hin].
  - change (0 <? 0) with false. cbv beta iota zeta.
    match goal with
    | |- context [negb (?x =? ?y)] => destruct (Z.eqb_spec x y); cbn [negb]
    end; simpl; [left; split; reflexivity | right; in_list].
  - assert (Hneg : rc2 < 0).
    { apply result_code_negative. unfold twopence_result_codes.
      repeat (apply elem_of_cons in Hin as [->|Hin]; [in_list |]).
      apply elem_of_nil in Hin. contradiction. }
    destruct (Z.ltb_spec rc2 0); [| lia]. simpl. right. in_list_from Hin.
Qed.

(** X19: the values [twopence_ssh_extract_file] returns, and what the
    code for a remote file error stands for.  With the result codes
    negative, whenever the function returns, either it returns 0 and the
    status is the one it was given, which is all zero; or it returns the
    code for a remote file error, and then the status is the one it was
    given, which was not all zero (the code comes from the test of the
    status after a transfer that returned 0, and the function does not
    reset the status); or it returns the code for opening the session,
    for receiving the file or for a local file. *)
Theorem extract_file_return_values (handle : twopence_ssh_target)
    (xfer : twopence_file_xfer_t) (status : twopence_status_t) (e : env) (h : trace) :
  match (twopence_ssh_extract_file handle xfer status e h).1 with
  | Some (rc, status') =>
      rc = 0 ∧ status' = status ∧ major status = 0 ∧ minor status = 0
      ∨ rc = TWOPENCE_REMOTE_FILE_ERROR ∧ status' = status
        ∧ (major status ≠ 0 ∨ minor status ≠ 0)
      ∨ rc ∈ [ TWOPENCE_OPEN_SESSION_ERROR; TWOPENCE_RECEIVE_FILE_ERROR;
               TWOPENCE_LOCAL_FILE_ERROR ]
  | None => True
  end.
Proof.
  unfold twopence_ssh_extract_file. munfold.
  pose proof (transfer_open_session_value (twopence_scp_transfer_init handle)
                (xfer_user xfer) e h) as Hos.
  destruct (twopence_scp_transfer_open_session _ (xfer_user xfer) e h) as [[rc state] h1].
  simpl in Hos. cbv beta iota zeta.
  destruct (Z.ltb_spec rc 0); cbv beta iota zeta.
  { simpl. right. right. destruct Hos as [->| ->]; [lia | in_list]. }
  pose proof (extract_ssh_value state xfer status e h1) as Hx.
  destruct (__twopence_ssh_extract_ssh state xfer status e h1)
    as [[[[rc2 state2] status2]|] h2]; simpl in Hx; [| exact I].
  cbv beta iota zeta. simpl.
  destruct Hx as [[-> ->]|Hin].
  - change (0 =? 0) with true. cbn [andb].
    destruct (Z.eqb_spec (major status) 0) as [Hmaj|Hmaj];
      destruct (Z.eqb_spec (minor status) 0) as [Hmin|Hmin]; simpl;
      first [ left; repeat split; assumption
            | right; left; split; [reflexivity |]; split; [reflexivity |]; tauto ].
  - right. right.
    destruct (Z.eqb_spec rc2 0) as [Hz|_]; cbn [andb]; [| exact Hin].
    subst rc2. exfalso.
    repeat (apply elem_of_cons in Hin as [Hin|Hin]; [symmetry in Hin; code_is_not_0 |]).
    apply elem_of_nil in Hin. exact Hin.
Qed.

Lemma inject_ssh_value (fuel : nat) (trans : twopence_scp_transaction_t)
    (xfer : twopence_file_xfer_t) (remote_dirname remote_basename : string)
    (status : twopence_status_t) (e : env) (h : trace) :
  match (__twopence_ssh_inject_ssh fuel trans xfer remote_dirname remote_basename status
           e h).1 with
  | Some (rc, _, status') =>
      rc = 0 ∧ status' = status
      ∨ rc ∈ [ TWOPENCE_OPEN_SESSION_ERROR; TWOPENCE_LOCAL_FILE_ERROR;
               TWOPENCE_SEND_FILE_ERROR ]
  | None => True
  end.
Proof.
  unfold __twopence_ssh_inject_ssh. do 2 munfold. cbv beta iota zeta.
  destruct (_ <? 0); cbv beta iota zeta; [exact I |].
  match goal with
  | |- context [__twopence_ssh_check_remote_dir ?s ?d ?e' ?h'] =>
      destruct (__twopence_ssh_check_remote_dir s d e' h') as [[] h1]
  end; cbn [negb]; cbv beta iota zeta; [| simpl; right; in_list].
  match goal with
  | |- context [twopence_scp_transfer_init_copy ?t ?d ?n ?e' ?h'] =>
      pose proof (transfer_init_copy_value t d n e' h') as Hic;
      destruct (twopence_scp_transfer_init_copy t d n e' h') as [[rc trans1] h2]
  end. simpl in Hic. cbv beta iota zeta.
  destruct (Z.ltb_spec rc 0); cbv beta iota zeta.
  { simpl. right. destruct Hic as [->| ->]; [lia | in_list]. }
  match goal with
  | |- context [negb (?x =? ?y)] =>
      destruct (Z.eqb_spec x y); cbn [negb]; cbv beta iota zeta
  end; [| simpl; right; in_list].
  match goal with
  | |- context [__twopence_ssh_send_file ?f ?t ?s ?e' ?h'] =>
      pose proof (send_file_status f t s e' h') as Hsend;
      destruct (__twopence_ssh_send_file f t s e' h') as [[[[rc2 trans2] status2]|] h3]
  end; simpl in Hsend; [| exact I].
  simpl. destruct Hsend as [Hz|Hin]; [left; exact Hz | right; in_list_from Hin].
Qed.

(** The end of [twopence_ssh_inject_file] on what the transfer gave. *)
Lemma inject_file_finish_value (rc : Z) (state : twopence_scp_transaction_t)
    (status0 status : twopence_status_t) (dirname basename : Z) (e : env) (h : trace) :
  rc = 0 ∧ status = status0
  ∨ rc ∈ [ TWOPENCE_OPEN_SESSION_ERROR; TWOPENCE_LOCAL_FILE_ERROR;
           TWOPENCE_SEND_FILE_ERROR ] →
  match (inject_file_finish rc state status dirname basename e h).1 with
  | Some (rc', status') =>
      rc' = 0 ∧ status' = status0 ∧ major status0 = 0 ∧ minor status0 = 0
      ∨ rc' = TWOPENCE_REMOTE_FILE_ERROR ∧ status' = status0
        ∧ (major status0 ≠ 0 ∨ minor status0 ≠ 0)
      ∨ rc' ∈ [ TWOPENCE_OPEN_SESSION_ERROR; TWOPENCE_LOCAL_FILE_ERROR;
                TWOPENCE_SEND_FILE_ERROR ]
  | None => True
  end.
Proof.
  intros Hrc. unfold inject_file_finish. munfold. cbv beta iota zeta.
  destruct (twopence_scp_transfer_destroy state e h) as [state' h1]. simpl.
  destruct Hrc as [[-> ->]|Hin].
  - change (0 =? 0) with true. cbn [andb].
    destruct (Z.eqb_spec (major status0) 0) as [Hmaj|Hmaj];
      destruct (Z.eqb_spec (minor status0) 0) as [Hmin|Hmin]; simpl;
      first [ left; repeat split; assumption
            | right; left; split; [reflexivity |]; split; [reflexivity |]; tauto ].
  - right. right.
    destruct (Z.eqb_spec rc 0) as [Hz|_]; cbn [andb]; [| exact Hin].
    subst rc. exfalso.
    repeat (apply elem_of_cons in Hin as [Hin|Hin]; [symmetry in Hin; code_is_not_0 |]).
    apply elem_of_nil in Hin. exact Hin.
Qed.

(** X20: the values [twopence_ssh_inject_file] returns, likewise.  With
    the result codes negative, whenever the function returns, either it
    returns 0 and the status is the one it was given, which is all zero;
    or it returns the code for a remote file error, the status being the
    one it was given, which was not all zero; or it returns the code for
    opening the session, for a local file or for sending the file. *)
Theorem inject_file_return_values (fuel : nat) (handle : twopence_ssh_target)
    (xfer : twopence_file_xfer_t) (status : twopence_status_t) (e : env) (h : trace) :
  match (twopence_ssh_inject_file fuel handle xfer status e h).1 with
  | Some (rc, status') =>
      rc = 0 ∧ status' = status ∧ major status = 0 ∧ minor status = 0
      ∨ rc = TWOPENCE_REMOTE_FILE_ERROR ∧ status' = status
        ∧ (major status ≠ 0 ∨ minor status ≠ 0)
      ∨ rc ∈ [ TWOPENCE_OPEN_SESSION_ERROR; TWOPENCE_LOCAL_FILE_ERROR;
               TWOPENCE_SEND_FILE_ERROR ]
  | None => True
  end.
Proof.
  unfold twopence_ssh_inject_file. munfold.
  pose proof (transfer_open_session_value (twopence_scp_transfer_init handle)
                (xfer_user xfer) e h) as Hos.
  destruct (twopence_scp_transfer_open_session _ (xfer_user xfer) e h) as [[rc state] h1].
  simpl in Hos. cbv beta iota zeta.
  destruct (Z.ltb_spec rc 0); cbv beta iota zeta.
  { simpl. right. right. destruct Hos as [->| ->]; [lia | in_list]. }
  do 2 munfold. cbv beta iota zeta.
  destruct (_ <? 0); cbv beta iota zeta.
  - destruct (_ =? NULL); cbv beta iota zeta; [simpl; right; right; in_list |].
    match goal with
    | |- context [__twopence_ssh_inject_ssh ?f ?t ?x ?d ?b ?s ?e' ?h'] =>
        pose proof (inject_ssh_value f t x d b s e' h') as Hx;
        destruct (__twopence_ssh_inject_ssh f t x d b s e' h')
          as [[[[rc2 state2] status2]|] h2]
    end; simpl in Hx; cbv beta iota zeta; [| exact I].
    apply inject_file_finish_value. exact Hx.
  - match goal with
    | |- context [__twopence_ssh_inject_ssh ?f ?t ?x ?d ?b ?s ?e' ?h'] =>
        pose proof (inject_ssh_value f t x d b s e' h') as Hx;
        destruct (__twopence_ssh_inject_ssh f t x d b s e' h')
          as [[[[rc2 state2] status2]|] h2]
    end; simpl in Hx; cbv beta iota zeta; [| exact I].
    apply inject_file_finish_value. exact Hx.
Qed.

End transfer_values.

(** X19 with the codes numbered as in [twopence_h_sample], on a download
    of three bytes of which every step succeeds, for a caller whose
    status holds 7: the function returns -9. *)
Lemma extract_file_return_values_witness :
  let status := {| major := 0; minor := 7 |} in
  match (@twopence_ssh_extract_file twopence_h_sample target_idle xfer_motd status
           (env_download 3) []).1 with
  | Some (rc, status') =>
      rc = 0 ∧ status' = status ∧ major status = 0 ∧ minor status = 0
      ∨ rc = -9 ∧ status' = status ∧ (major status ≠ 0 ∨ minor status ≠ 0)
      ∨ rc ∈ [-2; -10; -7]
  | None => True
  end.
Proof.
  intros status.
  apply (@extract_file_return_values twopence_h_sample).
  apply (bool_decide_unpack _). vm_compute. exact I.
Defined.

(** X20 with the codes numbered as in [twopence_h_sample], on an upload
    of three bytes of which every step succeeds, for a caller whose
    status holds 7. *)
Lemma inject_file_return_values_witness :
  let status := {| major := 0; minor := 7 |} in
  match (@twopence_ssh_inject_file twopence_h_sample 3 target_idle xfer_motd status
           (env_upload 3) []).1 with
  | Some (rc, status') =>
      rc = 0 ∧ status' = status ∧ major status = 0 ∧ minor status = 0
      ∨ rc = -9 ∧ status' = status ∧ (major status ≠ 0 ∨ minor status ≠ 0)
      ∨ rc ∈ [-2; -7; -8]
  | None => True
  end.
Proof.
  intros status.
  apply (@inject_file_return_values twopence_h_sample).
  apply (bool_decide_unpack _). vm_compute. exact I.
Defined.
